(** * AeroHire: a shallow embedding of the recruiter report and the
      candidate-side telemetry producer

    The development follows the TypeScript sources of the front end
    (the candidate report page, the assessment page and the API types).
    Every definition names the source function it embeds.

    Conventions of the embedding.
    - A JavaScript string is a [string]: a sequence of 8-bit code units,
      read as the code points U+0000..U+00FF.  The built-ins [trim],
      [toLowerCase], [toUpperCase] and the regular-expression class [\s]
      are written out on that range.
    - [null] and [undefined] are [None].
    - Integer-valued numbers (character counts, clock readings in
      milliseconds, list lengths) are [Z] or [nat]; scores are [Q]; where
      the rounding of binary64 arithmetic is observable (the originality
      percentage, the divisions of the chart, of the playback and of the
      clocks) the explicit rounding function [fl] is used. *)

From Stdlib Require Import Bool List ZArith QArith Qround Lia Lqa.
From Stdlib Require Import Ascii String SpecFloat Sorted.
From Stdlib Require Import Permutation DecimalString DecimalZ.
Import ListNotations.

Local Open Scope list_scope.
Local Open Scope string_scope.

(* ================================================================== *)
(** * JavaScript strings                                               *)
(* ================================================================== *)

Module Js.

(** Code unit of a character. *)
Definition code (c : ascii) : N := N_of_ascii c.

(** The class [\s] of a regular expression and the characters removed by
    [String.prototype.trim], restricted to U+0000..U+00FF: TAB, LF, VT, FF,
    CR, SPACE and NO-BREAK SPACE. *)
Definition isWhiteSpace (c : ascii) : bool :=
  let n := code c in
  (((9 <=? n) && (n <=? 13)) || (n =? 32) || (n =? 160))%N.

Definition isUpperAscii (c : ascii) : bool :=
  let n := code c in ((65 <=? n) && (n <=? 90))%N.

Definition isLowerAscii (c : ascii) : bool :=
  let n := code c in ((97 <=? n) && (n <=? 122))%N.

Definition isDigit (c : ascii) : bool :=
  let n := code c in ((48 <=? n) && (n <=? 57))%N.

(** Upper-case letters of the Latin-1 supplement: U+00C0..U+00DE without
    the multiplication sign U+00D7. *)
Definition isUpperLatin1 (c : ascii) : bool :=
  let n := code c in ((192 <=? n) && (n <=? 222) && negb (n =? 215))%N.

(** Lower-case letters of the Latin-1 supplement whose upper-case form is
    again in the range: U+00E0..U+00FE without the division sign U+00F7. *)
Definition isLowerLatin1 (c : ascii) : bool :=
  let n := code c in ((224 <=? n) && (n <=? 254) && negb (n =? 247))%N.

Definition shiftCode (c : ascii) (d : Z) : ascii :=
  ascii_of_N (Z.to_N (Z.of_N (code c) + d)).

(** [String.prototype.toLowerCase], one code unit at a time. *)
Definition lowerChar (c : ascii) : ascii :=
  if isUpperAscii c || isUpperLatin1 c then shiftCode c 32 else c.

Fixpoint toLowerCase (s : string) : string :=
  match s with
  | EmptyString => EmptyString
  | String c r => String (lowerChar c) (toLowerCase r)
  end.

(** [String.prototype.toUpperCase].  U+00DF (sharp s) becomes the two
    letters SS.  The upper-case forms of U+00B5 and U+00FF lie outside
    U+0000..U+00FF; these two code units are kept as they are, which no
    comparison against an ASCII key can observe. *)
Definition upperChar (c : ascii) : string :=
  if isLowerAscii c || isLowerLatin1 c then String (shiftCode c (-32)) EmptyString
  else if (code c =? 223)%N then "SS"
  else String c EmptyString.

Fixpoint toUpperCase (s : string) : string :=
  match s with
  | EmptyString => EmptyString
  | String c r => upperChar c ++ toUpperCase r
  end.

(** Canonicalisation of a code unit under the [i] flag of a regular
    expression without the [u] flag: a character whose upper-case form would
    leave or enter the ASCII range is left alone, so on ASCII patterns only
    the ASCII letters fold. *)
Definition canon (c : ascii) : ascii :=
  if isLowerAscii c then shiftCode c (-32) else c.

Definition ciEq (p c : ascii) : bool := Ascii.eqb (canon p) (canon c).

(** A pattern made of literal characters matched at the start of [s] under
    the [i] flag; the rest of [s] after the match is returned. *)
Fixpoint stripPrefixCi (pat s : string) : option string :=
  match pat with
  | EmptyString => Some s
  | String p pat' =>
      match s with
      | EmptyString => None
      | String c s' => if ciEq p c then stripPrefixCi pat' s' else None
      end
  end.

(** Greedy [\s*]. *)
Fixpoint skipWhiteSpace (s : string) : string :=
  match s with
  | EmptyString => EmptyString
  | String c r => if isWhiteSpace c then skipWhiteSpace r else s
  end.

Definition trimStart (s : string) : string := skipWhiteSpace s.

(** [s.replace(/\s+$/, '')], also [String.prototype.trimEnd]. *)
Fixpoint trimEnd (s : string) : string :=
  match s with
  | EmptyString => EmptyString
  | String c r =>
      match trimEnd r with
      | EmptyString => if isWhiteSpace c then EmptyString else String c EmptyString
      | r' => String c r'
      end
  end.

Definition trim (s : string) : string := trimEnd (trimStart s).

(** [s.split('\n')]: the pieces between line feeds; never the empty list. *)
Fixpoint splitLines (s : string) : list string :=
  match s with
  | EmptyString => [EmptyString]
  | String c r =>
      if (code c =? 10)%N then EmptyString :: splitLines r
      else match splitLines r with
           | [] => [String c EmptyString]
           | l :: ls => String c l :: ls
           end
  end.

(** [xs.join(sep)] on an array of strings. *)
Fixpoint join (sep : string) (xs : list string) : string :=
  match xs with
  | [] => EmptyString
  | [x] => x
  | x :: rest => x ++ sep ++ join sep rest
  end.

(** [s.slice(0, n)] for [0 <= n]. *)
Fixpoint sliceTo (n : nat) (s : string) : string :=
  match n, s with
  | O, _ => EmptyString
  | _, EmptyString => EmptyString
  | S k, String c r => String c (sliceTo k r)
  end.

(** [s.replace(/\s+/g, ' ')]: every maximal run of white space becomes one
    space. *)
Fixpoint collapseFrom (inRun : bool) (s : string) : string :=
  match s with
  | EmptyString => EmptyString
  | String c r =>
      if isWhiteSpace c
      then (if inRun then collapseFrom true r else String " " (collapseFrom true r))
      else String c (collapseFrom false r)
  end.

Definition collapseWhiteSpace (s : string) : string := collapseFrom false s.

(** [m] has the length of [pat] and matches it character by character
    under the [i] flag. *)
Fixpoint matchesCi (pat m : string) : bool :=
  match pat, m with
  | EmptyString, EmptyString => true
  | String p pat', String c m' => ciEq p c && matchesCi pat' m'
  | _, _ => false
  end.

(** Every character of [s] satisfies [f]. *)
Fixpoint allOf (f : ascii -> bool) (s : string) : bool :=
  match s with
  | EmptyString => true
  | String c r => f c && allOf f r
  end.

(** [s] starts with a character that satisfies [f]. *)
Definition startsWith (f : ascii -> bool) (s : string) : bool :=
  match s with
  | EmptyString => false
  | String c _ => f c
  end.

Lemma append_nil_r (s : string) : s ++ "" = s.
Proof. induction s as [|c s IH]; cbn; [reflexivity | now rewrite IH]. Qed.

Lemma append_assoc (s t u : string) : (s ++ t) ++ u = s ++ (t ++ u).
Proof. induction s as [|c s IH]; cbn; [reflexivity | now rewrite IH]. Qed.

Lemma stripPrefixCi_app (pat : string) :
  forall m rest, matchesCi pat m = true -> stripPrefixCi pat (m ++ rest) = Some rest.
Proof.
  induction pat as [|p pat IH]; intros [|c m] rest H; cbn in *; try discriminate.
  - reflexivity.
  - apply andb_true_iff in H. destruct H as [H1 H2].
    rewrite H1. now apply IH.
Qed.

Lemma stripPrefixCi_inv (pat : string) :
  forall s rest, stripPrefixCi pat s = Some rest ->
    exists m, s = m ++ rest /\ matchesCi pat m = true.
Proof.
  induction pat as [|p pat IH]; intros s rest H; cbn in H.
  - injection H as <-. exists "". split; reflexivity.
  - destruct s as [|c s]; [discriminate|].
    destruct (ciEq p c) eqn:E; [|discriminate].
    destruct (IH _ _ H) as (m & -> & Hm).
    exists (String c m). split; [reflexivity|]. cbn. now rewrite E, Hm.
Qed.

Lemma skipWhiteSpace_inv (s : string) :
  exists ws, s = ws ++ skipWhiteSpace s /\ allOf isWhiteSpace ws = true /\
             startsWith isWhiteSpace (skipWhiteSpace s) = false.
Proof.
  induction s as [|c s (ws & E & H1 & H2)]; cbn.
  - exists "". repeat split.
  - destruct (isWhiteSpace c) eqn:Ec.
    + exists (String c ws). cbn. rewrite Ec, H1, <- E. repeat split. exact H2.
    + exists "". cbn. repeat split. exact Ec.
Qed.

Lemma skipWhiteSpace_app (ws r : string) :
  allOf isWhiteSpace ws = true -> startsWith isWhiteSpace r = false ->
  skipWhiteSpace (ws ++ r) = r.
Proof.
  induction ws as [|c ws IH]; cbn; intros H1 H2.
  - destruct r as [|c r]; cbn in *; [reflexivity | now rewrite H2].
  - apply andb_true_iff in H1. destruct H1 as [Hc H1]. rewrite Hc. now apply IH.
Qed.

Lemma trimEnd_cons (c : ascii) (r : string) :
  trimEnd (String c r)
  = match trimEnd r with
    | EmptyString => if isWhiteSpace c then EmptyString else String c EmptyString
    | r' => String c r'
    end.
Proof. reflexivity. Qed.

Lemma trimEnd_idem (s : string) : trimEnd (trimEnd s) = trimEnd s.
Proof.
  induction s as [|c r IH]; [reflexivity|].
  rewrite trimEnd_cons.
  destruct (trimEnd r) as [|c' r'] eqn:E.
  - destruct (isWhiteSpace c) eqn:Ec; [reflexivity|].
    cbn. now rewrite Ec.
  - rewrite trimEnd_cons, IH. reflexivity.
Qed.

Lemma skipWhiteSpace_trimEnd (s : string) :
  skipWhiteSpace (trimEnd s) = trimEnd (skipWhiteSpace s).
Proof.
  induction s as [|c r IH]; [reflexivity|].
  rewrite trimEnd_cons. cbn [skipWhiteSpace].
  destruct (isWhiteSpace c) eqn:Ec.
  - rewrite <- IH. destruct (trimEnd r) as [|c' r']; [reflexivity|].
    cbn [skipWhiteSpace]. now rewrite Ec.
  - rewrite trimEnd_cons.
    destruct (trimEnd r) as [|c' r']; cbn [skipWhiteSpace]; now rewrite Ec.
Qed.

(** Trimming after [s.replace(/\s+$/, '')] is trimming. *)
Lemma trim_trimEnd (s : string) : trim (trimEnd s) = trim s.
Proof.
  unfold trim, trimStart. now rewrite skipWhiteSpace_trimEnd, trimEnd_idem.
Qed.

End Js.

(* ================================================================== *)
(** * API types shared by the pages                                    *)
(* ================================================================== *)

Module Api.

(** [severity: 'LOW' | 'MEDIUM' | 'HIGH'] of a telemetry request. *)
Inductive Severity := LOW | MEDIUM | HIGH.

(** [interface CharBreakdown { typed: number; pasted: number }]; the
    counts are integers below [2^53] in magnitude, on which the additions of
    binary64 numbers are exact. *)
Record CharBreakdown := { typed : Z; pasted : Z }.

(** [interface CodeSubmission], the fields the report page reads. *)
Record CodeSubmission := {
  is_passed : bool;
  tests_total : option Z;
  char_breakdown : option CharBreakdown
}.

End Api.

(* ================================================================== *)
(** * The AI report parser (candidate report page)                     *)
(* ================================================================== *)

Module Report.
Import Js.

Inductive Verdict := HIRE | NO_HIRE | REVIEW.

(** [interface ParsedBullet { text: string; evidence?: string }] *)
Record ParsedBullet := { text : string; evidence : option string }.

(** What an element of [strengths] or [risks] is at run time: the branch of
    [parseAIReport] for a missing rationale stores bare strings in these
    arrays, every other branch stores [ParsedBullet] objects. *)
Inductive BulletItem :=
| Bare (s : string)
| Obj (b : ParsedBullet).

(** [interface ParsedRationale] *)
Record ParsedRationale := {
  verdict : option Verdict;
  strengths : list BulletItem;
  risks : list BulletItem;
  summary : string
}.

Definition LF : ascii := "010"%char.

(** The class [[A-Z ]] under the [i] flag. *)
Definition isHeaderChar (c : ascii) : bool :=
  isUpperAscii c || isLowerAscii c || Ascii.eqb c " ".

Fixpoint skipHeaderChars (s : string) : string :=
  match s with
  | EmptyString => EmptyString
  | String c r => if isHeaderChar c then skipHeaderChars r else s
  end.

(** The first alternative of the look-ahead of [getSection],
    [\n\[[A-Z ]+\]:], tried at the start of [s].  The greedy run of header
    characters is followed by a closing bracket, which is not a header
    character, so giving characters back cannot produce another match. *)
Definition headerAhead (s : string) : bool :=
  match s with
  | String nl (String br (String c r)) =>
      Ascii.eqb nl LF && Ascii.eqb br "[" && isHeaderChar c &&
      match skipHeaderChars r with
      | String c1 (String c2 _) => Ascii.eqb c1 "]" && Ascii.eqb c2 ":"
      | _ => false
      end
  | _ => false
  end.

(** The lazy group [([\s\S]*?)] followed by the look-ahead
    [(?=\n\[[A-Z ]+\]:|$)]: the shortest prefix of [s] after which a header
    line starts or the input ends. *)
Fixpoint lazyBody (s : string) : string :=
  match s with
  | EmptyString => EmptyString
  | String c r => if headerAhead s then EmptyString else String c (lazyBody r)
  end.

(** The leftmost position of [text] at which [\[label\]:] matches under the
    [i] flag; the text after the header is returned.  [label] is one of the
    three literal labels passed by [parseAIReport]. *)
Fixpoint afterHeader (label : string) (s : string) : option string :=
  match stripPrefixCi ("[" ++ label ++ "]:") s with
  | Some rest => Some rest
  | None =>
      match s with
      | EmptyString => None
      | String _ r => afterHeader label r
      end
  end.

(** [getSection] of [parseAIReport]: the regular expression
    [\[label\]:\s*([\s\S]*?)(?=\n\[[A-Z ]+\]:|$)] with flag [i]; the group,
    trimmed, or the empty string when there is no match.  At the leftmost
    header the greedy [\s*] takes all the white space and the remainder of
    the pattern succeeds at the latest at the end of the input, so no
    backtracking into [\s*] or to a later header takes place. *)
Definition getSection (txt label : string) : string :=
  match afterHeader label txt with
  | Some rest => trim (lazyBody (skipWhiteSpace rest))
  | None => EmptyString
  end.

(** The class of the bullet-prefix pattern as the source file spells it: an
    escaped backslash, a dash, and the three characters U+00E2, U+20AC and
    U+00A2.  The dash makes a range of the backslash and U+00E2, so the class
    is U+005C..U+00E2 (U+00A2 lies inside it; U+20AC is outside the code
    units modelled). *)
Definition inBulletClass (c : ascii) : bool :=
  let n := code c in ((92 <=? n) && (n <=? 226))%N.

Fixpoint dropLetterS (s : string) : string :=
  match s with
  | EmptyString => EmptyString
  | String c r => if Ascii.eqb c "s" then dropLetterS r else s
  end.

(** [line.replace(/^[...]\\s*/, '')]: in the regular-expression literal
    the class is followed by an escaped backslash and by [s*], so the pattern
    removes one class character, one backslash and the letters [s] after it. *)
Definition stripBulletPrefix (line : string) : string :=
  match line with
  | String c (String b r) =>
      if inBulletClass c && Ascii.eqb b "\" then dropLetterS r else line
  | _ => line
  end.

(** The class [[A-Za-z0-9._-]]. *)
Definition isTagChar (c : ascii) : bool :=
  isUpperAscii c || isLowerAscii c || isDigit c ||
  Ascii.eqb c "." || Ascii.eqb c "_" || Ascii.eqb c "-".

(** Greedy [[A-Za-z0-9._-]*]: the run and what follows it. *)
Fixpoint takeTag (s : string) : string * string :=
  match s with
  | EmptyString => (EmptyString, EmptyString)
  | String c r =>
      if isTagChar c then let (t, rest) := takeTag r in (String c t, rest)
      else (EmptyString, s)
  end.

(** [/EVIDENCE:\s*([A-Za-z0-9._-]+)/i] tried at the start of [s]: the tag
    and the text after the match. *)
Definition matchEvidenceAt (s : string) : option (string * string) :=
  match stripPrefixCi "EVIDENCE:" s with
  | Some r =>
      match takeTag (skipWhiteSpace r) with
      | (EmptyString, _) => None
      | (tag, rest) => Some (tag, rest)
      end
  | None => None
  end.

(** The leftmost match of the evidence pattern in [s]: the text before the
    match, the tag, the text after the match. *)
Fixpoint findEvidence (s : string) : option (string * string * string) :=
  match matchEvidenceAt s with
  | Some (tag, rest) => Some (EmptyString, tag, rest)
  | None =>
      match s with
      | EmptyString => None
      | String c r =>
          match findEvidence r with
          | Some (before, tag, rest) => Some (String c before, tag, rest)
          | None => None
          end
      end
  end.

(** The callback of the last [map] of [parseBullets]. *)
Definition parseBulletLine (line : string) : ParsedBullet :=
  match findEvidence line with
  | Some (before, tag, rest) =>
      {| text := trim (trimEnd (before ++ rest)); evidence := Some tag |}
  | None =>
      {| text := trim (trimEnd line); evidence := None |}
  end.

Definition nonEmpty (s : string) : bool :=
  match s with EmptyString => false | _ => true end.

(** [parseBullets] of [parseAIReport]. *)
Definition parseBullets (section : string) : list ParsedBullet :=
  map parseBulletLine
    (filter nonEmpty
       (map (fun line => trim (stripBulletPrefix line)) (splitLines section))).

(** The alternation [(HIRE|NO_HIRE|REVIEW)] under the [i] flag. *)
Definition verdictWord (s : string) : option Verdict :=
  match stripPrefixCi "HIRE" s with
  | Some _ => Some HIRE
  | None =>
      match stripPrefixCi "NO_HIRE" s with
      | Some _ => Some NO_HIRE
      | None =>
          match stripPrefixCi "REVIEW" s with
          | Some _ => Some REVIEW
          | None => None
          end
      end
  end.

(** [/\[VERDICT\]:\s*(HIRE|NO_HIRE|REVIEW)/i] tried at the start of [s]. *)
Definition matchVerdictAt (s : string) : option Verdict :=
  match stripPrefixCi "[VERDICT]:" s with
  | Some r => verdictWord (skipWhiteSpace r)
  | None => None
  end.

(** [text.match(/\[VERDICT\]:\s*(HIRE|NO_HIRE|REVIEW)/i)]: the leftmost
    match; the group, upper-cased, is one of the three verdicts. *)
Fixpoint findVerdict (s : string) : option Verdict :=
  match matchVerdictAt s with
  | Some v => Some v
  | None =>
      match s with
      | EmptyString => None
      | String _ r => findVerdict r
      end
  end.

Definition pendingSummary : string :=
  "Awaiting assessment completion for AI analysis.".

Definition pendingReport : ParsedRationale :=
  {| verdict := None;
     strengths := [Bare "Assessment data pending"];
     risks := [Bare "No analysis available yet"];
     summary := pendingSummary |}.

Definition defaultStrength : ParsedBullet :=
  {| text := "Technical assessment completed"; evidence := None |}.

Definition defaultRisk : ParsedBullet :=
  {| text := "No major risks highlighted"; evidence := None |}.

(** [xs.length ? xs : [d]] *)
Definition orDefault (xs : list ParsedBullet) (d : ParsedBullet) : list BulletItem :=
  match xs with
  | [] => [Obj d]
  | _ => map Obj xs
  end.

(** [function parseAIReport(text: string | null): ParsedRationale] *)
Definition parseAIReport (txt : option string) : ParsedRationale :=
  match txt with
  | None | Some EmptyString => pendingReport
  | Some t =>
      {| verdict := findVerdict t;
         strengths := orDefault (parseBullets (getSection t "STRENGTHS")) defaultStrength;
         risks := orDefault (parseBullets (getSection t "RISKS")) defaultRisk;
         summary := match getSection t "SUMMARY" with
                    | EmptyString => pendingSummary
                    | s => s
                    end |}
  end.

(** A citation [EVIDENCE: tag] starts [s] and is followed by [rest]: the
    keyword in any letter case, white space, the tag (a non-empty run of tag
    characters that [rest] does not continue). *)
Definition CitationAt (s tag rest : string) : Prop :=
  exists kw ws,
    s = kw ++ ws ++ tag ++ rest /\
    matchesCi "EVIDENCE:" kw = true /\
    allOf isWhiteSpace ws = true /\
    tag <> EmptyString /\
    allOf isTagChar tag = true /\
    startsWith isTagChar rest = false.

Definition StartsCitation (s : string) : Prop :=
  exists tag rest, CitationAt s tag rest.

(** [line] contains a citation with the tag [tag]. *)
Definition ContainsCitation (line tag : string) : Prop :=
  exists pre s rest, line = pre ++ s /\ CitationAt s tag rest.

Definition NoCitation (line : string) : Prop :=
  forall pre s, line = pre ++ s -> ~ StartsCitation s.

(** The leftmost citation of [line] has the tag [tag], with [pre] before it
    and [rest] after it. *)
Definition LeftmostCitation (line pre tag rest : string) : Prop :=
  exists s,
    line = pre ++ s /\ CitationAt s tag rest /\
    forall p1 p2, pre = p1 ++ p2 -> p2 <> EmptyString -> ~ StartsCitation (p2 ++ s).




Lemma tagChar_not_space (c : ascii) : isTagChar c = true -> isWhiteSpace c = false.
Proof. destruct c as [[] [] [] [] [] [] [] []]; cbn; congruence. Qed.

Lemma takeTag_inv (s : string) :
  forall tag rest, takeTag s = (tag, rest) ->
    s = tag ++ rest /\ allOf isTagChar tag = true /\ startsWith isTagChar rest = false.
Proof.
  induction s as [|c s IH]; intros tag rest H; cbn in H.
  - injection H as <- <-. repeat split.
  - destruct (isTagChar c) eqn:Ec.
    + destruct (takeTag s) as [t r]. injection H as <- <-.
      destruct (IH t r eq_refl) as (-> & H1 & H2).
      cbn. rewrite Ec, H1. repeat split. exact H2.
    + injection H as <- <-. cbn. repeat split. exact Ec.
Qed.

Lemma takeTag_app (tag rest : string) :
  allOf isTagChar tag = true -> startsWith isTagChar rest = false ->
  takeTag (tag ++ rest) = (tag, rest).
Proof.
  induction tag as [|c tag IH]; cbn; intros H1 H2.
  - destruct rest as [|c rest]; cbn in *; [reflexivity | now rewrite H2].
  - apply andb_true_iff in H1. destruct H1 as [Hc H1]. rewrite Hc.
    now rewrite (IH H1 H2).
Qed.

Lemma matchEvidenceAt_Some (s tag rest : string) :
  matchEvidenceAt s = Some (tag, rest) <-> CitationAt s tag rest.
Proof.
  unfold matchEvidenceAt, CitationAt. split.
  - destruct (stripPrefixCi "EVIDENCE:" s) as [r|] eqn:E; [|discriminate].
    destruct (stripPrefixCi_inv _ _ _ E) as (kw & -> & Hkw).
    destruct (skipWhiteSpace_inv r) as (ws & Er & Hws & _).
    destruct (takeTag (skipWhiteSpace r)) as [t r'] eqn:Et.
    destruct (takeTag_inv _ _ _ Et) as (Es & Ht & Hr').
    destruct t as [|c t]; [discriminate|].
    intros H. injection H as <- <-.
    exists kw, ws. rewrite <- Es, <- Er. repeat split; try assumption. discriminate.
  - intros (kw & ws & -> & Hkw & Hws & Hne & Htag & Hrest).
    rewrite (stripPrefixCi_app _ _ _ Hkw).
    rewrite skipWhiteSpace_app; [| assumption |].
    + rewrite (takeTag_app _ _ Htag Hrest).
      destruct tag; [congruence | reflexivity].
    + destruct tag as [|c tag]; [congruence|]. cbn in *.
      apply tagChar_not_space.
      now destruct (isTagChar c).
Qed.

Lemma matchEvidenceAt_None (s : string) :
  matchEvidenceAt s = None <-> ~ StartsCitation s.
Proof.
  split.
  - intros H (tag & rest & C). apply matchEvidenceAt_Some in C. congruence.
  - intros H. destruct (matchEvidenceAt s) as [[tag rest]|] eqn:E; [|reflexivity].
    exfalso. apply H. exists tag, rest. now apply matchEvidenceAt_Some.
Qed.

Lemma findEvidence_leftmost (pre : string) :
  forall s tag rest,
    CitationAt s tag rest ->
    (forall p1 p2, pre = p1 ++ p2 -> p2 <> EmptyString -> ~ StartsCitation (p2 ++ s)) ->
    findEvidence (pre ++ s) = Some (pre, tag, rest).
Proof.
  induction pre as [|c pre IH]; intros s tag rest C L.
  - cbn [append]. apply matchEvidenceAt_Some in C.
    destruct s; cbn [findEvidence]; now rewrite C.
  - cbn [append findEvidence].
    assert (N : matchEvidenceAt (String c (pre ++ s)) = None).
    { apply matchEvidenceAt_None. apply (L "" (String c pre)); [reflexivity | discriminate]. }
    rewrite N, (IH s tag rest C); [reflexivity|].
    intros p1 p2 -> Hne. apply (L (String c p1) p2); [reflexivity | assumption].
Qed.

Lemma findEvidence_None (line : string) :
  NoCitation line -> findEvidence line = None.
Proof.
  unfold NoCitation. induction line as [|c line IH]; intros H.
  - reflexivity.
  - cbn [findEvidence].
    rewrite (proj2 (matchEvidenceAt_None (String c line))) by (apply (H ""); reflexivity).
    rewrite IH; [reflexivity|].
    intros pre s ->. apply (H (String c pre)). reflexivity.
Qed.

Lemma findEvidence_inv (line : string) :
  forall pre tag rest, findEvidence line = Some (pre, tag, rest) ->
    LeftmostCitation line pre tag rest.
Proof.
  induction line as [|c line IH]; intros pre tag rest H; cbn [findEvidence] in H.
  - destruct (matchEvidenceAt "") as [[t r]|] eqn:E; [|discriminate].
    injection H as <- <- <-. exists "". repeat split.
    + now apply matchEvidenceAt_Some.
    + intros p1 p2 E1 Hne. destruct p1; destruct p2; try discriminate; congruence.
  - destruct (matchEvidenceAt (String c line)) as [[t r]|] eqn:E.
    + injection H as <- <- <-. exists (String c line). repeat split.
      * now apply matchEvidenceAt_Some.
      * intros p1 p2 E1 Hne. destruct p1; destruct p2; try discriminate; congruence.
    + destruct (findEvidence line) as [[[b t] r]|] eqn:F; [|discriminate].
      injection H as <- <- <-.
      destruct (IH _ _ _ eq_refl) as (s & -> & C & L).
      exists s. repeat split; [assumption|].
      intros p1 p2 E1 Hne. destruct p1 as [|c1 p1]; cbn in E1.
      * subst p2. cbn [append]. now apply matchEvidenceAt_None.
      * injection E1 as <- ->. now apply (L p1 p2).
Qed.

Lemma findEvidence_cases (line : string) :
  NoCitation line \/ exists pre tag rest, LeftmostCitation line pre tag rest.
Proof.
  destruct (findEvidence line) as [[[pre tag] rest]|] eqn:F.
  - right. exists pre, tag, rest. now apply findEvidence_inv.
  - left. revert F. induction line as [|c line IH]; cbn [findEvidence]; intros F.
    + destruct (matchEvidenceAt "") as [[t r]|] eqn:E; [discriminate|].
      intros pre s E1. destruct pre; destruct s; try discriminate.
      now apply matchEvidenceAt_None.
    + destruct (matchEvidenceAt (String c line)) as [[t r]|] eqn:E; [discriminate|].
      destruct (findEvidence line) as [[[b t] r]|] eqn:F'; [discriminate|].
      intros pre s E1. destruct pre as [|c1 pre]; cbn in E1.
      * subst s. now apply matchEvidenceAt_None.
      * injection E1 as <- ->. now apply (IH eq_refl pre s).
Qed.

(** C6, as amended.  A bullet line is parsed with the tag of its leftmost
    citation, and its text is the line without that one citation, trimmed;
    a line without a citation is parsed with no tag; one of the two cases
    applies to every line; and every parsed bullet of a section comes from
    one of its lines, trimmed. *)
Theorem parseBulletLine_spec (line : string) :
  (forall pre tag rest,
     LeftmostCitation line pre tag rest ->
     parseBulletLine line
     = {| text := trim (pre ++ rest); evidence := Some tag |}) /\
  (NoCitation line ->
   parseBulletLine line = {| text := trim line; evidence := None |}) /\
  (NoCitation line \/ exists pre tag rest, LeftmostCitation line pre tag rest) /\
  (forall section b,
     In b (parseBullets section) ->
     exists l, In l (splitLines section) /\
               b = parseBulletLine (trim (stripBulletPrefix l))).
Proof.
  repeat split.
  - intros pre tag rest (s & -> & C & L). unfold parseBulletLine.
    now rewrite (findEvidence_leftmost pre s tag rest C L), trim_trimEnd.
  - intros H. unfold parseBulletLine.
    now rewrite (findEvidence_None line H), trim_trimEnd.
  - apply findEvidence_cases.
  - intros section b H. unfold parseBullets in H.
    apply in_map_iff in H. destruct H as (l' & <- & H).
    apply filter_In in H. destruct H as [H _].
    apply in_map_iff in H. destruct H as (l & <- & H).
    exists l. split; [assumption | reflexivity].
Qed.

Lemma parseBulletLine_spec_witness :
  parseBulletLine "Solid Python EVIDENCE: resume.skills"
  = {| text := "Solid Python"; evidence := Some "resume.skills" |}.
Proof.
  apply (proj1 (parseBulletLine_spec "Solid Python EVIDENCE: resume.skills")
           "Solid Python " "resume.skills" "").
  exists "EVIDENCE: resume.skills". split; [reflexivity|]. split.
  - exists "EVIDENCE:", " ". repeat split. discriminate.
  - intros p1 p2 E Hne. apply matchEvidenceAt_None.
    do 13 (destruct p1 as [|? p1];
           [cbn in E; subst p2; reflexivity | cbn in E; injection E as <- E]).
    destruct p1; destruct p2; try discriminate; congruence.
Defined.

(** C6 as stated fails on a line with two citations: the line contains the
    citation [EVIDENCE: logs], but the bullet carries the tag of the first
    citation and its text still contains [EVIDENCE: logs]. *)
Lemma parseBulletLine_two_citations :
  let line := "Clean code EVIDENCE: tests EVIDENCE: logs" in
  ContainsCitation line "logs" /\
  parseBulletLine line
  = {| text := "Clean code  EVIDENCE: logs"; evidence := Some "tests" |} /\
  ContainsCitation (text (parseBulletLine line)) "logs".
Proof.
  cbv zeta. repeat split.
  - exists "Clean code EVIDENCE: tests ", "EVIDENCE: logs", "". split; [reflexivity|].
    exists "EVIDENCE:", " ". repeat split. discriminate.
  - exists "Clean code  ", "EVIDENCE: logs", "". split; [reflexivity|].
    exists "EVIDENCE:", " ". repeat split. discriminate.
Qed.












(** A report in the five-section format.  The bullet-prefix pattern of the
    source does not match a leading dash, so the dash stays in the text. *)
Example parseAIReport_sample :
  parseAIReport (Some "[VERDICT]: hire
[CONFIDENCE]: 82
[STRENGTHS]:
- Solid Python EVIDENCE: resume.skills
- Passed 4 of 5 tests
[RISKS]:
- Two tab switches EVIDENCE: integrity.events
[SUMMARY]: Strong candidate.")
  = {| verdict := Some HIRE;
       strengths :=
         [ Obj {| text := "- Solid Python"; evidence := Some "resume.skills" |};
           Obj {| text := "- Passed 4 of 5 tests"; evidence := None |} ];
       risks :=
         [ Obj {| text := "- Two tab switches"; evidence := Some "integrity.events" |} ];
       summary := "Strong candidate." |}.
Proof. reflexivity. Qed.

(** An empty section that is directly followed by another header: the
    greedy [\s*] of [getSection] takes the line feed, so the section starts
    at the next header instead of being empty. *)
Example parseAIReport_empty_section :
  risks (parseAIReport (Some "[RISKS]:
[SUMMARY]: Done."))
  = [ Obj {| text := "[SUMMARY]: Done."; evidence := None |} ].
Proof. reflexivity. Qed.

End Report.

(* ================================================================== *)
(** * Strengths merged with the resume (candidate report page)         *)
(* ================================================================== *)

Module Merge.
Import Js Report.

(** The two locals of [mergeStrengthsWithResume] that the closure [add]
    updates: the array [merged] and the [Set] [normalized] (only [has] and
    [add] are used on the set, so the list of its members is enough). *)
Record MergeState := { merged : list BulletItem; normalized : list string }.

(** The property read [value.text]: [undefined] on a bare string. *)
Definition textOf (value : BulletItem) : option string :=
  match value with
  | Obj b => Some (text b)
  | Bare _ => None
  end.

(** The closure [add].  [None] is the [TypeError] raised by
    [value.text.toLowerCase()] when [value.text] is [undefined]. *)
Definition add (st : MergeState) (value : BulletItem) : option MergeState :=
  match textOf value with
  | None => None
  | Some t =>
      let key := toLowerCase t in
      if existsb (String.eqb key) (normalized st) then Some st
      else Some {| merged := merged st ++ [value];
                   normalized := key :: normalized st |}
  end.

(** [strengths.forEach(add)] *)
Fixpoint forEachAdd (st : MergeState) (values : list BulletItem) : option MergeState :=
  match values with
  | [] => Some st
  | v :: rest =>
      match add st v with
      | Some st' => forEachAdd st' rest
      | None => None
      end
  end.

Definition skillsBullet (resumeSkills : list string) : ParsedBullet :=
  {| text := "Resume skills: " ++ join ", " (firstn 6 resumeSkills) ++ ".";
     evidence := Some "resume.skills" |}.

Definition experienceBullet (resumeExperience : string) : ParsedBullet :=
  let trimmed := trim (collapseWhiteSpace resumeExperience) in
  let snippet : string :=
    if (140 <? String.length trimmed)%nat then sliceTo 140 trimmed ++ "..."
    else trimmed in
  {| text := "Experience highlight: " ++ snippet;
     evidence := Some "resume.experience" |}.

(** The resume-derived values passed to [add] before the parsed strengths. *)
Definition resumeBullets (resumeSkills : list string) (resumeExperience : string)
  : list ParsedBullet :=
  (match resumeSkills with [] => [] | _ => [skillsBullet resumeSkills] end) ++
  (match resumeExperience with
   | EmptyString => []
   | _ => [experienceBullet resumeExperience]
   end).

(** [function mergeStrengthsWithResume(strengths, resumeSkills,
    resumeExperience)]; [None] when a call of [add] throws. *)
Definition mergeStrengthsWithResume
  (strengths : list BulletItem) (resumeSkills : list string)
  (resumeExperience : string) : option (list BulletItem) :=
  match forEachAdd {| merged := []; normalized := [] |}
          (map Obj (resumeBullets resumeSkills resumeExperience) ++ strengths) with
  | Some st => Some (firstn 3 (merged st))
  | None => None
  end.


Definition keyOf (b : ParsedBullet) : string := toLowerCase (text b).

(** What the loop over [add] keeps of a list of bullets when the keys in
    [seen] are already in the set. *)
Fixpoint dedupe (seen : list string) (bs : list ParsedBullet) : list ParsedBullet :=
  match bs with
  | [] => []
  | b :: rest =>
      if existsb (String.eqb (keyOf b)) seen then dedupe seen rest
      else b :: dedupe (keyOf b :: seen) rest
  end.



Lemma forEachAdd_objects (bs : list ParsedBullet) :
  forall st, exists keys,
    forEachAdd st (map Obj bs)
    = Some {| merged := (merged st ++ map Obj (dedupe (normalized st) bs))%list;
              normalized := keys |}.
Proof.
  induction bs as [|b bs IH]; intros st; cbn [map forEachAdd dedupe].
  - exists (normalized st). rewrite app_nil_r. now destruct st.
  - unfold add; cbn [textOf]. fold (keyOf b).
    destruct (existsb (String.eqb (keyOf b)) (normalized st)).
    + apply IH.
    + destruct (IH {| merged := (merged st ++ [Obj b])%list;
                      normalized := keyOf b :: normalized st |}) as (keys & E).
      exists keys. rewrite E. cbn [merged normalized map].
      now rewrite <- app_assoc.
Qed.











(** The strengths of the report for a missing rationale are bare strings;
    reading [value.text.toLowerCase()] on them throws. *)
Lemma mergeStrengthsWithResume_pending (resumeSkills : list string)
  (resumeExperience : string) :
  mergeStrengthsWithResume (strengths pendingReport) resumeSkills resumeExperience
  = None.
Proof.
  unfold mergeStrengthsWithResume.
  destruct (forEachAdd_objects (resumeBullets resumeSkills resumeExperience)
              {| merged := []; normalized := [] |}) as (keys & E).
  cbn [strengths pendingReport].
  assert (G : forall xs st st', forEachAdd st xs = Some st' ->
              forEachAdd st (xs ++ [Bare "Assessment data pending"])%list = None).
  { induction xs as [|x xs IH]; intros st st' H; cbn in *.
    - reflexivity.
    - destruct (add st x); [eauto | discriminate]. }
  now rewrite (G _ _ _ E).
Qed.

Example mergeStrengthsWithResume_sample :
  mergeStrengthsWithResume
    [ Obj {| text := "Passed 4 of 5 tests"; evidence := None |};
      Obj {| text := "RESUME SKILLS: python, sql."; evidence := None |};
      Obj {| text := "Clear communication"; evidence := None |} ]
    ["python"; "sql"] "  6  years
 of backend work "
  = Some
      [ Obj {| text := "Resume skills: python, sql."; evidence := Some "resume.skills" |};
        Obj {| text := "Experience highlight: 6 years of backend work";
               evidence := Some "resume.experience" |};
        Obj {| text := "Passed 4 of 5 tests"; evidence := None |} ].
Proof. reflexivity. Qed.

End Merge.

(* ================================================================== *)
(** * Resume consistency (candidate report page)                       *)
(* ================================================================== *)

Module Consistency.
Import Js Report Api.

Inductive Flag := MISMATCH | ALIGNED.

Definition Qltb (x y : Q) : bool := negb (Qle_bool y x).

Definition highSignalSkills : list string :=
  ["python"; "java"; "javascript"; "sql"; "c++"; "c#"; "fastapi"; "react";
   "node"; "nodejs"].

(** [highSignalSkills.includes(skill)] *)
Definition includes (xs : list string) (x : string) : bool :=
  existsb (String.eqb x) xs.

(** [experienceYears ?? 0] *)
Definition orNullZero (x : option Q) : Q :=
  match x with Some y => y | None => 0 end.

(** [const detectResumeConsistency = (resumeSkills, experienceYears,
    technicalScore, passedSubmissions) => ...] *)
Definition detectResumeConsistency
  (resumeSkills : list string) (experienceYears : option Q)
  (technicalScore : Q) (passedSubmissions : nat) : Flag :=
  if Qle_bool 5 (orNullZero experienceYears) &&
     (Qltb technicalScore 60 || (passedSubmissions =? 0)%nat)
  then MISMATCH
  else
    let normalizedSkills := map toLowerCase resumeSkills in
    if existsb (includes highSignalSkills) normalizedSkills &&
       Qltb technicalScore 50
    then MISMATCH
    else ALIGNED.

(** The fields of [CandidateDetail] read when the flag and the verdict are
    displayed; [resumeSkills] and [resumeExperienceYears] stand for the
    values the page extracts from [resume_parsed_data]. *)
Record CandidateDetail := {
  technical_score : Q;
  hiring_recommendation : option Verdict;
  ai_rationale : option string;
  submissions : list CodeSubmission;
  resumeSkills : list string;
  resumeExperienceYears : option Q
}.

(** [candidate.submissions.filter((s) => (s.tests_total ?? 0) > 0)] *)
Definition codeSubmissions (c : CandidateDetail) : list CodeSubmission :=
  filter (fun s => match tests_total s with Some n => (0 <? n)%Z | None => false end)
    (submissions c).

(** [const resumeConsistency = detectResumeConsistency(...)] of the page. *)
Definition resumeConsistency (c : CandidateDetail) : Flag :=
  detectResumeConsistency (resumeSkills c) (resumeExperienceYears c)
    (technical_score c)
    (List.length (filter is_passed (codeSubmissions c))).

(** [const displayVerdict = candidate?.hiring_recommendation ||
    parsedRationale.verdict] *)
Definition displayVerdict (c : CandidateDetail) : option Verdict :=
  match hiring_recommendation c with
  | Some v => Some v
  | None => verdict (parseAIReport (ai_rationale c))
  end.

(** The two conditions of the source under which the flag is raised. *)
Definition seniorButWeak (years : option Q) (tech : Q) (passedCount : nat) : Prop :=
  (5 <= orNullZero years)%Q /\ ((tech < 60)%Q \/ passedCount = 0%nat).

Definition skilledButVeryLow (skills : list string) (tech : Q) : Prop :=
  (exists skill, In skill skills /\ In (toLowerCase skill) highSignalSkills) /\
  (tech < 50)%Q.

(** The first condition as the specification words it: experience that
    exceeds five years. *)
Definition exceedsButWeak (years : option Q) (tech : Q) (passedCount : nat) : Prop :=
  (5 < orNullZero years)%Q /\ ((tech < 60)%Q \/ passedCount = 0%nat).

Definition withVerdict (c : CandidateDetail) (v : option Verdict) (r : option string)
  : CandidateDetail :=
  {| technical_score := technical_score c;
     hiring_recommendation := v;
     ai_rationale := r;
     submissions := submissions c;
     resumeSkills := resumeSkills c;
     resumeExperienceYears := resumeExperienceYears c |}.

Lemma Qltb_lt (x y : Q) : Qltb x y = true <-> (x < y)%Q.
Proof.
  unfold Qltb. rewrite negb_true_iff.
  split.
  - intros H. apply Qnot_le_lt. intros Hle. apply Qle_bool_iff in Hle. congruence.
  - intros H. destruct (Qle_bool y x) eqn:E; [|reflexivity].
    apply Qle_bool_iff in E. exfalso. exact (Qlt_not_le _ _ H E).
Qed.

Lemma includes_In (xs : list string) (x : string) :
  includes xs x = true <-> In x xs.
Proof.
  unfold includes. rewrite existsb_exists. split.
  - intros (y & Hy & E). apply String.eqb_eq in E. now subst.
  - intros H. exists x. split; [assumption | apply String.eqb_refl].
Qed.

(** C3, as amended.  The flag is MISMATCH exactly when the stated experience
    is at least five years while the technical score is below 60 or no
    submission passed, or when a resume skill is a high-signal skill (up to
    letter case) while the technical score is below 50; otherwise it is
    ALIGNED; and the flag shown on the page is the same whatever the
    recommendation and the rationale of the candidate are. *)
Theorem detectResumeConsistency_spec (skills : list string) (years : option Q)
  (tech : Q) (passedCount : nat) :
  (detectResumeConsistency skills years tech passedCount = MISMATCH <->
   seniorButWeak years tech passedCount \/ skilledButVeryLow skills tech) /\
  (detectResumeConsistency skills years tech passedCount = ALIGNED <->
   ~ (seniorButWeak years tech passedCount \/ skilledButVeryLow skills tech)) /\
  (forall c v r, resumeConsistency (withVerdict c v r) = resumeConsistency c).
Proof.
  assert (H1 : Qle_bool 5 (orNullZero years) &&
               (Qltb tech 60 || (passedCount =? 0)%nat) = true
               <-> seniorButWeak years tech passedCount).
  { unfold seniorButWeak.
    rewrite andb_true_iff, orb_true_iff, Qle_bool_iff, Qltb_lt, Nat.eqb_eq.
    reflexivity. }
  assert (H2 : existsb (includes highSignalSkills) (map toLowerCase skills) &&
               Qltb tech 50 = true
               <-> skilledButVeryLow skills tech).
  { unfold skilledButVeryLow.
    rewrite andb_true_iff, Qltb_lt, existsb_exists.
    split; intros [Hs Ht]; (split; [|exact Ht]).
    - destruct Hs as (k & Hin & Hk). apply in_map_iff in Hin.
      destruct Hin as (skill & <- & Hin). exists skill.
      split; [assumption | now apply includes_In].
    - destruct Hs as (skill & Hin & Hk). exists (toLowerCase skill).
      split; [now apply in_map | now apply includes_In]. }
  assert (M : detectResumeConsistency skills years tech passedCount = MISMATCH <->
              seniorButWeak years tech passedCount \/ skilledButVeryLow skills tech).
  { unfold detectResumeConsistency.
    destruct (Qle_bool 5 (orNullZero years) && _) eqn:E1.
    - split; [intros _; left; now apply H1 | reflexivity].
    - destruct (existsb _ _ && _) eqn:E2.
      + split; [intros _; right; now apply H2 | reflexivity].
      + split; [discriminate|].
        intros [H | H]; [apply H1 in H | apply H2 in H]; congruence. }
  split; [exact M|]. split.
  - rewrite <- M.
    destruct (detectResumeConsistency skills years tech passedCount);
      split; congruence.
  - reflexivity.
Qed.

Lemma detectResumeConsistency_spec_witness :
  detectResumeConsistency ["Python"] None 49 3 = MISMATCH.
Proof.
  apply (proj1 (detectResumeConsistency_spec ["Python"] None 49 3)).
  right. split.
  - exists "Python". split; [now left | cbn; tauto].
  - reflexivity.
Defined.

(** C3 as stated fails at exactly five years of experience: the source
    raises the flag although the experience does not exceed five years and
    no skill is listed. *)
Lemma detectResumeConsistency_five_years :
  detectResumeConsistency [] (Some 5) 0 0 = MISMATCH /\
  ~ (exceedsButWeak (Some 5) 0 0 \/ skilledButVeryLow [] 0).
Proof.
  split; [reflexivity|].
  intros [[H _] | [(skill & [] & _) _]].
  cbn in H. revert H. apply Qlt_irrefl.
Qed.

End Consistency.

(* ================================================================== *)
(** * Per-event integrity rationale (candidate report page)            *)
(* ================================================================== *)

Module Rationale.
Import Js.

(** [const INTEGRITY_RULES: Record<string, string>], an object literal: its
    own properties, in the order of the source. *)
Definition INTEGRITY_RULES : list (string * string) :=
  [ ("TAB_SWITCH", "Tab switch detected. Frequent switches in a short window raise severity.");
    ("COPY_PASTE_DETECTED", "Large paste detected in the editor (possible copy/paste).");
    ("MULTIPLE_FACES", "Multiple faces detected in the camera frame.");
    ("FACE_NOT_DETECTED", "Face not detected for a sustained period.");
    ("SUSPICIOUS_BEHAVIOR", "Unusual motion detected in the camera feed.");
    ("WEBCAM_DISABLED", "Camera disabled during assessment.");
    ("WEB_CAM_DISABLED", "Camera disabled during assessment.") ].

(** The property names an object literal inherits from [Object.prototype]. *)
Definition objectPrototypeKeys : list string :=
  [ "constructor"; "hasOwnProperty"; "isPrototypeOf"; "propertyIsEnumerable";
    "toLocaleString"; "toString"; "valueOf"; "__proto__";
    "__defineGetter__"; "__defineSetter__"; "__lookupGetter__";
    "__lookupSetter__" ].

(** The value of a property read [obj[key]]. *)
Inductive Property :=
| Undefined
| Own (value : string)
| Inherited (name : string).

Fixpoint ownProperty (o : list (string * string)) (key : string) : option string :=
  match o with
  | [] => None
  | (k, v) :: rest => if String.eqb k key then Some v else ownProperty rest key
  end.

Definition getProperty (o : list (string * string)) (key : string) : Property :=
  match ownProperty o key with
  | Some v => Own v
  | None =>
      if existsb (String.eqb key) objectPrototypeKeys then Inherited key
      else Undefined
  end.

(** What [getIntegrityRationale] returns: a string, or the inherited
    function or object that [INTEGRITY_RULES[key]] would read through the
    prototype chain. *)
Inductive Result :=
| Text (s : string)
| Foreign (name : string).

Definition defaultRationale : string :=
  "Integrity event recorded based on proctoring signals.".

(** [const getIntegrityRationale = (eventType, severity) => ...];
    [eventType] may be missing at run time ([(eventType || '')]), and
    [severity] is whatever upper-cased string the log carries. *)
Definition getIntegrityRationale (eventType : option string) (severity : string) : Result :=
  let key := toUpperCase (match eventType with Some e => e | None => EmptyString end) in
  match getProperty INTEGRITY_RULES key with
  | Inherited name => Foreign name
  | p =>
      let base := match p with
                  | Own EmptyString | Undefined | Inherited _ => defaultRationale
                  | Own v => v
                  end in
      if String.eqb key "TAB_SWITCH" && String.eqb severity "HIGH"
      then Text (base ++ " Multiple rapid switches triggered HIGH severity.")
      else if String.eqb key "TAB_SWITCH" &&
              (String.eqb severity "MED" || String.eqb severity "MEDIUM")
      then Text (base ++ " Repeated switching flagged as MED severity.")
      else if String.eqb key "FACE_NOT_DETECTED" && String.eqb severity "HIGH"
      then Text (base ++ " Extended absence escalated to HIGH.")
      else Text base
  end.

Definition hasLowerAscii (s : string) : bool :=
  existsb isLowerAscii (list_ascii_of_string s).

(** The key under which [getIntegrityRationale] looks an event type up. *)
Definition ruleKey (eventType : option string) : string :=
  toUpperCase (match eventType with Some e => e | None => EmptyString end).

Lemma hasLowerAscii_app (s t : string) :
  hasLowerAscii (s ++ t) = hasLowerAscii s || hasLowerAscii t.
Proof.
  unfold hasLowerAscii. induction s as [|c s IH]; cbn; [reflexivity|].
  now rewrite IH, orb_assoc.
Qed.

Lemma upperChar_no_lower (c : ascii) : hasLowerAscii (upperChar c) = false.
Proof. destruct c as [[] [] [] [] [] [] [] []]; reflexivity. Qed.

Lemma toUpperCase_no_lower (s : string) : hasLowerAscii (toUpperCase s) = false.
Proof.
  induction s as [|c s IH]; cbn [toUpperCase]; [reflexivity|].
  now rewrite hasLowerAscii_app, upperChar_no_lower, IH.
Qed.

(** An upper-cased key never names a property of [Object.prototype]. *)
Lemma upper_key_not_inherited (s : string) :
  existsb (String.eqb (toUpperCase s)) objectPrototypeKeys = false.
Proof.
  destruct (existsb _ _) eqn:E; [|reflexivity].
  apply existsb_exists in E. destruct E as (k & Hin & Hk).
  apply String.eqb_eq in Hk.
  pose proof (toUpperCase_no_lower s) as L. rewrite Hk in L.
  cbn in Hin.
  repeat (destruct Hin as [<- | Hin]; [discriminate L|]).
  contradiction.
Qed.

Lemma getIntegrityRationale_text (eventType : option string) (severity : string) :
  exists s, getIntegrityRationale eventType severity = Text s.
Proof.
  unfold getIntegrityRationale, getProperty.
  rewrite upper_key_not_inherited.
  destruct (ownProperty _ _) as [v|];
    repeat match goal with |- context [if ?b then _ else _] => destruct b end;
    eexists; reflexivity.
Qed.

(** C8.  The rationale is a function of the event type and the severity
    alone: equal arguments give equal strings, and an event type that is
    not a key of the rule table gives the fixed default string, whatever
    the severity. *)
Theorem getIntegrityRationale_deterministic (eventType : option string) (severity : string) :
  (forall eventType' severity',
     eventType' = eventType -> severity' = severity ->
     getIntegrityRationale eventType' severity' = getIntegrityRationale eventType severity) /\
  (ownProperty INTEGRITY_RULES (ruleKey eventType) = None ->
   getIntegrityRationale eventType severity = Text defaultRationale).
Proof.
  split.
  - intros e' s' -> ->. reflexivity.
  - intros Hnone. unfold getIntegrityRationale, getProperty.
    fold (ruleKey eventType). rewrite Hnone.
    unfold ruleKey. rewrite upper_key_not_inherited. fold (ruleKey eventType).
    destruct (String.eqb (ruleKey eventType) "TAB_SWITCH") eqn:E1.
    { apply String.eqb_eq in E1. rewrite E1 in Hnone. discriminate Hnone. }
    destruct (String.eqb (ruleKey eventType) "FACE_NOT_DETECTED") eqn:E2.
    { apply String.eqb_eq in E2. rewrite E2 in Hnone. discriminate Hnone. }
    reflexivity.
Qed.

Lemma getIntegrityRationale_deterministic_witness :
  getIntegrityRationale (Some "window_blur") "HIGH" = Text defaultRationale.
Proof.
  apply (proj2 (getIntegrityRationale_deterministic (Some "window_blur") "HIGH")).
  reflexivity.
Defined.

End Rationale.

(* ================================================================== *)
(** * Test harness and integrity score (back end)                      *)
(* ================================================================== *)

Module Harness.

(** [status: 'passed' | 'failed' | 'error'] of [TestResult]. *)
Inductive Status := passed | failed | error.

(** [interface TestResult], with the time the executor measured. *)
Record TestResult := {
  test : nat;
  status : Status;
  elapsed_ms : Z
}.

(** [interface CodeSubmitResponse], the fields of the execution report. *)
Record ExecutionReport := {
  tests_passed : Z;
  tests_total : Z;
  execution_time_ms : Z;
  results : list TestResult;
  is_passed : bool;
  mock_mode : bool
}.

Definition isPassed (r : TestResult) : bool :=
  match status r with passed => true | _ => false end.

Section RunTestSuite.

(** The Sandbox Executor, which is outside the sources: one run per test
    case, giving a status and the elapsed time. *)
Variable TestCase : Type.
Variable execute : TestCase -> Status * Z.

(** Modelled from the spec: the results of a submission that compiles, in
    test-case order, numbered from [index] (section 4.2). *)
Fixpoint runCases (index : nat) (cases : list TestCase) : list TestResult :=
  match cases with
  | [] => []
  | c :: rest =>
      let (s, ms) := execute c in
      {| test := index; status := s; elapsed_ms := ms |} :: runCases (S index) rest
  end.

(** Modelled from the spec: a submission that does not compile; every test
    case is an error and nothing is executed (section 4.2). *)
Fixpoint allErrors (index : nat) (cases : list TestCase) : list TestResult :=
  match cases with
  | [] => []
  | _ :: rest =>
      {| test := index; status := error; elapsed_ms := 0 |} :: allErrors (S index) rest
  end.

(** Modelled from the spec: one pass over the results; passed count, total
    count, maximum single-test time, and whether every result so far passed
    (sections 3 and 4.2). *)
Definition tally (acc : Z * Z * Z * bool) (r : TestResult) : Z * Z * Z * bool :=
  let '(p, n, ms, all) := acc in
  ((if isPassed r then p + 1 else p)%Z, (n + 1)%Z, Z.max ms (elapsed_ms r),
   all && isPassed r).

(** Modelled from the spec: [RunTestSuite(submission, testCases) ->
    ExecutionReport] belongs to the back end, whose sources are not part of
    the front-end files; sections 3 and 4.2 of the specification describe it:
    one executor run per test case, results in test-case order, a
    short-circuit for a submission that does not compile, the maximum
    single-test time, the counts, the overall pass flag "all passed" of a
    suite that ran at least one test, and the operating-mode flag. *)
Definition RunTestSuite (mock compiles : bool) (cases : list TestCase) : ExecutionReport :=
  let rs := if compiles then runCases 1 cases else allErrors 1 cases in
  let '(p, n, ms, all) := fold_left tally rs (0%Z, 0%Z, 0%Z, true) in
  {| tests_passed := p;
     tests_total := n;
     execution_time_ms := ms;
     results := rs;
     is_passed := all && negb (n =? 0)%Z;
     mock_mode := mock |}.

End RunTestSuite.

(** The report the assessment page builds itself when the submission
    request fails ([errorResult] of [handleRunTests]). *)
Definition errorResult : ExecutionReport :=
  {| tests_passed := 0;
     tests_total := 0;
     execution_time_ms := 0;
     results := [];
     is_passed := false;
     mock_mode := false |}.

(** The invariant of an execution report. *)
Definition wellFormed (r : ExecutionReport) : Prop :=
  (0 <= tests_passed r <= tests_total r)%Z /\
  (is_passed r = true <->
   tests_passed r = tests_total r /\ (tests_total r > 0)%Z).

Local Open Scope Z_scope.

Lemma tally_invariant (rs : list TestResult) :
  forall p n ms all,
    0 <= p <= n -> (all = true <-> p = n) ->
    let '(p', n', ms', all') := fold_left tally rs (p, n, ms, all) in
    0 <= p' <= n' /\ (all' = true <-> p' = n') /\ n' = n + Z.of_nat (List.length rs).
Proof.
  induction rs as [|r rs IH]; intros p n ms all Hpn Hall; cbn [fold_left List.length].
  - repeat split; try lia; apply Hall.
  - unfold tally at 2.
    specialize (IH (if isPassed r then p + 1 else p) (n + 1) (Z.max ms (elapsed_ms r))
                   (all && isPassed r)%bool).
    destruct (fold_left tally rs _) as [[[p' n'] ms'] all'].
    destruct IH as (H1 & H2 & H3).
    + destruct (isPassed r); lia.
    + destruct (isPassed r); rewrite ?andb_true_r, ?andb_false_r.
      * rewrite Hall. lia.
      * split; [discriminate | lia].
    + repeat split; try lia; apply H2.
Qed.

(** C1.  Every execution report produced by running a test suite satisfies
    [0 <= tests_passed <= tests_total], and [is_passed] holds exactly when
    all tests passed and there is at least one test. *)
Theorem RunTestSuite_wellFormed (TestCase : Type) (execute : TestCase -> Status * Z)
  (mock compiles : bool) (cases : list TestCase) :
  wellFormed (RunTestSuite TestCase execute mock compiles cases).
Proof.
  unfold wellFormed, RunTestSuite.
  set (rs := if compiles then _ else _).
  pose proof (tally_invariant rs 0 0 0 true) as H.
  destruct (fold_left tally rs _) as [[[p n] ms] all]; cbn.
  destruct H as (H1 & H2 & H3); [lia | tauto |].
  split; [exact H1|].
  rewrite andb_true_iff, negb_true_iff, Z.eqb_neq, H2. lia.
Qed.

Lemma errorResult_wellFormed : wellFormed errorResult.
Proof. unfold wellFormed; cbn. split; [lia|]. split; [discriminate | lia]. Qed.

End Harness.

Module Integrity.
Import Api.

(** [IntegrityEvent]: type, severity, timestamp. *)
Record IntegrityEvent := {
  event_type : string;
  severity : Severity;
  timestamp : Z
}.

Definition weight (s : Severity) : Z :=
  match s with LOW => 2 | MEDIUM => 5 | HIGH => 10 end.

Definition isHigh (e : IntegrityEvent) : bool :=
  match severity e with HIGH => true | _ => false end.

(** Modelled from the spec: [ComputeIntegrityScore(events) -> (score,
    highSeverityCount)] belongs to the back end, whose sources are not part
    of the front-end files.  Section 4.3 of the specification calls it a
    pure fold over the event log, and the manuals shipped with the sources
    give the steps: the score starts at 100, each event lowers it by the
    weight of its severity, and the minimum score is 0. *)
Definition ComputeIntegrityScore (events : list IntegrityEvent) : Z * nat :=
  (Z.max 0 (fold_left (fun score e => score - weight (severity e)) events 100)%Z,
   List.length (filter isHigh events)).

(** The sum of the weights of the events of a log. *)
Fixpoint totalWeight (events : list IntegrityEvent) : Z :=
  match events with
  | [] => 0
  | e :: rest => weight (severity e) + totalWeight rest
  end.

Definition event (s : Severity) : IntegrityEvent :=
  {| event_type := "EVENT"; severity := s; timestamp := 0 |}.

Local Open Scope Z_scope.

Lemma fold_score (events : list IntegrityEvent) :
  forall start,
    fold_left (fun score e => score - weight (severity e)) events start
    = start - totalWeight events.
Proof.
  induction events as [|e events IH]; intros start; cbn [fold_left totalWeight].
  - lia.
  - rewrite IH. lia.
Qed.

Lemma weight_pos s : 0 < weight s.
Proof. destruct s; reflexivity. Qed.

Lemma totalWeight_nonneg events : 0 <= totalWeight events.
Proof.
  induction events as [|e events IH]; cbn [totalWeight]; [lia|].
  pose proof (weight_pos (severity e)). lia.
Qed.

(** C2.  The integrity score of an event log is [max 0 (100 - sum of the
    weights)] with the weights LOW = 2, MEDIUM = 5, HIGH = 10; the log
    [LOW; LOW; HIGH] scores 86. *)
Theorem ComputeIntegrityScore_formula :
  (forall events,
     fst (ComputeIntegrityScore events) = Z.max 0 (100 - totalWeight events)) /\
  fst (ComputeIntegrityScore (map event [LOW; LOW; HIGH])) = 86.
Proof.
  split.
  - intros events. unfold ComputeIntegrityScore; cbn [fst]. now rewrite fold_score.
  - reflexivity.
Qed.

End Integrity.

(* ================================================================== *)
(** * Binary64 rounding                                                *)
(* ================================================================== *)

(** JavaScript numbers are IEEE 754 binary64 values.  A finite value is
    represented by the rational it denotes; [fl] rounds a rational to the
    nearest value with a 53-bit significand, ties to even.  The exponent
    range is not modelled: the quotients and products formed from character
    counts stay far inside the normal range. *)
Module Binary64.

Local Open Scope Z_scope.

(** The integer nearest to [n / d] for [0 <= n] and [0 < d], ties to even. *)
Definition roundHalfEven (n d : Z) : Z :=
  let q := n / d in
  let r := n mod d in
  match 2 * r ?= d with
  | Lt => q
  | Gt => q + 1
  | Eq => if Z.even q then q else q + 1
  end.

(** Numerator and denominator of [(n / d) / 2^e]. *)
Definition scaleNum (n e : Z) : Z := if e <? 0 then n * 2 ^ (- e) else n.
Definition scaleDen (d e : Z) : Z := if e <? 0 then d else d * 2 ^ e.

(** The exponent [e] of the unit in the last place of [n / d], for
    positive [n] and [d]: [2^52 <= (n / d) / 2^e < 2^53]. *)
Definition ulpExponent (n d : Z) : Z :=
  let e0 := Z.log2 n - Z.log2 d - 52 in
  if scaleNum n e0 <? 2 ^ 52 * scaleDen d e0 then e0 - 1 else e0.

(** [m * 2^e] as a rational. *)
Definition ldexp (m e : Z) : Q :=
  if e <? 0 then Qmake m (Z.to_pos (2 ^ (- e))) else inject_Z (m * 2 ^ e).

(** Rounding of the positive rational [n / d]. *)
Definition flPos (n d : Z) : Q :=
  let e := ulpExponent n d in
  ldexp (roundHalfEven (scaleNum n e) (scaleDen d e)) e.

(** Round to nearest, ties to even, 53 bits of precision. *)
Definition fl (x : Q) : Q :=
  match Qnum x with
  | Z0 => 0%Q
  | Zpos n => flPos (Zpos n) (Zpos (Qden x))
  | Zneg n => Qopp (flPos (Zpos n) (Zpos (Qden x)))
  end.

(** The operators [/] and [*] on finite numbers with a non-zero divisor. *)
Definition div (x y : Q) : Q := fl (x / y)%Q.
Definition mul (x y : Q) : Q := fl (x * y)%Q.

(** [Math.round]: the nearest integer, ties towards plus infinity. *)
Definition round (x : Q) : Z := Qfloor (x + (1 # 2))%Q.

(** The value of a finite [spec_float] of the standard library. *)
Definition SF2Q (f : spec_float) : option Q :=
  match f with
  | S754_zero _ => Some 0%Q
  | S754_finite s m e => Some (ldexp (if s then Zneg m else Zpos m) e)
  | _ => None
  end.

(** An integer as a binary64 value of the standard library. *)
Definition Z2SF (z : Z) : spec_float := binary_normalize 53 1024 z 0 false.

(** [t / n] and [(t / n) * 100] computed with [fl] and with the standard
    library's [SFdiv] and [SFmul] denote the same rationals. *)
Definition agreesWithSpecFloat (t n : Z) : bool :=
  match SF2Q (SFdiv 53 1024 (Z2SF t) (Z2SF n)),
        SF2Q (SFmul 53 1024 (SFdiv 53 1024 (Z2SF t) (Z2SF n)) (Z2SF 100)) with
  | Some a, Some b =>
      Qeq_bool a (div (inject_Z t) (inject_Z n)) &&
      Qeq_bool b (mul (div (inject_Z t) (inject_Z n)) 100)
  | _, _ => false
  end.

Definition range (a b : Z) : list Z :=
  map (fun k => a + Z.of_nat k) (seq 0 (Z.to_nat (b - a))).

(** The unit roundoff of binary64. *)
Definition u : Q := (1 # 9007199254740992)%Q.

Local Open Scope Z_scope.

Lemma roundHalfEven_near (n d : Z) :
  0 < d -> - d <= 2 * (roundHalfEven n d * d - n) <= d.
Proof.
  intros Hd. unfold roundHalfEven.
  pose proof (Z.div_mod n d ltac:(lia)) as E.
  pose proof (Z.mod_pos_bound n d Hd) as B.
  set (q := n / d) in *. set (r := n mod d) in *. clearbody q r.
  assert (E1 : q * d - n = - r) by (rewrite E; ring).
  assert (E2 : (q + 1) * d - n = d - r) by (rewrite E; ring).
  destruct (Z.compare_spec (2 * r) d) as [C | C | C].
  - destruct (Z.even q); rewrite ?E1, ?E2; lia.
  - rewrite E1. lia.
  - rewrite E2. lia.
Qed.

Lemma scaleDen_pos (d e : Z) : 0 < d -> 0 < scaleDen d e.
Proof.
  intros Hd. unfold scaleDen. destruct (e <? 0) eqn:E; [assumption|].
  apply Z.ltb_ge in E. pose proof (Z.pow_pos_nonneg 2 e ltac:(lia) E). nia.
Qed.

(** The significand is at least [2^52]. *)
Lemma ulpExponent_lower (n d : Z) :
  0 < n -> 0 < d ->
  2 ^ 52 * scaleDen d (ulpExponent n d) <= scaleNum n (ulpExponent n d).
Proof.
  intros Hn Hd. unfold ulpExponent.
  set (e0 := Z.log2 n - Z.log2 d - 52).
  destruct (scaleNum n e0 <? 2 ^ 52 * scaleDen d e0) eqn:T.
  2:{ now apply Z.ltb_ge in T. }
  clear T.
  pose proof (Z.log2_spec n Hn) as [Ln _].
  pose proof (Z.log2_spec d Hd) as [_ Ld].
  pose proof (Z.log2_nonneg n) as Ln0.
  pose proof (Z.log2_nonneg d) as Ld0.
  unfold scaleNum, scaleDen.
  destruct (e0 - 1 <? 0) eqn:S.
  - apply Z.ltb_lt in S.
    assert (P : 2 ^ (- (e0 - 1)) * 2 ^ Z.log2 n = 2 ^ Z.succ (Z.log2 d) * 2 ^ 52).
    { rewrite <- !Z.pow_add_r by lia. f_equal. unfold e0. lia. }
    assert (0 < 2 ^ (- (e0 - 1))) by (apply Z.pow_pos_nonneg; lia).
    nia.
  - apply Z.ltb_ge in S.
    assert (P : 2 ^ Z.log2 n = 2 ^ (e0 - 1) * 2 ^ Z.succ (Z.log2 d) * 2 ^ 52).
    { rewrite <- !Z.pow_add_r by lia. f_equal. unfold e0. lia. }
    assert (0 < 2 ^ (e0 - 1)) by (apply Z.pow_pos_nonneg; lia).
    nia.
Qed.

(** The quotient and the product of the chart agree with the operations
    [SFdiv] and [SFmul] of the standard library's specification of binary64
    on every pair of counts [0 <= t <= n <= 40], and at the quotient 29/200. *)
Lemma fl_agrees_with_SpecFloat :
  (forallb (fun n => forallb (fun t => agreesWithSpecFloat t n) (range 0 (n + 1)))
     (range 1 41) = true) /\
  (SF2Q (SFmul 53 1024 (SFdiv 53 1024 (Z2SF 29) (Z2SF 200)) (Z2SF 100))
   = Some (Qmake 8162774324609023 562949953421312)) /\
  (mul (div 29 200) 100 = Qmake 8162774324609023 562949953421312).
Proof. repeat split; vm_compute; reflexivity. Qed.

Local Open Scope Q_scope.

Lemma flPos_bounds (n d : positive) :
  (1 - u) * (Zpos n # d) <= flPos (Zpos n) (Zpos d) <= (1 + u) * (Zpos n # d).
Proof.
  unfold flPos.
  pose proof (ulpExponent_lower (Zpos n) (Zpos d) eq_refl eq_refl) as L.
  set (e := ulpExponent (Zpos n) (Zpos d)) in *.
  pose proof (scaleDen_pos (Zpos d) e eq_refl) as Dpos.
  pose proof (roundHalfEven_near (scaleNum (Zpos n) e) (scaleDen (Zpos d) e) Dpos) as R.
  set (m := roundHalfEven _ _) in *.
  unfold scaleNum, scaleDen, ldexp in *.
  change (2 ^ 52)%Z with 4503599627370496%Z in L.
  destruct (e <? 0)%Z eqn:S.
  - apply Z.ltb_lt in S.
    assert (K : (0 < 2 ^ (- e))%Z) by (apply Z.pow_pos_nonneg; lia).
    set (k := (2 ^ (- e))%Z) in *.
    unfold Qle, Qmult, Qminus, Qplus, Qopp, u; cbn [Qnum Qden].
    rewrite !Pos2Z.inj_mul, Z2Pos.id by assumption.
    split; nia.
  - apply Z.ltb_ge in S.
    assert (K : (0 < 2 ^ e)%Z) by (apply Z.pow_pos_nonneg; lia).
    set (k := (2 ^ e)%Z) in *.
    unfold Qle, Qmult, Qminus, Qplus, Qopp, u, inject_Z; cbn [Qnum Qden].
    rewrite ?Pos2Z.inj_mul.
    split; nia.
Qed.

Lemma fl_bounds (x : Q) :
  0 <= x -> (1 - u) * x <= fl x <= (1 + u) * x.
Proof.
  intros Hx. destruct x as [xn xd]. unfold fl; cbn [Qnum Qden].
  destruct xn as [|n|n].
  - unfold Qle, u; cbn. lia.
  - apply flPos_bounds.
  - exfalso. unfold Qle in Hx; cbn in Hx. lia.
Qed.

Lemma Qfloor_interval (z : Q) (k : Z) :
  inject_Z k <= z -> z < inject_Z (k + 1) -> Qfloor z = k.
Proof.
  intros Hlo Hhi.
  pose proof (Qfloor_resp_le _ _ Hlo) as L. rewrite Qfloor_Z in L.
  pose proof (Qfloor_le z) as F.
  assert (H : inject_Z (Qfloor z) < inject_Z (k + 1)) by (eapply Qle_lt_trans; eassumption).
  rewrite <- Zlt_Qlt in H. lia.
Qed.

Lemma round_exact (k : Z) (T N x q p : Q) :
  0 < N -> 0 <= T -> x * N == T ->
  (1 - u) * x <= q <= (1 + u) * x ->
  (1 - u) * (q * 100) <= p <= (1 + u) * (q * 100) ->
  (2 * inject_Z k - 1) * N + 1 <= 200 * T ->
  200 * T + 1 <= (2 * inject_Z k + 1) * N ->
  T <= 8796093022208 ->
  inject_Z k <= p + (1 # 2) /\ p + (1 # 2) < inject_Z (k + 1).
Proof.
  intros HN HT Hx [Hq1 Hq2] [Hp1 Hp2] Hlo Hhi Hb.
  rewrite inject_Z_plus. change (inject_Z 1) with 1.
  set (K := inject_Z k) in *. clearbody K.
  unfold u in *.
  assert (X0 : 0 <= x).
  { apply (Qmult_le_r _ _ N HN). rewrite Hx. lra. }
  split.
  - apply (Qmult_le_r _ _ N HN).
    assert (E : (p + (1 # 2)) * N == p * N + (1 # 2) * N) by ring.
    rewrite E.
    assert (L : (1 - (2 # 9007199254740992)) * (100 * T) <= p * N).
    { setoid_replace (100 * T) with (100 * x * N) by (rewrite <- Hx; ring).
      setoid_replace ((1 - (2 # 9007199254740992)) * (100 * x * N))
        with (((1 - (2 # 9007199254740992)) * (100 * x)) * N) by ring.
      apply Qmult_le_compat_r; lra. }
    lra.
  - apply (Qmult_lt_r _ _ N HN).
    assert (E : (p + (1 # 2)) * N == p * N + (1 # 2) * N) by ring.
    rewrite E.
    assert (L : p * N <= (1 + (3 # 9007199254740992)) * (100 * T)).
    { setoid_replace (100 * T) with (100 * x * N) by (rewrite <- Hx; ring).
      setoid_replace ((1 + (3 # 9007199254740992)) * (100 * x * N))
        with (((1 + (3 # 9007199254740992)) * (100 * x)) * N) by ring.
      apply Qmult_le_compat_r; lra. }
    lra.
Qed.

End Binary64.

(* ================================================================== *)
(** * Originality (candidate report page)                              *)
(* ================================================================== *)

Module Originality.
Import Api Binary64.

Local Open Scope Z_scope.

(** [x || 0] on a number. *)
Definition orZero (x : Z) : Z := if x =? 0 then 0 else x.

(** The callback of [candidate.submissions.reduce<CharBreakdown>(...)]. *)
Definition accumulate (acc : CharBreakdown) (submission : CodeSubmission) : CharBreakdown :=
  let breakdown :=
    match char_breakdown submission with
    | Some b => b
    | None => {| typed := 0; pasted := 0 |}
    end in
  {| typed := typed acc + orZero (typed breakdown);
     pasted := pasted acc + orZero (pasted breakdown) |}.

(** [const originalityBreakdown = candidate.submissions.reduce(...,
    { typed: 0, pasted: 0 })] *)
Definition originalityBreakdown (submissions : list CodeSubmission) : CharBreakdown :=
  fold_left accumulate submissions {| typed := 0; pasted := 0 |}.

(** [const total = charBreakdown.typed + charBreakdown.pasted] *)
Definition total (charBreakdown : CharBreakdown) : Z :=
  typed charBreakdown + pasted charBreakdown.

(** [const typedPercent = total > 0 ? Math.round((charBreakdown.typed /
    total) * 100) : 0] of [OriginalityChart]. *)
Definition typedPercent (charBreakdown : CharBreakdown) : Z :=
  if 0 <? total charBreakdown
  then Binary64.round
         (Binary64.mul
            (Binary64.div (inject_Z (typed charBreakdown))
                          (inject_Z (total charBreakdown)))
            100)
  else 0.

(** [const pastedPercent = total > 0 ? 100 - typedPercent : 0] *)
Definition pastedPercent (charBreakdown : CharBreakdown) : Z :=
  if 0 <? total charBreakdown then 100 - typedPercent charBreakdown else 0.

(** The typed (pasted) characters a submission contributes. *)
Definition typedOf (s : CodeSubmission) : Z :=
  match char_breakdown s with Some b => typed b | None => 0 end.

Definition pastedOf (s : CodeSubmission) : Z :=
  match char_breakdown s with Some b => pasted b | None => 0 end.

Fixpoint sumOf (f : CodeSubmission -> Z) (l : list CodeSubmission) : Z :=
  match l with
  | [] => 0
  | s :: rest => f s + sumOf f rest
  end.

(** The nearest integer to the exact quotient [100 * t / n], ties towards
    plus infinity (ties to even), for [0 < n]. *)
Definition exactPercentHalfUp (t n : Z) : Z := (200 * t + n) / (2 * n).
Definition exactPercentHalfEven (t n : Z) : Z := Binary64.roundHalfEven (100 * t) n.

(** A passed submission with the given counts. *)
Definition submissionWith (t p : Z) : CodeSubmission :=
  {| is_passed := true; tests_total := Some 5;
     char_breakdown := Some {| typed := t; pasted := p |} |}.

Definition sampleSubmissions : list CodeSubmission :=
  [ submissionWith 120 30;
    {| is_passed := false; tests_total := None; char_breakdown := None |};
    submissionWith 80 70 ].

Local Open Scope Z_scope.

Lemma percent_exact (t n : Z) :
  0 <= t -> 0 < n -> t < 2 ^ 43 -> (200 * t + n) mod (2 * n) <> 0 ->
  round (mul (div (inject_Z t) (inject_Z n)) 100) = exactPercentHalfUp t n.
Proof.
  intros Ht Hn Hb Htie. unfold exactPercentHalfUp, round, mul, div.
  set (k := (200 * t + n) / (2 * n)).
  pose proof (Z.div_mod (200 * t + n) (2 * n) ltac:(lia)) as D.
  pose proof (Z.mod_pos_bound (200 * t + n) (2 * n) ltac:(lia)) as B.
  fold k in D.
  assert (Zlo : (2 * k - 1) * n + 1 <= 200 * t) by nia.
  assert (Zhi : 200 * t + 1 <= (2 * k + 1) * n) by nia.
  clear D B Htie. clearbody k.
  set (x := (inject_Z t / inject_Z n)%Q).
  assert (HN : (inject_Z 0 < inject_Z n)%Q) by (rewrite <- Zlt_Qlt; exact Hn).
  change (0 < inject_Z n)%Q in HN.
  assert (HT : (inject_Z 0 <= inject_Z t)%Q) by (rewrite <- Zle_Qle; exact Ht).
  change (0 <= inject_Z t)%Q in HT.
  assert (Hx : (x * inject_Z n == inject_Z t)%Q).
  { unfold x. field. intros E. rewrite E in HN. revert HN. apply Qlt_irrefl. }
  assert (X0 : (0 <= x)%Q).
  { apply (Qmult_le_r _ _ (inject_Z n) HN). rewrite Hx. lra. }
  pose proof (fl_bounds x X0) as Hq.
  assert (Q0 : (0 <= fl x * 100)%Q) by (unfold u in Hq; lra).
  pose proof (fl_bounds (fl x * 100)%Q Q0) as Hp.
  assert (Qlo : ((2 * inject_Z k - 1) * inject_Z n + 1 <= 200 * inject_Z t)%Q).
  { rewrite Zle_Qle in Zlo. unfold Z.sub in Zlo.
    repeat (rewrite ?inject_Z_plus, ?inject_Z_mult, ?inject_Z_opp in Zlo).
    unfold inject_Z in *. lra. }
  assert (Qhi : (200 * inject_Z t + 1 <= (2 * inject_Z k + 1) * inject_Z n)%Q).
  { rewrite Zle_Qle in Zhi.
    repeat (rewrite ?inject_Z_plus, ?inject_Z_mult in Zhi).
    unfold inject_Z in *. lra. }
  assert (Qb : (inject_Z t <= 8796093022208)%Q).
  { change (2 ^ 43) with 8796093022208 in Hb.
    unfold Qle, inject_Z; cbn [Qnum Qden]. lia. }
  apply Qfloor_interval;
    apply (round_exact k (inject_Z t) (inject_Z n) x (fl x) (fl (fl x * 100))
             HN HT Hx Hq Hp Qlo Qhi Qb).
Qed.

Lemma fold_accumulate (l : list CodeSubmission) :
  forall acc,
    fold_left accumulate l acc
    = {| typed := typed acc + sumOf typedOf l; pasted := pasted acc + sumOf pastedOf l |}.
Proof.
  induction l as [|s l IH]; intros acc; cbn [fold_left sumOf].
  - destruct acc; cbn. f_equal; lia.
  - rewrite IH. unfold accumulate, typedOf, pastedOf, orZero.
    destruct (char_breakdown s) as [b|]; cbn [typed pasted].
    + destruct (Z.eqb_spec (typed b) 0) as [-> | _];
        destruct (Z.eqb_spec (pasted b) 0) as [-> | _]; f_equal; lia.
    + cbn. f_equal; lia.
Qed.

(** C7, as amended.  The originality breakdown is the field-wise sum of
    the typed and pasted counts of the submissions, a submission without a
    breakdown counting for zero; when the total is positive the pasted
    percentage is 100 minus the typed percentage; and the typed percentage
    the chart computes in binary64 is the integer nearest to
    [100 * typed / total] whenever that quotient is not exactly halfway
    between two integers (for a typed count below [2^43] and a total below
    [2^53]). *)
Theorem originality_percentages (submissions : list CodeSubmission) :
  let b := originalityBreakdown submissions in
  typed b = sumOf typedOf submissions /\
  pasted b = sumOf pastedOf submissions /\
  (0 < total b -> pastedPercent b = 100 - typedPercent b) /\
  (0 <= typed b -> 0 < total b -> typed b < 2 ^ 43 -> total b < 2 ^ 53 ->
   (200 * typed b + total b) mod (2 * total b) <> 0 ->
   typedPercent b = exactPercentHalfUp (typed b) (total b)).
Proof.
  cbv zeta. unfold originalityBreakdown. rewrite fold_accumulate. cbn [typed pasted].
  repeat split.
  - intros H. unfold pastedPercent. apply Z.ltb_lt in H. now rewrite H.
  - intros Ht Hn Hb _ Htie. unfold typedPercent.
    pose proof Hn as Hn'. apply Z.ltb_lt in Hn'. rewrite Hn'.
    now apply percent_exact.
Qed.

Lemma originality_percentages_witness :
  typedPercent (originalityBreakdown sampleSubmissions) = 67 /\
  pastedPercent (originalityBreakdown sampleSubmissions) = 100 - 67.
Proof.
  pose proof (originality_percentages sampleSubmissions) as (_ & _ & Hp & Ht).
  assert (E : typedPercent (originalityBreakdown sampleSubmissions) = 67).
  { apply Ht; vm_compute; congruence. }
  split; [exact E|].
  rewrite <- E. apply Hp. reflexivity.
Defined.

(** C7 as stated fails where [100 * typed / total] is halfway between two
    integers: with 29 typed and 171 pasted characters the quotient is 14.5,
    the binary64 product is just below it and the chart shows 14, not 15;
    with 5 typed and 195 pasted characters the quotient is 2.5 and the chart
    shows 3, so rounding ties to even does not describe it either. *)
Lemma typedPercent_tie :
  typedPercent
    (originalityBreakdown [submissionWith 29 171])
  = 14 /\
  exactPercentHalfUp 29 (29 + 171) = 15 /\
  typedPercent
    (originalityBreakdown [submissionWith 5 195])
  = 3 /\
  exactPercentHalfEven 5 (5 + 195) = 2.
Proof. repeat split; vm_compute; reflexivity. Qed.

End Originality.

(* ================================================================== *)
(** * The telemetry producer (assessment page)                         *)
(* ================================================================== *)

Module Telemetry.
Import Api.

Local Open Scope Z_scope.

(** A request handed to [telemetryApi.log], with the reading of
    [Date.now()] of the handler that made it. *)
Record LogEntry := {
  event_type : string;
  severity : Severity;
  at_ms : Z
}.

(** [lastTelemetryRef.current] *)
Record LastTelemetry := {
  noFace : Z;
  multiFace : Z;
  cameraOff : Z;
  paste : Z;
  motion : Z;
  tabSwitch : Z
}.

Definition NO_FACE_THRESHOLD : Z := 2.
Definition MULTI_FACE_THRESHOLD : Z := 1.
Definition MOTION_THRESHOLD : Z := 1.

Section Producer.

(** The face box of a detection and a video frame, with the two tests the
    page computes on them in floating point: a large shift of the face box
    ([dxRatio > 0.35 || dyRatio > 0.35 || scaleDelta > 0.35]) and a large
    difference between two frames ([avgDiff > 18]). *)
Variable Metrics : Type.
Variable Frame : Type.
Variable largeShift : Metrics -> Metrics -> bool.
Variable largeDiff : Frame -> Frame -> bool.

(** The refs of the component, the character counts, and the requests sent
    so far (oldest first). *)
Record State := {
  lastTelemetryRef : LastTelemetry;
  tabSwitchTimesRef : list Z;
  noFaceStreakRef : Z;
  multiFaceStreakRef : Z;
  motionStreakRef : Z;
  lastFaceMetricsRef : option Metrics;
  lastFrameDataRef : option Frame;
  isPastingRef : bool;
  pasteDetectionUntilRef : Z;
  typedChars : Z;
  pastedChars : Z;
  tabSwitchCount : Z;
  log : list LogEntry
}.

Definition initialState : State :=
  {| lastTelemetryRef :=
       {| noFace := 0; multiFace := 0; cameraOff := 0; paste := 0; motion := 0;
          tabSwitch := 0 |};
     tabSwitchTimesRef := [];
     noFaceStreakRef := 0;
     multiFaceStreakRef := 0;
     motionStreakRef := 0;
     lastFaceMetricsRef := None;
     lastFrameDataRef := None;
     isPastingRef := false;
     pasteDetectionUntilRef := 0;
     typedChars := 0;
     pastedChars := 0;
     tabSwitchCount := 0;
     log := [] |}.

Definition setLog (st : State) (l : list LogEntry) : State :=
  {| lastTelemetryRef := lastTelemetryRef st;
     tabSwitchTimesRef := tabSwitchTimesRef st;
     noFaceStreakRef := noFaceStreakRef st;
     multiFaceStreakRef := multiFaceStreakRef st;
     motionStreakRef := motionStreakRef st;
     lastFaceMetricsRef := lastFaceMetricsRef st;
     lastFrameDataRef := lastFrameDataRef st;
     isPastingRef := isPastingRef st;
     pasteDetectionUntilRef := pasteDetectionUntilRef st;
     typedChars := typedChars st;
     pastedChars := pastedChars st;
     tabSwitchCount := tabSwitchCount st;
     log := l |}.

Definition setLast (st : State) (t : LastTelemetry) : State :=
  {| lastTelemetryRef := t;
     tabSwitchTimesRef := tabSwitchTimesRef st;
     noFaceStreakRef := noFaceStreakRef st;
     multiFaceStreakRef := multiFaceStreakRef st;
     motionStreakRef := motionStreakRef st;
     lastFaceMetricsRef := lastFaceMetricsRef st;
     lastFrameDataRef := lastFrameDataRef st;
     isPastingRef := isPastingRef st;
     pasteDetectionUntilRef := pasteDetectionUntilRef st;
     typedChars := typedChars st;
     pastedChars := pastedChars st;
     tabSwitchCount := tabSwitchCount st;
     log := log st |}.

Definition setStreaks (st : State) (nf mf mo : Z) : State :=
  {| lastTelemetryRef := lastTelemetryRef st;
     tabSwitchTimesRef := tabSwitchTimesRef st;
     noFaceStreakRef := nf;
     multiFaceStreakRef := mf;
     motionStreakRef := mo;
     lastFaceMetricsRef := lastFaceMetricsRef st;
     lastFrameDataRef := lastFrameDataRef st;
     isPastingRef := isPastingRef st;
     pasteDetectionUntilRef := pasteDetectionUntilRef st;
     typedChars := typedChars st;
     pastedChars := pastedChars st;
     tabSwitchCount := tabSwitchCount st;
     log := log st |}.

Definition setCamera (st : State) (m : option Metrics) (f : option Frame) : State :=
  {| lastTelemetryRef := lastTelemetryRef st;
     tabSwitchTimesRef := tabSwitchTimesRef st;
     noFaceStreakRef := noFaceStreakRef st;
     multiFaceStreakRef := multiFaceStreakRef st;
     motionStreakRef := motionStreakRef st;
     lastFaceMetricsRef := m;
     lastFrameDataRef := f;
     isPastingRef := isPastingRef st;
     pasteDetectionUntilRef := pasteDetectionUntilRef st;
     typedChars := typedChars st;
     pastedChars := pastedChars st;
     tabSwitchCount := tabSwitchCount st;
     log := log st |}.

Definition setPaste (st : State) (p : bool) (until typ pas : Z) : State :=
  {| lastTelemetryRef := lastTelemetryRef st;
     tabSwitchTimesRef := tabSwitchTimesRef st;
     noFaceStreakRef := noFaceStreakRef st;
     multiFaceStreakRef := multiFaceStreakRef st;
     motionStreakRef := motionStreakRef st;
     lastFaceMetricsRef := lastFaceMetricsRef st;
     lastFrameDataRef := lastFrameDataRef st;
     isPastingRef := p;
     pasteDetectionUntilRef := until;
     typedChars := typ;
     pastedChars := pas;
     tabSwitchCount := tabSwitchCount st;
     log := log st |}.

Definition setTabs (st : State) (times : list Z) (count : Z) : State :=
  {| lastTelemetryRef := lastTelemetryRef st;
     tabSwitchTimesRef := times;
     noFaceStreakRef := noFaceStreakRef st;
     multiFaceStreakRef := multiFaceStreakRef st;
     motionStreakRef := motionStreakRef st;
     lastFaceMetricsRef := lastFaceMetricsRef st;
     lastFrameDataRef := lastFrameDataRef st;
     isPastingRef := isPastingRef st;
     pasteDetectionUntilRef := pasteDetectionUntilRef st;
     typedChars := typedChars st;
     pastedChars := pastedChars st;
     tabSwitchCount := count;
     log := log st |}.

(** [logTelemetryEvent(eventType, severity)], a closure over the
    [candidateId] of the render that created it: nothing is sent while the
    candidate is unknown.  [Some] stands for an id the page has stored; the
    page stores truthy ids only ([if (user.candidate_id)
    setCandidateId(...)]), so the falsy id 0 is not among them.  [now] is the
    clock reading of the caller. *)
Definition logTelemetryEvent (candidateId : option Z) (eventType : string)
  (sev : Severity) (now : Z) (st : State) : State :=
  match candidateId with
  | None => st
  | Some _ =>
      setLog st (log st ++ [{| event_type := eventType; severity := sev; at_ms := now |}])%list
  end.

(** The cool-down test and stamp of the motion signal, shared by the two
    detection modes. *)
Definition reportMotion (candidateId : option Z) (now : Z) (st : State) : State :=
  if (MOTION_THRESHOLD <=? motionStreakRef st) &&
     (15000 <? now - motion (lastTelemetryRef st))
  then
    let l := lastTelemetryRef st in
    let st1 := setLast st {| noFace := noFace l; multiFace := multiFace l;
                             cameraOff := cameraOff l; paste := paste l;
                             motion := now; tabSwitch := tabSwitch l |} in
    let st2 := setStreaks st1 (noFaceStreakRef st1) (multiFaceStreakRef st1) 0 in
    logTelemetryEvent candidateId "SUSPICIOUS_BEHAVIOR" LOW now st2
  else st.

(** The interval callback of the motion fallback of [startCamera]. *)
Definition motionTick (candidateId : option Z) (frame : Frame) (now : Z) (st : State) : State :=
  let st1 :=
    match lastFrameDataRef st with
    | Some prev =>
        let streak := if largeDiff frame prev then motionStreakRef st + 1 else 0 in
        reportMotion candidateId now
          (setStreaks st (noFaceStreakRef st) (multiFaceStreakRef st) streak)
    | None => st
    end in
  setCamera st1 (lastFaceMetricsRef st1) (Some frame).

(** The first part of the interval callback of the face-detection mode of
    [startCamera], from the point where [detect] has answered with [count]
    faces: the streak counters, and the motion signal when exactly one face
    is seen; [box] is the bounding box of that detection, if it has one. *)
Definition countFaces (candidateId : option Z) (count : nat) (box : option Metrics)
  (now : Z) (st : State) : State :=
  match count with
  | O =>
      setCamera (setStreaks st (noFaceStreakRef st + 1) 0 (motionStreakRef st))
        None (lastFrameDataRef st)
  | S O =>
      let st0 := setStreaks st 0 0 (motionStreakRef st) in
      match box with
      | Some metrics =>
          let st' :=
            match lastFaceMetricsRef st0 with
            | Some prev =>
                let streak :=
                  if largeShift metrics prev then motionStreakRef st0 + 1 else 0 in
                reportMotion candidateId now
                  (setStreaks st0 (noFaceStreakRef st0) (multiFaceStreakRef st0) streak)
            | None => st0
            end in
          setCamera st' (Some metrics) (lastFrameDataRef st')
      | None => st0
      end
  | _ =>
      setCamera (setStreaks st 0 (multiFaceStreakRef st + 1) (motionStreakRef st))
        None (lastFrameDataRef st)
  end.

(** The cool-down test and stamp of the missing-face signal. *)
Definition reportNoFace (candidateId : option Z) (now : Z) (st : State) : State :=
  if (NO_FACE_THRESHOLD <=? noFaceStreakRef st) &&
     (15000 <? now - noFace (lastTelemetryRef st))
  then
    let l := lastTelemetryRef st in
    let s := setLast st {| noFace := now; multiFace := multiFace l;
                           cameraOff := cameraOff l; paste := paste l;
                           motion := motion l; tabSwitch := tabSwitch l |} in
    logTelemetryEvent candidateId "FACE_NOT_DETECTED" MEDIUM now
      (setStreaks s 0 (multiFaceStreakRef s) (motionStreakRef s))
  else st.

(** The cool-down test and stamp of the several-faces signal. *)
Definition reportMultiFace (candidateId : option Z) (now : Z) (st : State) : State :=
  if (MULTI_FACE_THRESHOLD <=? multiFaceStreakRef st) &&
     (15000 <? now - multiFace (lastTelemetryRef st))
  then
    let l := lastTelemetryRef st in
    let s := setLast st {| noFace := noFace l; multiFace := now;
                           cameraOff := cameraOff l; paste := paste l;
                           motion := motion l; tabSwitch := tabSwitch l |} in
    logTelemetryEvent candidateId "MULTIPLE_FACES" HIGH now
      (setStreaks s (noFaceStreakRef s) 0 (motionStreakRef s))
  else st.

(** The interval callback of the face-detection mode of [startCamera]: the
    counters, then the two tests in the order of the source. *)
Definition faceTick (candidateId : option Z) (count : nat) (box : option Metrics)
  (now : Z) (st : State) : State :=
  reportMultiFace candidateId now
    (reportNoFace candidateId now (countFaces candidateId count box now st)).

(** [track.onended] of [startCamera]. *)
Definition trackEnded (candidateId : option Z) (now : Z) (st : State) : State :=
  if 15000 <? now - cameraOff (lastTelemetryRef st)
  then
    let l := lastTelemetryRef st in
    logTelemetryEvent candidateId "WEBCAM_DISABLED" HIGH now
      (setLast st {| noFace := noFace l; multiFace := multiFace l;
                     cameraOff := now; paste := paste l;
                     motion := motion l; tabSwitch := tabSwitch l |})
  else st.

(** The two failure branches of [startCamera]: no [getUserMedia], or an
    exception while the camera starts. *)
Definition cameraFailed (candidateId : option Z) (now : Z) (st : State) : State :=
  logTelemetryEvent candidateId "WEBCAM_DISABLED" HIGH now st.

(** The clean-up of the camera effect. *)
Definition cameraCleanup (st : State) : State :=
  setCamera (setStreaks st (noFaceStreakRef st) (multiFaceStreakRef st) 0) None None.

(** [markPasteSignal] of [handleEditorMount]. *)
Definition markPasteSignal (now : Z) (st : State) : State :=
  setPaste st true (now + 800) (typedChars st) (pastedChars st).

Fixpoint sumLengths (changes : list Z) : Z :=
  match changes with
  | [] => 0
  | n :: rest => n + sumLengths rest
  end.

(** The cool-down test and stamp of the paste signal. *)
Definition reportPaste (candidateId : option Z) (pasted now : Z) (st : State) : State :=
  if (0 <? pasted) && (15000 <? now - paste (lastTelemetryRef st))
  then
    let l := lastTelemetryRef st in
    logTelemetryEvent candidateId "COPY_PASTE_DETECTED" HIGH now
      (setLast st {| noFace := noFace l; multiFace := multiFace l;
                     cameraOff := cameraOff l; paste := now;
                     motion := motion l; tabSwitch := tabSwitch l |})
  else st.

(** [editor.onDidChangeModelContent] of [handleEditorMount]; [changes]
    holds [change.text.length] of every change of the event. *)
Definition contentChanged (candidateId : option Z) (changes : list Z) (now : Z)
  (st : State) : State :=
  let pasting0 := if pasteDetectionUntilRef st <? now then false else isPastingRef st in
  let isPasteWindowActive := now <=? pasteDetectionUntilRef st in
  let isPasteChange := pasting0 || isPasteWindowActive in
  let pasted := if isPasteChange then sumLengths changes else 0 in
  let typedNow := if isPasteChange then 0 else sumLengths changes in
  let st1 := setPaste st pasting0 (pasteDetectionUntilRef st) (typedChars st)
               (if 0 <? pasted then pastedChars st + pasted else pastedChars st) in
  let st2 := reportPaste candidateId pasted now st1 in
  setPaste st2 (if isPasteWindowActive then isPastingRef st2 else false)
    (pasteDetectionUntilRef st2)
    (if 0 <? typedNow then typedChars st2 + typedNow else typedChars st2)
    (pastedChars st2).

(** [handleVisibilityChange]; [hidden] is [document.hidden]. *)
Definition handleVisibilityChange (candidateId : option Z) (hidden : bool) (now : Z)
  (st : State) : State :=
  match hidden, candidateId with
  | true, Some _ =>
      let windowMs := 60000 in
      let times : list Z :=
        (filter (fun timestamp => now - timestamp <? windowMs) (tabSwitchTimesRef st)
         ++ [now])%list in
      let sev := if (3 <=? Z.of_nat (List.length times)) then HIGH else MEDIUM in
      let st1 := logTelemetryEvent candidateId "TAB_SWITCH" sev now
                   (setTabs st times (tabSwitchCount st)) in
      setTabs st1 (tabSwitchTimesRef st1) (tabSwitchCount st1 + 1)
  | _, _ => st
  end.

(** What the browser delivers to the handlers. *)
Inductive Input :=
| FaceTick (count : nat) (box : option Metrics)
| MotionTick (frame : Frame)
| TrackEnded
| CameraFailed
| CameraCleanup
| PasteSignal
| ContentChanged (changes : list Z)
| VisibilityChange (hidden : bool).

(** One delivery: the [candidateId] captured by the handler that runs, the
    clock reading, and the input. *)
Record Delivery := {
  captured : option Z;
  clock : Z;
  input : Input
}.

Definition step (st : State) (d : Delivery) : State :=
  match input d with
  | FaceTick count box => faceTick (captured d) count box (clock d) st
  | MotionTick frame => motionTick (captured d) frame (clock d) st
  | TrackEnded => trackEnded (captured d) (clock d) st
  | CameraFailed => cameraFailed (captured d) (clock d) st
  | CameraCleanup => cameraCleanup st
  | PasteSignal => markPasteSignal (clock d) st
  | ContentChanged changes => contentChanged (captured d) changes (clock d) st
  | VisibilityChange hidden => handleVisibilityChange (captured d) hidden (clock d) st
  end.

Definition run (st : State) (ds : list Delivery) : State := fold_left step ds st.

(** Any two requests of type [ty] in [l] are more than 15 seconds apart,
    the later one in the list having the later clock reading. *)
Definition Debounced (ty : string) (l : list LogEntry) : Prop :=
  forall i j e1 e2,
    (i < j)%nat ->
    nth_error l i = Some e1 -> nth_error l j = Some e2 ->
    event_type e1 = ty -> event_type e2 = ty ->
    15000 < at_ms e2 - at_ms e1.

(** The invariant that links the requests of type [ty] to the stamp that
    gates them. *)
Definition Gated (ty : string) (stamp : Z) (l : list LogEntry) : Prop :=
  Debounced ty l /\
  forall e, In e l -> event_type e = ty -> at_ms e <= stamp.

(** What the invariant reads of a state: the stamps and the requests. *)
Definition View : Type := LastTelemetry * list LogEntry.

Definition sent (candidateId : option Z) (ty : string) (sev : Severity) (now : Z)
  : list LogEntry :=
  match candidateId with
  | Some _ => [{| event_type := ty; severity := sev; at_ms := now |}]
  | None => []
  end.

(** The shape shared by the cool-down tests of the handlers: when the
    condition of the signal holds and its stamp is more than 15 seconds old,
    the stamp is set and the request is sent. *)
Definition gate (get : LastTelemetry -> Z) (set : LastTelemetry -> Z -> LastTelemetry)
  (ty : string) (sev : Severity) (candidateId : option Z) (now : Z)
  (cond : bool) (v : View) : View :=
  if cond && (15000 <? now - get (fst v))
  then (set (fst v) now, (snd v ++ sent candidateId ty sev now)%list)
  else v.

Definition setMotion (l : LastTelemetry) (now : Z) : LastTelemetry :=
  {| noFace := noFace l; multiFace := multiFace l; cameraOff := cameraOff l;
     paste := paste l; motion := now; tabSwitch := tabSwitch l |}.
Definition setNoFace (l : LastTelemetry) (now : Z) : LastTelemetry :=
  {| noFace := now; multiFace := multiFace l; cameraOff := cameraOff l;
     paste := paste l; motion := motion l; tabSwitch := tabSwitch l |}.
Definition setMultiFace (l : LastTelemetry) (now : Z) : LastTelemetry :=
  {| noFace := noFace l; multiFace := now; cameraOff := cameraOff l;
     paste := paste l; motion := motion l; tabSwitch := tabSwitch l |}.
Definition setCameraOff (l : LastTelemetry) (now : Z) : LastTelemetry :=
  {| noFace := noFace l; multiFace := multiFace l; cameraOff := now;
     paste := paste l; motion := motion l; tabSwitch := tabSwitch l |}.
Definition setPasteStamp (l : LastTelemetry) (now : Z) : LastTelemetry :=
  {| noFace := noFace l; multiFace := multiFace l; cameraOff := cameraOff l;
     paste := now; motion := motion l; tabSwitch := tabSwitch l |}.

Definition gateMotion := gate motion setMotion "SUSPICIOUS_BEHAVIOR" LOW.
Definition gateNoFace := gate noFace setNoFace "FACE_NOT_DETECTED" MEDIUM.
Definition gateMultiFace := gate multiFace setMultiFace "MULTIPLE_FACES" HIGH.
Definition gateCameraOff := gate cameraOff setCameraOff "WEBCAM_DISABLED" HIGH.
Definition gatePaste := gate paste setPasteStamp "COPY_PASTE_DETECTED" HIGH.

Definition GatedView (ty : string) (get : LastTelemetry -> Z) (v : View) : Prop :=
  Gated ty (get (fst v)) (snd v).

(** The tab switches of a candidate at the given clock readings. *)
Definition tabSwitches (candidate : Z) (times : list Z) : list Delivery :=
  map (fun t => {| captured := Some candidate; clock := t;
                   input := VisibilityChange true |}) times.

(** The tab switches within the 60 seconds before [t], [t] included, given
    the earlier switches. *)
Definition windowCount (earlier : list Z) (t : Z) : Z :=
  Z.of_nat (List.length (filter (fun u => t - u <? 60000) earlier)) + 1.

Definition windowSeverity (earlier : list Z) (t : Z) : Severity :=
  if 3 <=? windowCount earlier t then HIGH else MEDIUM.

(** The requests the tab switches at [times] should produce, after the
    switches at [earlier]. *)
Fixpoint tabSwitchLog (earlier times : list Z) : list LogEntry :=
  match times with
  | [] => []
  | t :: rest =>
      {| event_type := "TAB_SWITCH"; severity := windowSeverity earlier t; at_ms := t |}
      :: tabSwitchLog (earlier ++ [t]) rest
  end.

Definition view (st : State) : View := (lastTelemetryRef st, log st).

(** A delivery other than a camera failure. *)
Definition cameraStarted (d : Delivery) : Prop :=
  match input d with CameraFailed => False | _ => True end.

Lemma Gated_nil (ty : string) (stamp : Z) : Gated ty stamp [].
Proof.
  split.
  - intros i j e1 e2 _ H. destruct i; discriminate H.
  - intros e [].
Qed.

Lemma Gated_other (ty : string) (stamp : Z) (l : list LogEntry) (e : LogEntry) :
  Gated ty stamp l -> event_type e <> ty -> Gated ty stamp (l ++ [e]).
Proof.
  intros [D B] Hne. split.
  - intros i j e1 e2 Hij H1 H2 T1 T2.
    assert (Hj : (j < List.length l)%nat).
    { destruct (Nat.lt_ge_cases j (List.length l)) as [|Hge]; [assumption|].
      rewrite nth_error_app2 in H2 by assumption.
      destruct (j - List.length l)%nat as [|k]; cbn in H2.
      - injection H2 as <-. contradiction.
      - destruct k; discriminate H2. }
    rewrite nth_error_app1 in H1 by lia.
    rewrite nth_error_app1 in H2 by lia.
    exact (D i j e1 e2 Hij H1 H2 T1 T2).
  - intros e' Hin T. apply in_app_or in Hin. destruct Hin as [Hin | [<- | []]].
    + now apply B.
    + contradiction.
Qed.

Lemma Gated_raise (ty : string) (stamp now : Z) (l : list LogEntry) :
  Gated ty stamp l -> 15000 < now - stamp -> Gated ty now l.
Proof.
  intros [D B] Hgap. split; [exact D|].
  intros e Hin T. specialize (B e Hin T). lia.
Qed.

Lemma Gated_emit (ty : string) (stamp now : Z) (l : list LogEntry) (sev : Severity) :
  Gated ty stamp l -> 15000 < now - stamp ->
  Gated ty now (l ++ [{| event_type := ty; severity := sev; at_ms := now |}]).
Proof.
  intros [D B] Hgap. split.
  - intros i j e1 e2 Hij H1 H2 T1 T2.
    destruct (Nat.lt_ge_cases j (List.length l)) as [Hj | Hj].
    + rewrite nth_error_app1 in H1 by lia.
      rewrite nth_error_app1 in H2 by lia.
      exact (D i j e1 e2 Hij H1 H2 T1 T2).
    + rewrite nth_error_app2 in H2 by assumption.
      destruct (j - List.length l)%nat as [|k] eqn:Ek; cbn in H2.
      * injection H2 as <-. cbn [at_ms].
        assert (Hi : (i < List.length l)%nat) by lia.
        rewrite nth_error_app1 in H1 by assumption.
        apply nth_error_In in H1. specialize (B e1 H1 T1). lia.
      * destruct k; discriminate H2.
  - intros e Hin T. apply in_app_or in Hin. destruct Hin as [Hin | [<- | []]].
    + specialize (B e Hin T). lia.
    + cbn. lia.
Qed.

Lemma view_eta (v : View) : v = (fst v, (snd v ++ [])%list).
Proof. destruct v; cbn [fst snd]. now rewrite app_nil_r. Qed.

Lemma sent_other (ty ty' : string) (get : LastTelemetry -> Z) (v : View)
  (candidateId : option Z) (sev : Severity) (now : Z) :
  ty' <> ty -> GatedView ty get v ->
  GatedView ty get (fst v, (snd v ++ sent candidateId ty' sev now)%list).
Proof.
  unfold GatedView. intros Hne G. destruct candidateId; cbn [sent fst snd].
  - now apply Gated_other.
  - now rewrite app_nil_r.
Qed.

Lemma gate_same (ty : string) (get : LastTelemetry -> Z)
  (set : LastTelemetry -> Z -> LastTelemetry) (sev : Severity)
  (candidateId : option Z) (now : Z) (cond : bool) (v : View) :
  (forall l t, get (set l t) = t) ->
  GatedView ty get v -> GatedView ty get (gate get set ty sev candidateId now cond v).
Proof.
  unfold GatedView, gate. intros Hget G.
  destruct (cond && _)%bool eqn:E; [|exact G].
  apply andb_true_iff in E. destruct E as [_ E]. apply Z.ltb_lt in E.
  cbn [fst snd]. rewrite Hget.
  destruct candidateId; cbn [sent].
  - now apply Gated_emit with (stamp := get (fst v)).
  - rewrite app_nil_r. now apply Gated_raise with (stamp := get (fst v)).
Qed.

Lemma gate_other (ty ty' : string) (get get' : LastTelemetry -> Z)
  (set' : LastTelemetry -> Z -> LastTelemetry) (sev : Severity)
  (candidateId : option Z) (now : Z) (cond : bool) (v : View) :
  ty' <> ty -> (forall l t, get (set' l t) = get l) ->
  GatedView ty get v -> GatedView ty get (gate get' set' ty' sev candidateId now cond v).
Proof.
  unfold gate. intros Hne Hget G.
  destruct (cond && _)%bool; [|exact G].
  pose proof (sent_other ty ty' get v candidateId sev now Hne G) as S.
  unfold GatedView in *. cbn [fst snd] in *. now rewrite Hget.
Qed.

Lemma filter_window_mono (bound t : Z) (l : list Z) :
  bound <= t ->
  filter (fun u => t - u <? 60000) (filter (fun u => bound - u <? 60000) l)
  = filter (fun u => t - u <? 60000) l.
Proof.
  intros Hle. induction l as [|u l IH]; cbn [filter]; [reflexivity|].
  destruct (bound - u <? 60000) eqn:E1; destruct (t - u <? 60000) eqn:E2;
    cbn [filter]; rewrite ?E2, ?IH; try reflexivity.
  apply Z.ltb_lt in E2. apply Z.ltb_ge in E1. lia.
Qed.

Lemma tab_switch_run (candidate : Z) (times : list Z) :
  forall (st : State) (earlier : list Z) (bound : Z),
    tabSwitchTimesRef st = filter (fun u => bound - u <? 60000) earlier ->
    Sorted Z.le (bound :: times) ->
    log (run st (tabSwitches candidate times))
    = (log st ++ tabSwitchLog earlier times)%list.
Proof.
  induction times as [|t times IH]; intros st earlier bound Href Hs.
  - cbn. now rewrite app_nil_r.
  - apply Sorted_inv in Hs. destruct Hs as [Hs Hhd].
    apply HdRel_inv in Hhd.
    cbn [tabSwitches map run fold_left tabSwitchLog].
    change (fold_left step (map _ times) ?s) with (run s (tabSwitches candidate times)).
    rewrite (IH _ (earlier ++ [t])%list t).
    + unfold step at 1; cbn [input captured clock].
      unfold handleVisibilityChange, logTelemetryEvent. cbn.
      rewrite <- app_assoc. cbn [app]. do 3 f_equal.
      unfold windowSeverity, windowCount.
      rewrite Href, filter_window_mono by assumption.
      rewrite length_app. cbn [List.length].
      replace (Z.of_nat (_ + 1)) with
        (Z.of_nat (List.length (filter (fun u => t - u <? 60000) earlier)) + 1) by lia.
      reflexivity.
    + unfold step; cbn [input captured clock].
      unfold handleVisibilityChange, logTelemetryEvent. cbn.
      rewrite Href, filter_window_mono by assumption.
      rewrite filter_app. cbn [filter].
      replace (t - t <? 60000) with true by (symmetry; apply Z.ltb_lt; lia).
      reflexivity.
    + exact Hs.
Qed.

Lemma tabSwitchLog_nth (pre : list Z) :
  forall earlier t post,
    nth_error (tabSwitchLog earlier (pre ++ t :: post)) (List.length pre)
    = Some {| event_type := "TAB_SWITCH";
              severity := windowSeverity (earlier ++ pre) t;
              at_ms := t |}.
Proof.
  induction pre as [|u pre IH]; intros earlier t post; cbn [app tabSwitchLog List.length nth_error].
  - now rewrite app_nil_r.
  - rewrite IH, <- app_assoc. reflexivity.
Qed.

Lemma tabSwitchLog_length (times : list Z) :
  forall earlier, List.length (tabSwitchLog earlier times) = List.length times.
Proof.
  induction times as [|t times IH]; intros earlier; cbn [tabSwitchLog List.length].
  - reflexivity.
  - now rewrite IH.
Qed.

(** C9.  For tab switches in chronological order, one request is logged
    per switch, and the request of a switch is HIGH exactly when the
    switches less than 60 seconds before it, the switch itself included,
    number at least three, and MEDIUM otherwise. *)
Theorem tab_switch_severity (candidate : Z) (times : list Z) :
  Sorted Z.le times ->
  List.length (log (run initialState (tabSwitches candidate times)))
  = List.length times /\
  forall pre t post,
    times = (pre ++ t :: post)%list ->
    nth_error (log (run initialState (tabSwitches candidate times))) (List.length pre)
    = Some {| event_type := "TAB_SWITCH";
              severity := if 3 <=? windowCount pre t then HIGH else MEDIUM;
              at_ms := t |}.
Proof.
  intros Hs.
  assert (E : log (run initialState (tabSwitches candidate times)) = tabSwitchLog [] times).
  { destruct times as [|t times]; [reflexivity|].
    rewrite (tab_switch_run candidate (t :: times) initialState [] t).
    - reflexivity.
    - reflexivity.
    - constructor; [exact Hs | constructor; lia]. }
  rewrite E. split.
  - apply tabSwitchLog_length.
  - intros pre t post ->. apply tabSwitchLog_nth.
Qed.

Lemma view_log (candidateId : option Z) (ty : string) (sev : Severity) (now : Z)
  (st : State) :
  view (logTelemetryEvent candidateId ty sev now st)
  = (fst (view st), (snd (view st) ++ sent candidateId ty sev now)%list).
Proof.
  unfold logTelemetryEvent, view. destruct candidateId; cbn; [reflexivity|].
  now rewrite app_nil_r.
Qed.

Lemma view_reportMotion (candidateId : option Z) (now : Z) (st : State) :
  exists c, view (reportMotion candidateId now st) = gateMotion candidateId now c (view st).
Proof.
  exists (MOTION_THRESHOLD <=? motionStreakRef st).
  unfold reportMotion, gateMotion, gate. cbn [view fst snd].
  destruct (_ && _)%bool; [|reflexivity].
  now rewrite view_log.
Qed.

Lemma view_motionTick (candidateId : option Z) (frame : Frame) (now : Z) (st : State) :
  exists c, view (motionTick candidateId frame now st) = gateMotion candidateId now c (view st).
Proof.
  unfold motionTick. destruct (lastFrameDataRef st) as [prev|].
  - destruct (view_reportMotion candidateId now
                (setStreaks st (noFaceStreakRef st) (multiFaceStreakRef st)
                   (if largeDiff frame prev then motionStreakRef st + 1 else 0)))
      as (c & E).
    exists c. etransitivity; [|exact E]. reflexivity.
  - exists false. reflexivity.
Qed.

Lemma view_countFaces (candidateId : option Z) (count : nat) (box : option Metrics)
  (now : Z) (st : State) :
  exists c, view (countFaces candidateId count box now st)
            = gateMotion candidateId now c (view st).
Proof.
  unfold countFaces. destruct count as [|[|count]].
  - exists false. reflexivity.
  - destruct box as [metrics|]; [|exists false; reflexivity].
    cbn [lastFaceMetricsRef setStreaks].
    destruct (lastFaceMetricsRef st) as [prev|]; [|exists false; reflexivity].
    match goal with
    | |- context [reportMotion _ _ ?s] =>
        destruct (view_reportMotion candidateId now s) as (c & E)
    end.
    exists c. etransitivity; [|exact E]. reflexivity.
  - exists false. reflexivity.
Qed.

Lemma view_reportNoFace (candidateId : option Z) (now : Z) (st : State) :
  exists c, view (reportNoFace candidateId now st) = gateNoFace candidateId now c (view st).
Proof.
  exists (NO_FACE_THRESHOLD <=? noFaceStreakRef st).
  unfold reportNoFace, gateNoFace, gate. cbn [view fst snd].
  destruct (_ && _)%bool; [|reflexivity].
  now rewrite view_log.
Qed.

Lemma view_reportMultiFace (candidateId : option Z) (now : Z) (st : State) :
  exists c, view (reportMultiFace candidateId now st)
            = gateMultiFace candidateId now c (view st).
Proof.
  exists (MULTI_FACE_THRESHOLD <=? multiFaceStreakRef st).
  unfold reportMultiFace, gateMultiFace, gate. cbn [view fst snd].
  destruct (_ && _)%bool; [|reflexivity].
  now rewrite view_log.
Qed.

Lemma view_faceTick (candidateId : option Z) (count : nat) (box : option Metrics)
  (now : Z) (st : State) :
  exists c1 c2 c3,
    view (faceTick candidateId count box now st)
    = gateMultiFace candidateId now c3
        (gateNoFace candidateId now c2 (gateMotion candidateId now c1 (view st))).
Proof.
  unfold faceTick.
  destruct (view_countFaces candidateId count box now st) as (c1 & E1).
  destruct (view_reportNoFace candidateId now (countFaces candidateId count box now st))
    as (c2 & E2).
  destruct (view_reportMultiFace candidateId now
              (reportNoFace candidateId now (countFaces candidateId count box now st)))
    as (c3 & E3).
  exists c1, c2, c3. now rewrite E3, E2, E1.
Qed.

Lemma view_trackEnded (candidateId : option Z) (now : Z) (st : State) :
  view (trackEnded candidateId now st) = gateCameraOff candidateId now true (view st).
Proof.
  unfold trackEnded, gateCameraOff, gate. cbn [view fst snd andb].
  destruct (15000 <? _); [|reflexivity].
  now rewrite view_log.
Qed.

Lemma view_cameraFailed (candidateId : option Z) (now : Z) (st : State) :
  view (cameraFailed candidateId now st)
  = (fst (view st), (snd (view st) ++ sent candidateId "WEBCAM_DISABLED" HIGH now)%list).
Proof. apply view_log. Qed.

Lemma view_contentChanged (candidateId : option Z) (changes : list Z) (now : Z)
  (st : State) :
  exists c, view (contentChanged candidateId changes now st)
            = gatePaste candidateId now c (view st).
Proof.
  unfold contentChanged. cbv zeta.
  match goal with
  | |- context [reportPaste ?cid ?p ?n ?s] =>
      assert (E : view (reportPaste cid p n s) = gatePaste cid n (0 <? p) (view st))
  end.
  { unfold reportPaste, gatePaste, gate.
    cbn [view fst snd lastTelemetryRef setPaste log].
    destruct (_ && _)%bool; [|reflexivity].
    rewrite view_log. reflexivity. }
  eexists. etransitivity; [|exact E]. reflexivity.
Qed.

Lemma view_handleVisibilityChange (candidateId : option Z) (hidden : bool) (now : Z)
  (st : State) :
  exists sev,
    view (handleVisibilityChange candidateId hidden now st)
    = (fst (view st),
       (snd (view st) ++
        (if hidden then sent candidateId "TAB_SWITCH" sev now else []))%list).
Proof.
  unfold handleVisibilityChange.
  destruct hidden, candidateId as [cid|]; cbn [sent].
  - eexists. unfold logTelemetryEvent. cbn. reflexivity.
  - exists LOW. cbn. now rewrite app_nil_r.
  - exists LOW. cbn. now rewrite app_nil_r.
  - exists LOW. cbn. now rewrite app_nil_r.
Qed.

(** The effect of one delivery on the stamps and the requests: at most one
    gate per signal, in the order of the source, then the requests that no
    stamp gates (the tab switch; the camera failure of [startCamera]). *)
Lemma view_step (st : State) (d : Delivery) :
  exists c1 c2 c3 c4 c5 sev,
    view (step st d)
    = let v := gatePaste (captured d) (clock d) c5
                 (gateCameraOff (captured d) (clock d) c4
                    (gateMultiFace (captured d) (clock d) c3
                       (gateNoFace (captured d) (clock d) c2
                          (gateMotion (captured d) (clock d) c1 (view st))))) in
      (fst v,
       (snd v ++
        match input d with
        | VisibilityChange true =>
            sent (captured d) "TAB_SWITCH" sev (clock d)
        | CameraFailed =>
            sent (captured d) "WEBCAM_DISABLED" HIGH (clock d)
        | _ => []
        end)%list).
Proof.
  destruct d as [cid now [count box | frame | | | | | changes | hidden]];
    unfold step; cbn [input captured clock].
  - destruct (view_faceTick cid count box now st) as (c1 & c2 & c3 & E).
    exists c1, c2, c3, false, false, LOW. rewrite E.
    etransitivity; [apply view_eta | reflexivity].
  - destruct (view_motionTick cid frame now st) as (c1 & E).
    exists c1, false, false, false, false, LOW. rewrite E.
    etransitivity; [apply view_eta | reflexivity].
  - exists false, false, false, true, false, LOW. rewrite view_trackEnded.
    etransitivity; [apply view_eta | reflexivity].
  - exists false, false, false, false, false, LOW. now rewrite view_cameraFailed.
  - exists false, false, false, false, false, LOW.
    etransitivity; [apply view_eta | reflexivity].
  - exists false, false, false, false, false, LOW.
    etransitivity; [apply view_eta | reflexivity].
  - destruct (view_contentChanged cid changes now st) as (c & E).
    exists false, false, false, false, c, LOW. rewrite E.
    etransitivity; [apply view_eta | reflexivity].
  - destruct (view_handleVisibilityChange cid hidden now st) as (sev & E).
    exists false, false, false, false, false, sev. rewrite E.
    destruct hidden; reflexivity.
Qed.

Ltac through_gates :=
  repeat first
    [ assumption
    | apply gate_same; [intros; reflexivity |]
    | apply gate_other; [discriminate | intros; reflexivity |] ].

Lemma gates_gated (ty : string) (get : LastTelemetry -> Z)
  (candidateId : option Z) (now : Z) (c1 c2 c3 c4 c5 : bool) (v : View) :
  In (ty, get)
     [("SUSPICIOUS_BEHAVIOR", motion); ("FACE_NOT_DETECTED", noFace);
      ("MULTIPLE_FACES", multiFace); ("WEBCAM_DISABLED", cameraOff);
      ("COPY_PASTE_DETECTED", paste)] ->
  GatedView ty get v ->
  GatedView ty get
    (gatePaste candidateId now c5
       (gateCameraOff candidateId now c4
          (gateMultiFace candidateId now c3
             (gateNoFace candidateId now c2 (gateMotion candidateId now c1 v))))).
Proof.
  intros Hin G. unfold gatePaste, gateCameraOff, gateMultiFace, gateNoFace, gateMotion.
  cbn [In] in Hin.
  repeat (destruct Hin as [Hin | Hin]; [injection Hin as <- <-; through_gates |]).
  contradiction.
Qed.

Lemma step_gated (ty : string) (get : LastTelemetry -> Z) (st : State) (d : Delivery) :
  In (ty, get)
     [("SUSPICIOUS_BEHAVIOR", motion); ("FACE_NOT_DETECTED", noFace);
      ("MULTIPLE_FACES", multiFace); ("WEBCAM_DISABLED", cameraOff);
      ("COPY_PASTE_DETECTED", paste)] ->
  (ty = "WEBCAM_DISABLED" -> cameraStarted d) ->
  GatedView ty get (view st) -> GatedView ty get (view (step st d)).
Proof.
  intros Hin Hcam G.
  destruct (view_step st d) as (c1 & c2 & c3 & c4 & c5 & sev & E).
  rewrite E. cbv zeta.
  pose proof (gates_gated ty get (captured d) (clock d) c1 c2 c3 c4 c5 (view st) Hin G)
    as G'.
  set (v := gatePaste _ _ _ _) in *.
  unfold cameraStarted in Hcam.
  destruct (input d) as [count box | frame | | | | | changes | hidden];
    try (rewrite app_nil_r; destruct v; exact G').
  - apply sent_other; [|exact G'].
    intros E'. apply Hcam. now symmetry.
  - destruct hidden; [|rewrite app_nil_r; destruct v; exact G'].
    apply sent_other; [|exact G'].
    cbn [In] in Hin.
    repeat (destruct Hin as [Hin | Hin]; [injection Hin as <- <-; discriminate |]).
    contradiction.
Qed.

Lemma run_gated (ty : string) (get : LastTelemetry -> Z) (ds : list Delivery) :
  In (ty, get)
     [("SUSPICIOUS_BEHAVIOR", motion); ("FACE_NOT_DETECTED", noFace);
      ("MULTIPLE_FACES", multiFace); ("WEBCAM_DISABLED", cameraOff);
      ("COPY_PASTE_DETECTED", paste)] ->
  (ty = "WEBCAM_DISABLED" -> Forall cameraStarted ds) ->
  forall st, GatedView ty get (view st) -> GatedView ty get (view (run st ds)).
Proof.
  intros Hin Hcam.
  induction ds as [|d ds IH]; intros st G; [exact G|].
  cbn [run fold_left].
  apply IH.
  - intros E. specialize (Hcam E). now inversion Hcam.
  - apply step_gated; [exact Hin | | exact G].
    intros E. specialize (Hcam E). now inversion Hcam.
Qed.

(** C5, as amended.  In every run of the producer the requests of each of
    the four camera and paste signals that a stamp gates are pairwise more
    than 15 seconds apart, and so are the requests for a disabled camera in
    a run where the camera started. *)
Theorem cooldown_debounces (ds : list Delivery) :
  Debounced "SUSPICIOUS_BEHAVIOR" (log (run initialState ds)) /\
  Debounced "FACE_NOT_DETECTED" (log (run initialState ds)) /\
  Debounced "MULTIPLE_FACES" (log (run initialState ds)) /\
  Debounced "COPY_PASTE_DETECTED" (log (run initialState ds)) /\
  (Forall cameraStarted ds ->
   Debounced "WEBCAM_DISABLED" (log (run initialState ds))).
Proof.
  assert (G : forall ty get,
             In (ty, get)
                [("SUSPICIOUS_BEHAVIOR", motion); ("FACE_NOT_DETECTED", noFace);
                 ("MULTIPLE_FACES", multiFace); ("WEBCAM_DISABLED", cameraOff);
                 ("COPY_PASTE_DETECTED", paste)] ->
             (ty = "WEBCAM_DISABLED" -> Forall cameraStarted ds) ->
             Debounced ty (log (run initialState ds))).
  { intros ty get Hin Hcam.
    apply (run_gated ty get ds Hin Hcam initialState).
    apply Gated_nil. }
  repeat split.
  - apply (G _ motion); [cbn; tauto | discriminate].
  - apply (G _ noFace); [cbn; tauto | discriminate].
  - apply (G _ multiFace); [cbn; tauto | discriminate].
  - apply (G _ paste); [cbn; tauto | discriminate].
  - intros H. apply (G _ cameraOff); [cbn; tauto | intros _; exact H].
Qed.

End Producer.

Lemma tab_switch_severity_witness :
  nth_error
    (log unit unit
       (run unit unit (fun _ _ => false) (fun _ _ => false) (initialState unit unit)
          (tabSwitches unit unit 7 [1000000; 1020000; 1059999; 1080000; 1200000])))
    2
  = Some {| event_type := "TAB_SWITCH"; severity := HIGH; at_ms := 1059999 |}.
Proof.
  refine (proj2 (tab_switch_severity unit unit (fun _ _ => false) (fun _ _ => false) 7
                   [1000000; 1020000; 1059999; 1080000; 1200000] _)
            [1000000; 1020000] 1059999 [1080000; 1200000] eq_refl).
  repeat constructor; lia.
Defined.

Definition sampleRun : list (Delivery unit unit) :=
  [ {| captured := Some 7; clock := 1000000; input := FaceTick unit unit 2 None |};
    {| captured := Some 7; clock := 1001200; input := FaceTick unit unit 2 None |};
    {| captured := Some 7; clock := 1016000; input := FaceTick unit unit 2 None |};
    {| captured := Some 7; clock := 1017000; input := TrackEnded unit unit |};
    {| captured := Some 7; clock := 1018000; input := TrackEnded unit unit |} ].

Lemma cooldown_debounces_witness :
  Debounced "WEBCAM_DISABLED"
    (log unit unit
       (run unit unit (fun _ _ => false) (fun _ _ => false) (initialState unit unit)
          sampleRun)).
Proof.
  apply (cooldown_debounces unit unit (fun _ _ => false) (fun _ _ => false) sampleRun).
  repeat constructor.
Defined.

(** C5 as stated fails for tab switches: two switches one second apart are
    both sent. *)
Lemma tab_switches_not_debounced :
  let ds : list (Delivery unit unit) :=
    [ {| captured := Some 7; clock := 1000000; input := VisibilityChange unit unit true |};
      {| captured := Some 7; clock := 1001000; input := VisibilityChange unit unit true |} ] in
  log unit unit
    (run unit unit (fun _ _ => false) (fun _ _ => false) (initialState unit unit) ds)
  = [ {| event_type := "TAB_SWITCH"; severity := MEDIUM; at_ms := 1000000 |};
      {| event_type := "TAB_SWITCH"; severity := MEDIUM; at_ms := 1001000 |} ] /\
  ~ Debounced "TAB_SWITCH"
      (log unit unit
         (run unit unit (fun _ _ => false) (fun _ _ => false) (initialState unit unit) ds)).
Proof.
  cbv zeta. split; [reflexivity|].
  intros D.
  specialize (D 0%nat 1%nat _ _ ltac:(lia) eq_refl eq_refl eq_refl eq_refl).
  cbn in D. lia.
Qed.

End Telemetry.

(* ================================================================== *)
(** * Exact cases of the binary64 rounding                             *)
(* ================================================================== *)

Module Rounding.
Import Binary64.

Local Open Scope Z_scope.

Lemma roundHalfEven_exact (q d : Z) : 0 < d -> roundHalfEven (q * d) d = q.
Proof.
  intros Hd. unfold roundHalfEven.
  rewrite Z.div_mul, Z.mod_mul by lia.
  destruct (Z.compare_spec (2 * 0) d); lia.
Qed.

Lemma pow2_split (a b : Z) : 0 <= a -> 0 <= b -> 2 ^ (a + b) = 2 ^ a * 2 ^ b.
Proof. intros. now apply Z.pow_add_r. Qed.

Lemma pow2_ge_2 (a : Z) : 1 <= a -> 2 <= 2 ^ a.
Proof.
  intros H. replace a with (1 + (a - 1)) by lia.
  rewrite Z.pow_add_r by lia.
  pose proof (Z.pow_pos_nonneg 2 (a - 1) ltac:(lia) ltac:(lia)). lia.
Qed.

(** A positive rational that is a 53-bit significand over a power of two
    is its own rounding. *)
Lemma flPos_exact (n d : positive) (m j : Z) :
  0 <= j -> 0 < m < 2 ^ 53 -> Zpos n * 2 ^ j = m * Zpos d ->
  (flPos (Zpos n) (Zpos d) == Zpos n # d)%Q.
Proof.
  intros Hj Hm E. unfold flPos.
  pose proof (ulpExponent_lower (Zpos n) (Zpos d) eq_refl eq_refl) as L.
  set (e := ulpExponent (Zpos n) (Zpos d)) in *. clearbody e.
  change (2 ^ 52) with 4503599627370496 in L.
  change (2 ^ 53) with 9007199254740992 in Hm.
  assert (Pj : 0 < 2 ^ j) by (apply Z.pow_pos_nonneg; lia).
  unfold scaleNum, scaleDen, ldexp in *.
  destruct (e <? 0) eqn:S.
  - apply Z.ltb_lt in S.
    assert (Pk : 0 < 2 ^ (- e)) by (apply Z.pow_pos_nonneg; lia).
    destruct (Z.le_gt_cases j (- e)) as [Hle | Hgt].
    + assert (Ek : 2 ^ (- e) = 2 ^ j * 2 ^ (- e - j)).
      { rewrite <- Z.pow_add_r by lia. f_equal. lia. }
      assert (Pr : 0 < 2 ^ (- e - j)) by (apply Z.pow_pos_nonneg; lia).
      assert (Es : Zpos n * 2 ^ (- e) = (m * 2 ^ (- e - j)) * Zpos d).
      { rewrite Ek. rewrite Z.mul_assoc, E. ring. }
      rewrite Es, roundHalfEven_exact by lia.
      unfold Qeq; cbn [Qnum Qden]. rewrite Z2Pos.id by lia.
      rewrite <- Es. ring.
    + exfalso.
      assert (Ek : 2 ^ j = 2 ^ (- e) * 2 ^ (j + e)).
      { rewrite <- Z.pow_add_r by lia. f_equal. lia. }
      pose proof (pow2_ge_2 (j + e) ltac:(lia)) as P2.
      set (a := 2 ^ (- e)) in *. set (b := 2 ^ (j + e)) in *. clearbody a b.
      rewrite Ek in E. nia.
  - apply Z.ltb_ge in S.
    assert (Pe : 0 < 2 ^ e) by (apply Z.pow_pos_nonneg; lia).
    assert (Z : e = 0 /\ j = 0).
    { destruct (Z.eq_dec (e + j) 0) as [Z0 | NZ]; [lia|]. exfalso.
      pose proof (pow2_ge_2 (e + j) ltac:(lia)) as P2.
      rewrite Z.pow_add_r in P2 by lia.
      set (a := 2 ^ e) in *. set (b := 2 ^ j) in *. clearbody a b. nia. }
    destruct Z as [-> ->]. change (2 ^ 0) with 1 in *.
    rewrite !Z.mul_1_r in *. rewrite E. rewrite roundHalfEven_exact by lia.
    unfold Qeq, inject_Z; cbn [Qnum Qden]. rewrite <- E. ring.
Qed.

Local Open Scope Q_scope.

(** Rounding is exact on a number with a 53-bit significand: [m / 2^j]. *)
Lemma fl_exact (x : Q) (m j : Z) :
  (0 <= j)%Z -> (0 <= m < 2 ^ 53)%Z -> x * inject_Z (2 ^ j) == inject_Z m -> fl x == x.
Proof.
  intros Hj Hm E. destruct x as [xn xd].
  assert (Pj : (0 < 2 ^ j)%Z) by (apply Z.pow_pos_nonneg; lia).
  unfold Qeq, Qmult, inject_Z in E; cbn [Qnum Qden] in E.
  rewrite Z.mul_1_r, Pos.mul_1_r in E.
  unfold fl; cbn [Qnum Qden]. destruct xn as [|n|n].
  - reflexivity.
  - apply (flPos_exact n xd m j); [lia | nia | lia].
  - exfalso. nia.
Qed.

Lemma fl_exact_Z (z : Z) : (0 <= z < 2 ^ 53)%Z -> fl (inject_Z z) == inject_Z z.
Proof.
  intros H. apply (fl_exact _ z 0); [lia | lia |].
  change (inject_Z (2 ^ 0)) with 1. ring.
Qed.


(** What the bounds of [fl] give for a quotient of integers: with
    [x * d == n], the rounded quotient times [d] stays within [u * n] of
    [n]. *)
Lemma div_bounds (n d : Z) :
  (0 <= n)%Z -> (0 < d)%Z ->
  (1 - u) * inject_Z n <= div (inject_Z n) (inject_Z d) * inject_Z d
                       <= (1 + u) * inject_Z n.
Proof.
  intros Hn Hd. unfold div.
  set (x := inject_Z n / inject_Z d).
  assert (HD : inject_Z 0 < inject_Z d) by (rewrite <- Zlt_Qlt; exact Hd).
  change (0 < inject_Z d) in HD.
  assert (HN : inject_Z 0 <= inject_Z n) by (rewrite <- Zle_Qle; exact Hn).
  change (0 <= inject_Z n) in HN.
  assert (Hx : x * inject_Z d == inject_Z n).
  { unfold x. field. intros E. rewrite E in HD. revert HD. apply Qlt_irrefl. }
  assert (X0 : 0 <= x).
  { apply (Qmult_le_r _ _ (inject_Z d) HD). rewrite Hx. lra. }
  destruct (fl_bounds x X0) as [B1 B2].
  split.
  - setoid_replace ((1 - u) * inject_Z n) with (((1 - u) * x) * inject_Z d)
      by (rewrite <- Hx; ring).
    apply Qmult_le_compat_r; lra.
  - setoid_replace ((1 + u) * inject_Z n) with (((1 + u) * x) * inject_Z d)
      by (rewrite <- Hx; ring).
    apply Qmult_le_compat_r; lra.
Qed.

(** [Math.floor(n / d)] on integers below [2^53] is the integer quotient. *)
Lemma floor_div (n d : Z) :
  (0 <= n < 2 ^ 53)%Z -> (0 < d)%Z ->
  Qfloor (div (inject_Z n) (inject_Z d)) = (n / d)%Z.
Proof.
  intros Hn Hd.
  pose proof (Z.div_mod n d ltac:(lia)) as D.
  pose proof (Z.mod_pos_bound n d Hd) as B.
  assert (Q0 : (0 <= n / d)%Z) by (apply Z.div_pos; lia).
  assert (Qn : (n / d <= n)%Z) by (apply Z.div_le_upper_bound; nia).
  set (q := (n / d)%Z) in *. set (r := (n mod d)%Z) in *. clearbody q r.
  assert (HD : inject_Z 0 < inject_Z d) by (rewrite <- Zlt_Qlt; exact Hd).
  change (0 < inject_Z d) in HD.
  destruct (Z.eq_dec r 0) as [-> | Hr].
  - assert (E : fl (inject_Z n / inject_Z d) == inject_Z q).
    { assert (X : inject_Z n / inject_Z d == inject_Z q).
      { subst n. rewrite Z.add_0_r, inject_Z_mult. field.
        intros E. rewrite E in HD. revert HD. apply Qlt_irrefl. }
      transitivity (inject_Z n / inject_Z d); [|exact X].
      apply (fl_exact _ q 0); [lia | lia |].
      rewrite X. change (inject_Z (2 ^ 0)) with 1. ring. }
    unfold div. rewrite E. apply Qfloor_Z.
  - destruct (div_bounds n d ltac:(lia) Hd) as [B1 B2].
    set (f := div (inject_Z n) (inject_Z d)) in *. clearbody f.
    assert (En : inject_Z n == inject_Z d * inject_Z q + inject_Z r).
    { subst n. now rewrite inject_Z_plus, inject_Z_mult. }
    assert (R1 : 1 <= inject_Z r).
    { change 1 with (inject_Z 1). rewrite <- Zle_Qle. lia. }
    assert (R2 : inject_Z r + 1 <= inject_Z d).
    { change 1 with (inject_Z 1). rewrite <- inject_Z_plus, <- Zle_Qle. lia. }
    assert (N0 : 0 <= inject_Z n).
    { change 0 with (inject_Z 0). rewrite <- Zle_Qle. lia. }
    assert (N1 : inject_Z n < 9007199254740992).
    { change 9007199254740992 with (inject_Z (2 ^ 53)). rewrite <- Zlt_Qlt. lia. }
    unfold u in *.
    apply Qfloor_interval.
    + apply (Qmult_le_r _ _ (inject_Z d) HD). lra.
    + apply (Qmult_lt_r _ _ (inject_Z d) HD).
      rewrite inject_Z_plus. change (inject_Z 1) with 1. lra.
Qed.

(** [Math.round(n / d)] on integers below [2^52] is the nearest integer to
    the exact quotient, ties towards plus infinity: a tie is a half-integer,
    which the division returns exactly. *)
Lemma round_div (n d : Z) :
  (0 <= n < 2 ^ 52)%Z -> (0 < d)%Z ->
  round (div (inject_Z n) (inject_Z d)) = ((2 * n + d) / (2 * d))%Z.
Proof.
  intros Hn Hd. unfold round.
  pose proof (Z.div_mod (2 * n + d) (2 * d) ltac:(lia)) as D.
  pose proof (Z.mod_pos_bound (2 * n + d) (2 * d) ltac:(lia)) as B.
  set (k := ((2 * n + d) / (2 * d))%Z) in *.
  set (s := ((2 * n + d) mod (2 * d))%Z) in *. clearbody k s.
  assert (HD : inject_Z 0 < inject_Z d) by (rewrite <- Zlt_Qlt; exact Hd).
  change (0 < inject_Z d) in HD.
  assert (Dne : ~ inject_Z d == 0).
  { intros E. rewrite E in HD. revert HD. apply Qlt_irrefl. }
  change (2 ^ 52)%Z with 4503599627370496%Z in Hn.
  destruct (Z.eq_dec s 0) as [-> | Hs].
  - assert (K1 : (1 <= k)%Z) by nia.
    assert (K2 : (2 * k - 1 < 2 ^ 53)%Z).
    { change (2 ^ 53)%Z with 9007199254740992%Z. nia. }
    assert (X : inject_Z n / inject_Z d == inject_Z (2 * k - 1) * (1 # 2)).
    { assert (E2 : (2 * n = (2 * k - 1) * d)%Z) by lia.
      apply (f_equal inject_Z) in E2. rewrite !inject_Z_mult in E2.
      change (inject_Z 2) with 2 in E2.
      apply (Qmult_inj_r _ _ (inject_Z d) Dne).
      setoid_replace (inject_Z n / inject_Z d * inject_Z d) with (inject_Z n)
        by (field; exact Dne).
      assert (E3 : 2 * inject_Z n == inject_Z (2 * k - 1) * inject_Z d)
        by (rewrite E2; reflexivity).
      lra. }
    assert (E : fl (inject_Z n / inject_Z d) == inject_Z n / inject_Z d).
    { apply (fl_exact _ (2 * k - 1) 1); [lia | lia |].
      rewrite X. change (inject_Z (2 ^ 1)) with 2. ring. }
    unfold div. rewrite E, X.
    setoid_replace (inject_Z (2 * k - 1) * (1 # 2) + (1 # 2)) with (inject_Z k).
    + apply Qfloor_Z.
    + unfold Z.sub. rewrite inject_Z_plus, inject_Z_mult, inject_Z_opp.
      change (inject_Z 2) with 2. change (inject_Z 1) with 1. ring.
  - destruct (div_bounds n d ltac:(lia) Hd) as [B1 B2].
    set (f := div (inject_Z n) (inject_Z d)) in *. clearbody f.
    assert (En : 2 * inject_Z n + inject_Z d == 2 * inject_Z d * inject_Z k + inject_Z s).
    { apply (f_equal inject_Z) in D.
      rewrite !inject_Z_plus, !inject_Z_mult in D.
      change (inject_Z 2) with 2 in D. now rewrite D. }
    assert (R1 : 1 <= inject_Z s).
    { change 1 with (inject_Z 1). rewrite <- Zle_Qle. lia. }
    assert (R2 : inject_Z s + 1 <= 2 * inject_Z d).
    { change 1 with (inject_Z 1). change 2 with (inject_Z 2).
      rewrite <- inject_Z_mult, <- inject_Z_plus, <- Zle_Qle. lia. }
    assert (N0 : 0 <= inject_Z n).
    { change 0 with (inject_Z 0). rewrite <- Zle_Qle. lia. }
    assert (N1 : inject_Z n < 4503599627370496).
    { change 4503599627370496 with (inject_Z 4503599627370496). rewrite <- Zlt_Qlt. lia. }
    unfold u in *.
    apply Qfloor_interval.
    + apply (Qmult_le_r _ _ (inject_Z d) HD). lra.
    + apply (Qmult_lt_r _ _ (inject_Z d) HD).
      rewrite inject_Z_plus. change (inject_Z 1) with 1. lra.
Qed.

End Rounding.

(* ================================================================== *)
(** * Sections and bullets of the AI report                            *)
(* ================================================================== *)

Module Bullets.
Import Js Report.

(** [s] holds no line feed. *)
Definition singleLine (s : string) : bool :=
  allOf (fun c => negb (Ascii.eqb c LF)) s.

(** [s] holds no backslash. *)
Definition noBackslash (s : string) : bool :=
  allOf (fun c => negb (Ascii.eqb c "\")) s.

(** A header line starts [s]: a line feed, an opening bracket, a non-empty
    name of letters and spaces, a closing bracket and a colon. *)
Definition HeaderLine (s : string) : Prop :=
  exists name rest,
    s = String LF (String "[" (name ++ "]:" ++ rest)) /\
    name <> EmptyString /\ allOf isHeaderChar name = true.

(** The section [body] of [txt] under the header [hdr]: [pre] holds no
    earlier header of the label, [ws] is the white space after the colon,
    and [body] runs up to the end of the text or to the first header line. *)
Record SectionAt (label txt pre hdr ws body next : string) : Prop := {
  section_text : txt = pre ++ hdr ++ ws ++ body ++ next;
  section_header : matchesCi ("[" ++ label ++ "]:") hdr = true;
  section_leftmost :
    forall p1 p2, pre = p1 ++ p2 -> p2 <> EmptyString ->
      stripPrefixCi ("[" ++ label ++ "]:") (p2 ++ hdr ++ ws ++ body ++ next) = None;
  section_space : allOf isWhiteSpace ws = true;
  section_start : startsWith isWhiteSpace body = false;
  section_inside :
    forall b1 b2, body = b1 ++ b2 -> b2 <> EmptyString -> ~ HeaderLine (b2 ++ next);
  section_end : next = EmptyString \/ (body <> EmptyString /\ HeaderLine next)
}.

Lemma allOf_app (f : ascii -> bool) (s t : string) :
  allOf f (s ++ t) = allOf f s && allOf f t.
Proof.
  induction s as [|c s IH]; cbn; [reflexivity|]. now rewrite IH, andb_assoc.
Qed.

Lemma skipWhiteSpace_allOf (f : ascii -> bool) (s : string) :
  allOf f s = true -> allOf f (skipWhiteSpace s) = true.
Proof.
  induction s as [|c s IH]; cbn; [reflexivity|].
  intros H. apply andb_true_iff in H. destruct H as [Hc Hs].
  destruct (isWhiteSpace c); [now apply IH | cbn; now rewrite Hc, Hs].
Qed.

Lemma trimEnd_allOf (f : ascii -> bool) (s : string) :
  allOf f s = true -> allOf f (trimEnd s) = true.
Proof.
  induction s as [|c s IH]; [reflexivity|].
  intros H. cbn [allOf] in H. apply andb_true_iff in H. destruct H as [Hc Hs].
  rewrite trimEnd_cons. specialize (IH Hs).
  destruct (trimEnd s) as [|c' r'].
  - destruct (isWhiteSpace c); cbn; [reflexivity | now rewrite Hc].
  - cbn [allOf] in *. now rewrite Hc, IH.
Qed.

Lemma trim_allOf (f : ascii -> bool) (s : string) :
  allOf f s = true -> allOf f (trim s) = true.
Proof. intros H. now apply trimEnd_allOf, skipWhiteSpace_allOf. Qed.

Lemma skipWhiteSpace_idem (s : string) :
  skipWhiteSpace (skipWhiteSpace s) = skipWhiteSpace s.
Proof.
  induction s as [|c s IH]; cbn; [reflexivity|].
  destruct (isWhiteSpace c) eqn:E; [exact IH | cbn; now rewrite E].
Qed.

Lemma trim_idem (s : string) : trim (trim s) = trim s.
Proof.
  unfold trim, trimStart.
  now rewrite skipWhiteSpace_trimEnd, skipWhiteSpace_idem, trimEnd_idem.
Qed.

Lemma splitLines_cons (c : ascii) (r : string) :
  splitLines (String c r)
  = if (code c =? 10)%N then EmptyString :: splitLines r
    else match splitLines r with
         | [] => [String c EmptyString]
         | l :: ls => String c l :: ls
         end.
Proof. reflexivity. Qed.

Lemma lineFeed_code (c : ascii) : (code c =? 10)%N = Ascii.eqb c LF.
Proof. destruct c as [[] [] [] [] [] [] [] []]; reflexivity. Qed.

Lemma splitLines_singleLine (s l : string) :
  In l (splitLines s) -> singleLine l = true.
Proof.
  revert l. induction s as [|c s IH]; intros l H.
  - cbn in H. destruct H as [<- | []]. reflexivity.
  - rewrite splitLines_cons in H. destruct (code c =? 10)%N eqn:E.
    + destruct H as [<- | H]; [reflexivity | now apply IH].
    + destruct (splitLines s) as [|l0 ls].
      * destruct H as [<- | []]. unfold singleLine; cbn.
        now rewrite <- lineFeed_code, E.
      * destruct H as [<- | H].
        -- unfold singleLine; cbn [allOf]. rewrite <- lineFeed_code, E.
           apply (IH l0). now left.
        -- apply IH. now right.
Qed.

Lemma splitLines_allOf (f : ascii -> bool) (s l : string) :
  allOf f s = true -> In l (splitLines s) -> allOf f l = true.
Proof.
  revert l. induction s as [|c s IH]; intros l A H.
  - cbn in H. destruct H as [<- | []]. reflexivity.
  - cbn [allOf] in A. apply andb_true_iff in A. destruct A as [Ac As].
    rewrite splitLines_cons in H. destruct (code c =? 10)%N.
    + destruct H as [<- | H]; [reflexivity | now apply IH].
    + destruct (splitLines s) as [|l0 ls].
      * destruct H as [<- | []]. cbn. now rewrite Ac.
      * destruct H as [<- | H].
        -- cbn [allOf]. rewrite Ac. apply (IH l0 As). now left.
        -- apply (IH l As). now right.
Qed.

Lemma dropLetterS_allOf (f : ascii -> bool) (s : string) :
  allOf f s = true -> allOf f (dropLetterS s) = true.
Proof.
  induction s as [|c s IH]; cbn; [reflexivity|].
  intros H. apply andb_true_iff in H. destruct H as [Hc Hs].
  destruct (Ascii.eqb c "s"); [now apply IH | cbn; now rewrite Hc, Hs].
Qed.

Lemma stripBulletPrefix_allOf (f : ascii -> bool) (s : string) :
  allOf f s = true -> allOf f (stripBulletPrefix s) = true.
Proof.
  intros H. unfold stripBulletPrefix.
  destruct s as [|c [|b r]]; try exact H.
  destruct (inBulletClass c && Ascii.eqb b "\"); [|exact H].
  cbn [allOf] in H. apply andb_true_iff in H. destruct H as [_ H].
  apply andb_true_iff in H. destruct H as [_ H]. now apply dropLetterS_allOf.
Qed.

Lemma stripBulletPrefix_noBackslash (s : string) :
  noBackslash s = true -> stripBulletPrefix s = s.
Proof.
  unfold noBackslash, stripBulletPrefix. intros H.
  destruct s as [|c [|b r]]; try reflexivity.
  cbn [allOf] in H. apply andb_true_iff in H. destruct H as [_ H].
  apply andb_true_iff in H. destruct H as [H _].
  apply negb_true_iff in H. rewrite H. now rewrite andb_false_r.
Qed.

Lemma parseBulletLine_allOf (f : ascii -> bool) (line : string) :
  allOf f line = true -> allOf f (text (parseBulletLine line)) = true.
Proof.
  intros H. unfold parseBulletLine.
  destruct (findEvidence line) as [[[pre tag] rest]|] eqn:F; cbn [text].
  - destruct (findEvidence_inv _ _ _ _ F) as (s & -> & (kw & ws & -> & _) & _).
    rewrite !allOf_app in H.
    repeat (apply andb_true_iff in H; destruct H as [? H]).
    apply trim_allOf, trimEnd_allOf. rewrite allOf_app. now apply andb_true_iff.
  - now apply trim_allOf, trimEnd_allOf.
Qed.

Lemma parseBulletLine_trimmed (line : string) :
  trim (text (parseBulletLine line)) = text (parseBulletLine line).
Proof.
  unfold parseBulletLine.
  destruct (findEvidence line) as [[[pre tag] rest]|]; cbn [text]; apply trim_idem.
Qed.

Lemma parseBulletLine_tag (line tag : string) :
  evidence (parseBulletLine line) = Some tag ->
  tag <> EmptyString /\ allOf isTagChar tag = true.
Proof.
  unfold parseBulletLine.
  destruct (findEvidence line) as [[[pre t] rest]|] eqn:F; cbn [evidence]; [|discriminate].
  intros E. injection E as ->.
  destruct (findEvidence_inv _ _ _ _ F) as (s & _ & (kw & ws & _ & _ & _ & Hne & Ht & _) & _).
  now split.
Qed.

Lemma skipHeaderChars_inv (s : string) :
  exists hs, s = hs ++ skipHeaderChars s /\ allOf isHeaderChar hs = true.
Proof.
  induction s as [|c s (hs & E & H)]; cbn.
  - exists "". now split.
  - destruct (isHeaderChar c) eqn:Ec.
    + exists (String c hs). cbn. rewrite Ec, H, <- E. now split.
    + exists "". now split.
Qed.

Lemma skipHeaderChars_app (hs rest : string) :
  allOf isHeaderChar hs = true ->
  skipHeaderChars (hs ++ String "]" rest) = String "]" rest.
Proof.
  induction hs as [|c hs IH]; cbn; intros H; [reflexivity|].
  apply andb_true_iff in H. destruct H as [Hc H]. rewrite Hc. now apply IH.
Qed.

Lemma headerAhead_HeaderLine (s : string) :
  headerAhead s = true <-> HeaderLine s.
Proof.
  unfold headerAhead, HeaderLine. split.
  - destruct s as [|nl [|br [|c r]]]; try discriminate.
    intros H. repeat (apply andb_true_iff in H; destruct H as [H ?]).
    apply Ascii.eqb_eq in H. subst nl.
    match goal with E : Ascii.eqb br _ = true |- _ => apply Ascii.eqb_eq in E; subst br end.
    destruct (skipHeaderChars_inv r) as (hs & Er & Hhs).
    destruct (skipHeaderChars r) as [|c1 [|c2 rest]]; try discriminate.
    match goal with E : _ && _ = true |- _ => apply andb_true_iff in E; destruct E as [E1 E2] end.
    apply Ascii.eqb_eq in E1, E2. subst c1 c2.
    exists (String c hs), rest. cbn [append]. rewrite Er at 1.
    split; [reflexivity|]. split; [discriminate|].
    cbn [allOf]. now apply andb_true_iff.
  - intros (name & rest & -> & Hne & Hn).
    destruct name as [|c hs]; [congruence|].
    cbn [allOf] in Hn. apply andb_true_iff in Hn. destruct Hn as [Hc Hhs].
    cbn [append]. rewrite !Ascii.eqb_refl, Hc. cbn [andb].
    rewrite (skipHeaderChars_app hs _ Hhs). reflexivity.
Qed.

Lemma afterHeader_leftmost (label pre : string) :
  forall hdr rest,
    matchesCi ("[" ++ label ++ "]:") hdr = true ->
    (forall p1 p2, pre = p1 ++ p2 -> p2 <> EmptyString ->
       stripPrefixCi ("[" ++ label ++ "]:") (p2 ++ hdr ++ rest) = None) ->
    afterHeader label (pre ++ hdr ++ rest) = Some rest.
Proof.
  induction pre as [|c pre IH]; intros hdr rest Hh L.
  - cbn [append]. pose proof (stripPrefixCi_app _ _ rest Hh) as E.
    destruct (hdr ++ rest); cbn [afterHeader]; now rewrite E.
  - pose proof (L "" (String c pre) eq_refl ltac:(discriminate)) as N.
    cbn [append] in N |- *. cbn [afterHeader]. cbn [append]. rewrite N.
    apply IH; [assumption|].
    intros p1 p2 -> Hne. apply (L (String c p1) p2); [reflexivity | assumption].
Qed.

Lemma lazyBody_body (body next : string) :
  (forall b1 b2, body = b1 ++ b2 -> b2 <> EmptyString -> ~ HeaderLine (b2 ++ next)) ->
  next = EmptyString \/ HeaderLine next ->
  lazyBody (body ++ next) = body.
Proof.
  induction body as [|c body IH]; intros Hin Hend.
  - cbn [append]. destruct Hend as [-> | H]; [reflexivity|].
    apply headerAhead_HeaderLine in H.
    destruct next; [reflexivity|]. cbn [lazyBody]. now rewrite H.
  - cbn [append lazyBody].
    assert (N : headerAhead (String c (body ++ next)) = false).
    { destruct (headerAhead _) eqn:E; [|reflexivity].
      exfalso. apply (Hin "" (String c body) eq_refl); [discriminate|].
      now apply headerAhead_HeaderLine. }
    rewrite N. f_equal. apply IH; [|assumption].
    intros b1 b2 -> Hne. apply (Hin (String c b1) b2); [reflexivity | assumption].
Qed.

(** X1.  The section a header introduces is the text between the white space
    after the header and the next header line (or the end of the text),
    without the white space at its end. *)
Theorem getSection_between (label txt pre hdr ws body next : string) :
  SectionAt label txt pre hdr ws body next ->
  getSection txt label = trimEnd body.
Proof.
  intros [-> Hh Hl Hws Hstart Hin Hend]. unfold getSection.
  rewrite (afterHeader_leftmost label pre hdr _ Hh Hl).
  assert (S : skipWhiteSpace (ws ++ body ++ next) = body ++ next).
  { destruct body as [|c body].
    - destruct Hend as [-> | [Hne _]]; [|congruence].
      cbn [append]. rewrite append_nil_r.
      clear -Hws. induction ws as [|c ws IH]; [reflexivity|].
      cbn in *. apply andb_true_iff in Hws. destruct Hws as [Hc Hws].
      rewrite Hc. now apply IH.
    - apply skipWhiteSpace_app; [assumption | exact Hstart]. }
  rewrite S, lazyBody_body; [| assumption | tauto].
  unfold trim, trimStart.
  destruct body as [|c body]; [reflexivity|].
  cbn [startsWith] in Hstart. cbn [skipWhiteSpace]. now rewrite Hstart.
Qed.

Lemma getSection_between_witness :
  getSection "[VERDICT]: HIRE
[STRENGTHS]:  Solid Python  
[RISKS]: None" "STRENGTHS"
  = "Solid Python".
Proof.
  apply (getSection_between "STRENGTHS" _ "[VERDICT]: HIRE
" "[STRENGTHS]:" "  " "Solid Python  " "
[RISKS]: None").
  constructor.
  - reflexivity.
  - reflexivity.
  - intros p1 p2 E Hne.
    do 16 (destruct p1 as [|? p1];
           [cbn in E; subst p2; reflexivity | cbn in E; injection E as <- E]).
    destruct p1; destruct p2; try discriminate; congruence.
  - reflexivity.
  - reflexivity.
  - intros b1 b2 E Hne H. apply headerAhead_HeaderLine in H. revert H.
    do 14 (destruct b1 as [|? b1];
           [cbn in E; subst b2; discriminate | cbn in E; injection E as <- E]).
    destruct b1; destruct b2; try discriminate; congruence.
  - right. split; [discriminate|]. now apply headerAhead_HeaderLine.
Defined.

(** X2.  Every bullet of a section is a single line without white space at
    either end; its evidence tag, when it has one, is a non-empty run of tag
    characters; and a section gives at most one bullet per line. *)
Theorem parseBullets_wellformed (section : string) :
  (List.length (parseBullets section) <= List.length (splitLines section))%nat /\
  forall b, In b (parseBullets section) ->
    trim (text b) = text b /\
    singleLine (text b) = true /\
    forall tag, evidence b = Some tag ->
      tag <> EmptyString /\ allOf isTagChar tag = true.
Proof.
  unfold parseBullets. split.
  - rewrite length_map.
    etransitivity; [apply filter_length_le|]. now rewrite length_map.
  - intros b H. apply in_map_iff in H. destruct H as (l' & <- & H).
    apply filter_In in H. destruct H as [H _].
    apply in_map_iff in H. destruct H as (l & <- & H).
    split; [apply parseBulletLine_trimmed|]. split.
    + apply parseBulletLine_allOf, trim_allOf, stripBulletPrefix_allOf.
      exact (splitLines_singleLine _ _ H).
    + apply parseBulletLine_tag.
Qed.

Lemma parseBullets_wellformed_witness :
  let b := {| text := "Two tab switches"; evidence := Some "integrity.events" |} in
  trim (text b) = text b /\ singleLine (text b) = true /\
  forall tag, evidence b = Some tag -> tag <> EmptyString /\ allOf isTagChar tag = true.
Proof.
  apply (proj2 (parseBullets_wellformed "Clean code
Two tab switches  EVIDENCE: integrity.events")).
  cbn. right. left. reflexivity.
Defined.

(** X3.  The bullet-prefix pattern of the source only removes a prefix that
    holds a backslash: in a section without backslashes every line is parsed
    as it stands (trimmed), so a leading dash stays in the text of its
    bullet. *)
Theorem parseBullets_keeps_prefix (section : string) :
  noBackslash section = true ->
  parseBullets section
  = map parseBulletLine (filter nonEmpty (map trim (splitLines section))).
Proof.
  intros H. unfold parseBullets. do 2 f_equal.
  apply map_ext_in. intros l Hl.
  now rewrite stripBulletPrefix_noBackslash by exact (splitLines_allOf _ _ _ H Hl).
Qed.

Lemma parseBullets_keeps_prefix_witness :
  parseBullets "- Solid Python
- Passed 4 of 5 tests"
  = [ {| text := "- Solid Python"; evidence := None |};
      {| text := "- Passed 4 of 5 tests"; evidence := None |} ].
Proof.
  rewrite parseBullets_keeps_prefix by reflexivity. reflexivity.
Defined.

(** X4.  Whatever the rationale, the parsed report has at least one strength
    and one risk and a non-empty summary without white space at its ends;
    the strengths and risks are bullet objects exactly when the rationale
    is a non-empty text. *)
Theorem parseAIReport_shape (txt : option string) :
  let r := parseAIReport txt in
  strengths r <> [] /\ risks r <> [] /\
  summary r <> EmptyString /\ trim (summary r) = summary r /\
  ((exists t, txt = Some t /\ t <> EmptyString) <->
   exists ss rs, strengths r = map Obj ss /\ risks r = map Obj rs).
Proof.
  cbv zeta.
  assert (D : forall xs d, exists ys, orDefault xs d = map Obj ys /\ ys <> []).
  { intros [|x xs] d; [exists [d] | exists (x :: xs)]; split; try reflexivity; discriminate. }
  destruct txt as [[|c t]|].
  - repeat split; try discriminate.
    + intros (t & E & Hne). congruence.
    + intros (ss & rs & E & _). destruct ss; discriminate.
  - cbn [parseAIReport strengths risks summary].
    destruct (D (parseBullets (getSection (String c t) "STRENGTHS")) defaultStrength)
      as (ss & -> & Hs).
    destruct (D (parseBullets (getSection (String c t) "RISKS")) defaultRisk)
      as (rs & -> & Hr).
    repeat split.
    + destruct ss; [congruence | discriminate].
    + destruct rs; [congruence | discriminate].
    + destruct (getSection _ "SUMMARY"); discriminate.
    + destruct (getSection (String c t) "SUMMARY") eqn:E; [reflexivity|].
      rewrite <- E. unfold getSection.
      destruct (afterHeader _ _); [apply trim_idem | reflexivity].
    + intros _. now exists ss, rs.
    + intros _. exists (String c t). split; [reflexivity | discriminate].
  - repeat split; try discriminate.
    + intros (t & E & _). discriminate.
    + intros (ss & rs & E & _). destruct ss; discriminate.
Qed.

End Bullets.

(* ================================================================== *)
(** * Strengths shown on the candidate report page                     *)
(* ================================================================== *)

Module Page.
Import Js Api Report Merge Consistency.

(** [const mergedStrengths = mergeStrengthsWithResume(
    parsedRationale.strengths, resumeSkills, resumeExperience)], computed on
    every render of a loaded candidate; [resumeExperience] is the
    [experience_zone] string of the parsed resume.  [None] is the
    [TypeError] that ends the render. *)
Definition mergedStrengths (c : CandidateDetail) (resumeExperience : string)
  : option (list BulletItem) :=
  mergeStrengthsWithResume (strengths (parseAIReport (ai_rationale c)))
    (resumeSkills c) resumeExperience.

(** The candidate that [handleApproveReset] stores once the request has
    succeeded, on the fields of the record: the scores, the recommendation,
    the rationale and the submissions are cleared, the resume is kept. *)
Definition handleApproveReset (c : CandidateDetail) : CandidateDetail :=
  {| technical_score := 0;
     hiring_recommendation := None;
     ai_rationale := None;
     submissions := [];
     resumeSkills := resumeSkills c;
     resumeExperienceYears := resumeExperienceYears c |}.

(** Every white-space character of [s] is a space, and no two spaces are
    adjacent. *)
Fixpoint singleSpaced (s : string) : bool :=
  match s with
  | EmptyString => true
  | String c r =>
      (negb (isWhiteSpace c) || Ascii.eqb c " ") &&
      negb (Ascii.eqb c " " && startsWith (Ascii.eqb " ") r) &&
      singleSpaced r
  end.

(** The snippet of an experience highlight: the text after the label. *)
Definition snippetOf (resumeExperience : string) : string :=
  let trimmed := trim (collapseWhiteSpace resumeExperience) in
  if (140 <? String.length trimmed)%nat then sliceTo 140 trimmed ++ "..."
  else trimmed.

Lemma forEachAdd_app (xs ys : list BulletItem) :
  forall st,
    forEachAdd st (xs ++ ys)
    = match forEachAdd st xs with
      | Some st' => forEachAdd st' ys
      | None => None
      end.
Proof.
  induction xs as [|x xs IH]; intros st; cbn [app forEachAdd]; [reflexivity|].
  destruct (add st x); [apply IH | reflexivity].
Qed.

(** X5.  The render of a loaded candidate throws exactly when the candidate has
    no rationale (null or the empty string): the placeholder strengths of
    [parseAIReport] are then bare strings, on which the merge reads
    [value.text.toLowerCase()].  In particular the render that follows an
    approved reset throws. *)
Theorem mergedStrengths_throws (c : CandidateDetail) (resumeExperience : string) :
  (mergedStrengths c resumeExperience = None <->
   ai_rationale c = None \/ ai_rationale c = Some EmptyString) /\
  mergedStrengths (handleApproveReset c) resumeExperience = None.
Proof.
  assert (P : forall skills, mergeStrengthsWithResume (strengths pendingReport)
                               skills resumeExperience = None).
  { intros skills. unfold mergeStrengthsWithResume. rewrite forEachAdd_app.
    destruct (forEachAdd_objects (resumeBullets skills resumeExperience)
                {| merged := []; normalized := [] |}) as (keys & ->).
    reflexivity. }
  split; [|apply P].
  unfold mergedStrengths. split.
  - destruct (ai_rationale c) as [[|ch t]|]; [now right | | now left].
    cbn [parseAIReport strengths].
    assert (D : exists ys, orDefault (parseBullets (getSection (String ch t) "STRENGTHS"))
                             defaultStrength = map Obj ys).
    { destruct (parseBullets _) as [|x xs]; [exists [defaultStrength] | exists (x :: xs)];
        reflexivity. }
    destruct D as (ys & ->). unfold mergeStrengthsWithResume. rewrite <- map_app.
    destruct (forEachAdd_objects (resumeBullets (resumeSkills c) resumeExperience ++ ys)
                {| merged := []; normalized := [] |}) as (keys & ->).
    discriminate.
  - intros [E | E]; rewrite E; apply P.
Qed.

Lemma String_length_app (s t : string) :
  String.length (s ++ t) = (String.length s + String.length t)%nat.
Proof. induction s as [|c s IH]; cbn; [reflexivity | now rewrite IH]. Qed.

Lemma sliceTo_length (n : nat) (s : string) : (String.length (sliceTo n s) <= n)%nat.
Proof.
  revert s. induction n as [|n IH]; intros [|c s]; cbn; try lia.
  specialize (IH s). lia.
Qed.

Lemma singleSpaced_cons (c : ascii) (r : string) :
  singleSpaced (String c r) = true <->
  (negb (isWhiteSpace c) || Ascii.eqb c " ") = true /\
  (Ascii.eqb c " " && startsWith (Ascii.eqb " ") r) = false /\
  singleSpaced r = true.
Proof.
  cbn [singleSpaced]. rewrite !andb_true_iff, negb_true_iff. tauto.
Qed.

Lemma startsWith_prefix (f : ascii -> bool) (s t : string) :
  s <> EmptyString -> startsWith f (s ++ t) = startsWith f s.
Proof. destruct s; [congruence | reflexivity]. Qed.

Lemma collapseFrom_spaced (s : string) :
  forall inRun,
    singleSpaced (collapseFrom inRun s) = true /\
    (inRun = true -> startsWith (Ascii.eqb " ") (collapseFrom inRun s) = false).
Proof.
  induction s as [|c s IH]; intros inRun; cbn [collapseFrom].
  - split; reflexivity.
  - destruct (isWhiteSpace c) eqn:Ec.
    + destruct (IH true) as [S1 S2]. destruct inRun.
      * split; [exact S1 | intros _; now apply S2].
      * split; [|discriminate].
        apply singleSpaced_cons. rewrite (S2 eq_refl), andb_false_r. now repeat split.
    + destruct (IH false) as [S1 _].
      assert (N : Ascii.eqb c " " = false).
      { destruct (Ascii.eqb_spec c " ") as [-> | _]; [discriminate Ec | reflexivity]. }
      split.
      * apply singleSpaced_cons. rewrite Ec, N. now repeat split.
      * intros _. cbn [startsWith]. now rewrite Ascii.eqb_sym.
Qed.

Lemma skipWhiteSpace_spaced (s : string) :
  singleSpaced s = true -> singleSpaced (skipWhiteSpace s) = true.
Proof.
  induction s as [|c s IH]; intros H; [reflexivity|].
  cbn [skipWhiteSpace]. destruct (isWhiteSpace c); [|exact H].
  apply IH. now apply singleSpaced_cons in H.
Qed.

Lemma startsWith_trimEnd (f : ascii -> bool) (s : string) :
  startsWith f s = false -> startsWith f (trimEnd s) = false.
Proof.
  destruct s as [|c s]; [reflexivity|]. rewrite trimEnd_cons. cbn [startsWith].
  intros H. destruct (trimEnd s); [destruct (isWhiteSpace c)|]; cbn [startsWith]; auto.
Qed.

Lemma trimEnd_spaced (s : string) :
  singleSpaced s = true -> singleSpaced (trimEnd s) = true.
Proof.
  induction s as [|c s IH]; intros H; [reflexivity|].
  apply singleSpaced_cons in H. destruct H as (H1 & H2 & H3).
  rewrite trimEnd_cons. specialize (IH H3).
  destruct (trimEnd s) as [|c' r'] eqn:E.
  - destruct (isWhiteSpace c) eqn:Ec; [reflexivity|].
    apply singleSpaced_cons. cbn [startsWith]. rewrite Ec, andb_false_r. now repeat split.
  - apply singleSpaced_cons. repeat split; [exact H1 | | exact IH].
    apply andb_false_iff in H2. apply andb_false_iff.
    destruct H2 as [H2 | H2]; [now left | right].
    rewrite <- E. now apply startsWith_trimEnd.
Qed.

Lemma startsWith_sliceTo (f : ascii -> bool) (n : nat) (s : string) :
  startsWith f s = false -> startsWith f (sliceTo n s) = false.
Proof. destruct n, s; cbn; auto. Qed.

Lemma sliceTo_spaced (n : nat) :
  forall s, singleSpaced s = true -> singleSpaced (sliceTo n s) = true.
Proof.
  induction n as [|n IH]; intros [|c s] H; try reflexivity.
  apply singleSpaced_cons in H. destruct H as (H1 & H2 & H3).
  cbn [sliceTo]. apply singleSpaced_cons. repeat split; [exact H1 | | now apply IH].
  apply andb_false_iff in H2. apply andb_false_iff.
  destruct H2 as [H2 | H2]; [now left | right]. now apply startsWith_sliceTo.
Qed.

Lemma spaced_dots (s : string) :
  singleSpaced s = true -> singleSpaced (s ++ "...") = true.
Proof.
  induction s as [|c s IH]; intros H; [reflexivity|].
  apply singleSpaced_cons in H. destruct H as (H1 & H2 & H3).
  cbn [append]. apply singleSpaced_cons. repeat split; [exact H1 | | now apply IH].
  destruct s as [|c' s']; [|exact H2].
  cbn [append startsWith]. change (Ascii.eqb " " ".") with false. apply andb_false_r.
Qed.

(** X6.  The experience highlight reads [Experience highlight: ] followed by a
    snippet of at most 143 characters in which every run of white space of
    the resume text has become one space; a text of at most 140 characters
    (after this clean-up) is shown in full, a longer one is cut after 140
    characters and marked by three dots. *)
Theorem experienceBullet_snippet (resumeExperience : string) :
  let cleaned := trim (collapseWhiteSpace resumeExperience) in
  text (experienceBullet resumeExperience)
  = "Experience highlight: " ++ snippetOf resumeExperience /\
  (String.length (snippetOf resumeExperience) <= 143)%nat /\
  singleSpaced (snippetOf resumeExperience) = true /\
  ((String.length cleaned <= 140)%nat -> snippetOf resumeExperience = cleaned) /\
  ((140 < String.length cleaned)%nat ->
   snippetOf resumeExperience = sliceTo 140 cleaned ++ "...").
Proof.
  cbv zeta. unfold snippetOf.
  set (cleaned := trim (collapseWhiteSpace resumeExperience)).
  assert (C : singleSpaced cleaned = true).
  { unfold cleaned, trim, trimStart, collapseWhiteSpace.
    apply trimEnd_spaced, skipWhiteSpace_spaced, collapseFrom_spaced. }
  split; [reflexivity|].
  destruct (Nat.ltb_spec 140 (String.length cleaned)) as [L | L]; repeat split.
  - rewrite String_length_app. pose proof (sliceTo_length 140 cleaned).
    change (String.length "...") with 3%nat. lia.
  - now apply spaced_dots, sliceTo_spaced.
  - intros H. lia.
  - lia.
  - exact C.
  - intros H. lia.
Qed.

Lemma experienceBullet_snippet_witness :
  snippetOf "Built   payment APIs
 at Acme " = "Built payment APIs at Acme".
Proof.
  apply (proj1 (proj2 (proj2 (proj2 (experienceBullet_snippet "Built   payment APIs
 at Acme "))))).
  vm_compute. repeat constructor.
Defined.

End Page.

(* ================================================================== *)
(** * The integrity timeline (candidate report page)                   *)
(* ================================================================== *)

Module Chart.
Import Js Binary64 Rationale Rounding.

Local Open Scope Z_scope.

(** [interface ProctoringLog], the fields the chart reads.  At run time
    [event_type] and [severity] may be missing: the page guards both reads
    ([log.event_type ? ... : 'Event'], [log.severity || '']). *)
Record ProctoringLog := {
  id : Z;
  event_type : option string;
  severity : option string;
  timestamp : string
}.

(** The value [severityToLevel[severityKey]] reads: a number, or what the
    object inherits from [Object.prototype] under that name. *)
Inductive Level :=
| Num (n : Z)
| InheritedValue (name : string).

(** [interface ChartDataPoint] *)
Record ChartDataPoint := {
  time : Z;
  level : Level;
  event : string;
  eventType : string;
  pointSeverity : string
}.

(** [const severityToLevel: Record<string, number>], its own properties. *)
Definition severityToLevel : list (string * Z) :=
  [ ("LOW", 1); ("MED", 2); ("MEDIUM", 2); ("HIGH", 3) ].

Fixpoint ownLevel (o : list (string * Z)) (key : string) : option Z :=
  match o with
  | [] => None
  | (k, v) :: rest => if String.eqb k key then Some v else ownLevel rest key
  end.

(** [severityToLevel[severityKey] ?? 1] *)
Definition levelOf (severityKey : string) : Level :=
  match ownLevel severityToLevel severityKey with
  | Some n => Num n
  | None =>
      if existsb (String.eqb severityKey) objectPrototypeKeys
      then InheritedValue severityKey
      else Num 1
  end.

(** [s.replace(/_/g, ' ')] *)
Fixpoint replaceUnderscores (s : string) : string :=
  match s with
  | EmptyString => EmptyString
  | String c r =>
      String (if Ascii.eqb c "_" then " "%char else c) (replaceUnderscores r)
  end.

(** [value || ''] followed by [String(...)], on a string that may be
    missing. *)
Definition orEmpty (value : option string) : string :=
  match value with Some s => s | None => EmptyString end.

Section Timeline.

(** [new Date(timestamp).getTime()]: the epoch milliseconds of a timestamp
    that parses.  Differences of such integers are exact in binary64.  A
    timestamp that does not parse gives NaN in the source, which then is the
    time of the point; it has no counterpart here, so what is proved about
    the times of the chart holds for logs whose timestamps parse. *)
Variable getTime : string -> Z.

Definition timeOf (log : ProctoringLog) : Z := getTime (timestamp log).

(** [[...logs].sort((a, b) => time(a) - time(b))].  The sort of the
    language is stable and the comparator orders the logs by their time, so
    the result is the stable ordering by time; it is computed here by
    inserting the logs one after the other, each behind the logs that are
    not later than it. *)
Fixpoint insertLog (x : ProctoringLog) (l : list ProctoringLog) : list ProctoringLog :=
  match l with
  | [] => [x]
  | y :: r => if timeOf x <? timeOf y then x :: l else y :: insertLog x r
  end.

Definition sortLogs (logs : list ProctoringLog) : list ProctoringLog :=
  fold_left (fun acc x => insertLog x acc) logs [].

(** [Math.max(0, Math.min(2700, Math.round((time - startTime) / 1000)))] *)
Definition elapsedSeconds (startTime t : Z) : Z :=
  Z.max 0 (Z.min 2700 (round (div (inject_Z (t - startTime)) 1000))).

(** The callback of [sortedLogs.map]. *)
Definition toPoint (startTime : Z) (log : ProctoringLog) : ChartDataPoint :=
  let severityKey := toUpperCase (orEmpty (severity log)) in
  {| time := elapsedSeconds startTime (timeOf log);
     level := levelOf severityKey;
     event := match event_type log with
              | None | Some EmptyString => "Event"
              | Some e => replaceUnderscores e
              end;
     eventType := toUpperCase (orEmpty (event_type log));
     pointSeverity := severityKey |}.

(** [function transformLogsToChartData(logs: ProctoringLog[])] *)
Definition transformLogsToChartData (logs : list ProctoringLog) : list ChartDataPoint :=
  match logs with
  | [] => []
  | _ =>
      let sortedLogs := sortLogs logs in
      match sortedLogs with
      | first :: _ => map (toPoint (timeOf first)) sortedLogs
      | [] => []
      end
  end.

(** [const highSeverityPoints = chartData.filter((d) => d.severity ===
    'HIGH')] *)
Definition highSeverityPoints (chartData : list ChartDataPoint) : list ChartDataPoint :=
  filter (fun d => String.eqb (pointSeverity d) "HIGH") chartData.

(** [const reason = getIntegrityRationale(data.eventType, data.severity)]
    of [renderIntegrityTooltip]. *)
Definition tooltipReason (data : ChartDataPoint) : Result :=
  getIntegrityRationale (Some (eventType data)) (pointSeverity data).

(** [const severity = data.severity === 'MEDIUM' ? 'MED' : data.severity]
    of [renderIntegrityTooltip]. *)
Definition tooltipSeverity (data : ChartDataPoint) : string :=
  if String.eqb (pointSeverity data) "MEDIUM" then "MED" else pointSeverity data.

(** The seconds from [startTime] to [t], rounded to the nearest second
    (half a second rounds up) and capped at 45 minutes. *)
Definition nearestSecond (startTime t : Z) : Z :=
  Z.min 2700 ((t - startTime + 500) / 1000).

Definition byTime (a b : ProctoringLog) : Prop := timeOf a <= timeOf b.

(** The logs of [logs] whose time is [t], in their order. *)
Definition atTime (t : Z) (logs : list ProctoringLog) : list ProctoringLog :=
  filter (fun l => timeOf l =? t) logs.

(** The point [p] shows the log [l] of a chart that starts at [startTime]:
    its time is the nearest second of the log's time, its severity and event
    type are those of the log in upper case, and its label is the event type
    of the log with spaces for underscores. *)
Definition Shows (startTime : Z) (p : ChartDataPoint) (l : ProctoringLog) : Prop :=
  time p = nearestSecond startTime (timeOf l) /\
  pointSeverity p = toUpperCase (orEmpty (severity l)) /\
  eventType p = toUpperCase (orEmpty (event_type l)) /\
  event p = match event_type l with
            | None | Some EmptyString => "Event"
            | Some e => replaceUnderscores e
            end.

Lemma insertLog_perm (x : ProctoringLog) (l : list ProctoringLog) :
  Permutation (insertLog x l) (x :: l).
Proof.
  induction l as [|y r IH]; cbn [insertLog]; [reflexivity|].
  destruct (timeOf x <? timeOf y); [reflexivity|].
  etransitivity; [apply perm_skip, IH | apply perm_swap].
Qed.

Lemma insertLog_sorted (x : ProctoringLog) (l : list ProctoringLog) :
  Sorted byTime l -> Sorted byTime (insertLog x l).
Proof.
  induction l as [|y r IH]; intros S; cbn [insertLog].
  - repeat constructor.
  - destruct (Z.ltb_spec (timeOf x) (timeOf y)) as [L | L].
    + constructor; [exact S|]. constructor. unfold byTime. lia.
    + inversion S as [|? ? S' H]; subst. constructor; [now apply IH|].
      destruct r as [|z r']; cbn [insertLog].
      * constructor. exact L.
      * destruct (timeOf x <? timeOf z); constructor; [exact L|].
        now inversion H.
Qed.

Lemma sortLogs_spec (logs : list ProctoringLog) :
  Permutation (sortLogs logs) logs /\ Sorted byTime (sortLogs logs).
Proof.
  unfold sortLogs.
  assert (G : forall acc, Sorted byTime acc ->
            Permutation.Permutation
              (fold_left (fun acc x => insertLog x acc) logs acc) (acc ++ logs)%list /\
            Sorted byTime (fold_left (fun acc x => insertLog x acc) logs acc)).
  { induction logs as [|x logs IH]; intros acc S; cbn [fold_left].
    - rewrite app_nil_r. now split.
    - destruct (IH (insertLog x acc) (insertLog_sorted x acc S)) as [P S'].
      split; [|exact S'].
      etransitivity; [exact P|].
      etransitivity; [apply Permutation_app_tail, insertLog_perm|].
      cbn [app]. apply Permutation_middle. }
  destruct (G [] (Sorted_nil _)) as [P S]. now split.
Qed.

Lemma filter_none {A : Type} (f : A -> bool) (l : list A) :
  Forall (fun x => f x = false) l -> filter f l = [].
Proof.
  induction 1 as [|x l Hx _ IH]; cbn [filter]; [reflexivity|]. now rewrite Hx.
Qed.

(** A log is inserted behind the logs of its own time. *)
Lemma insertLog_atTime (t : Z) (x : ProctoringLog) (l : list ProctoringLog) :
  Sorted byTime l -> atTime t (insertLog x l) = (atTime t l ++ atTime t [x])%list.
Proof.
  unfold atTime. induction l as [|y r IH]; intros S; cbn [insertLog].
  - reflexivity.
  - destruct (Z.ltb_spec (timeOf x) (timeOf y)) as [L | L].
    + assert (N : timeOf x = t ->
                  filter (fun l => timeOf l =? t) (y :: r) = []); [intros E|].
      { apply filter_none.
        assert (SS : StronglySorted byTime (y :: r)).
        { apply Sorted_StronglySorted; [|exact S]. intros a b c. unfold byTime. lia. }
        inversion SS as [|? ? _ H]; subst. constructor.
        -- apply Z.eqb_neq. lia.
        -- rewrite Forall_forall in *. intros z Hz. specialize (H z Hz).
           unfold byTime in H. apply Z.eqb_neq. lia. }
      set (l' := y :: r) in *. cbn [filter].
      destruct (Z.eqb_spec (timeOf x) t) as [E | E].
      * now rewrite (N E).
      * now rewrite app_nil_r.
    + inversion S as [|? ? S' _]; subst. cbn [filter]. rewrite (IH S').
      destruct (timeOf y =? t); reflexivity.
Qed.

(** The sort is stable: the logs of one time keep their order. *)
Lemma sortLogs_stable (t : Z) (logs : list ProctoringLog) :
  atTime t (sortLogs logs) = atTime t logs.
Proof.
  unfold sortLogs.
  assert (G : forall acc, Sorted byTime acc ->
            atTime t (fold_left (fun acc x => insertLog x acc) logs acc)
            = (atTime t acc ++ atTime t logs)%list).
  { induction logs as [|x logs IH]; intros acc S; cbn [fold_left].
    - unfold atTime. cbn [filter]. now rewrite app_nil_r.
    - rewrite (IH _ (insertLog_sorted x acc S)), insertLog_atTime by exact S.
      rewrite <- app_assoc. f_equal. unfold atTime. cbn [filter app].
      destruct (timeOf x =? t); reflexivity. }
  exact (G [] (Sorted_nil _)).
Qed.

Lemma elapsedSeconds_exact (startTime t : Z) :
  0 <= t - startTime < 2 ^ 52 ->
  elapsedSeconds startTime t = nearestSecond startTime t.
Proof.
  intros H. unfold elapsedSeconds, nearestSecond.
  change 1000%Q with (inject_Z 1000).
  rewrite (round_div (t - startTime) 1000 H) by lia.
  replace (2 * (t - startTime) + 1000) with ((t - startTime + 500) * 2) by lia.
  change (2 * 1000) with (1000 * 2).
  rewrite Z.div_mul_cancel_r by lia.
  assert (0 <= (t - startTime + 500) / 1000) by (apply Z.div_pos; lia).
  lia.
Qed.

Lemma nearestSecond_mono (startTime a b : Z) :
  a <= b -> nearestSecond startTime a <= nearestSecond startTime b.
Proof.
  intros H. unfold nearestSecond.
  apply Z.min_le_compat_l, Z.div_le_mono; lia.
Qed.

(** X7.  The chart has one point per log, in the stable order of their
    timestamps: the points show the logs sorted by time, the logs of one
    time keeping the order they have in the input.  The time of a point is
    the number of seconds from the earliest log to its log, rounded to the
    nearest second and capped at 2700, so it lies between 0 and 2700, the
    first point is at 0 and the times never decrease along the chart.  The
    timestamps are assumed to parse, to epoch milliseconds between 0 and
    [2^52]. *)
Theorem transformLogsToChartData_times (logs : list ProctoringLog) :
  Forall (fun l => 0 <= timeOf l < 2 ^ 52) logs ->
  let chartData := transformLogsToChartData logs in
  exists sortedLogs startTime,
    Permutation sortedLogs logs /\
    Sorted byTime sortedLogs /\
    (forall t, atTime t sortedLogs = atTime t logs) /\
    Forall (fun l => startTime <= timeOf l) logs /\
    (logs <> [] -> exists first, In first logs /\ timeOf first = startTime) /\
    Forall2 (Shows startTime) chartData sortedLogs /\
    map time chartData = map (fun l => nearestSecond startTime (timeOf l)) sortedLogs /\
    List.length chartData = List.length logs /\
    Forall (fun p => 0 <= time p <= 2700) chartData /\
    Sorted Z.le (map time chartData) /\
    (forall p rest, chartData = p :: rest -> time p = 0).
Proof.
  intros B. cbv zeta.
  destruct (sortLogs_spec logs) as [P S].
  unfold transformLogsToChartData.
  destruct logs as [|l0 logs'].
  - exists [], 0. repeat split; try constructor; try reflexivity.
    + intros H. congruence.
    + intros p rest H. discriminate.
  - set (logs := l0 :: logs') in *.
    destruct (sortLogs logs) as [|first rest] eqn:E.
    { apply Permutation_nil in P. discriminate. }
    set (startTime := timeOf first).
    assert (SS : StronglySorted byTime (first :: rest)).
    { apply Sorted_StronglySorted; [|exact S].
      intros a b c. unfold byTime. lia. }
    assert (M : Forall (fun l => startTime <= timeOf l) (first :: rest)).
    { inversion SS as [|? ? _ H]; subst. constructor; [unfold startTime; lia | exact H]. }
    assert (B' : Forall (fun l => 0 <= timeOf l < 2 ^ 52) (first :: rest)).
    { rewrite Forall_forall in *. intros l Hl. apply B.
      exact (Permutation_in l P Hl). }
    assert (T : map time (map (toPoint startTime) (first :: rest))
                = map (fun l => nearestSecond startTime (timeOf l)) (first :: rest)).
    { rewrite map_map. apply map_ext_in. intros l Hl. cbn [toPoint time].
      apply elapsedSeconds_exact.
      rewrite Forall_forall in M, B'.
      assert (B0 : 0 <= startTime < 2 ^ 52) by (apply (B' first); now left).
      specialize (M l Hl). specialize (B' l Hl).
      lia. }
    assert (F : Forall2 (Shows startTime) (map (toPoint startTime) (first :: rest))
                  (first :: rest)).
    { assert (G : forall ls, map time (map (toPoint startTime) ls)
                             = map (fun l => nearestSecond startTime (timeOf l)) ls ->
                  Forall2 (Shows startTime) (map (toPoint startTime) ls) ls).
      { induction ls as [|l ls IH]; cbn [map]; intros H; constructor.
        - injection H as H _. unfold Shows. cbn [toPoint pointSeverity eventType event].
          split; [exact H|]. now repeat split.
        - apply IH. now injection H. }
      exact (G _ T). }
    exists (first :: rest), startTime.
    split; [exact P|]. split; [exact S|].
    split; [intros t; rewrite <- E; apply sortLogs_stable|].
    split; [|split; [|split; [exact F|]]].
    { rewrite Forall_forall in *. intros l Hl. apply M.
      exact (Permutation_in l (Permutation_sym P) Hl). }
    { intros _. exists first. split; [|reflexivity].
      apply (Permutation_in first P). now left. }
    repeat split.
    + exact T.
    + rewrite length_map. exact (Permutation_length P).
    + apply Forall_forall. intros p Hp.
      apply in_map_iff in Hp. destruct Hp as (l & <- & Hl).
      cbn [toPoint time]. unfold elapsedSeconds. lia.
    + rewrite T. clear -SS.
      induction SS as [|a l SS IH H]; cbn [map]; [constructor|].
      constructor; [exact IH|].
      destruct l as [|b l']; cbn [map]; constructor.
      apply nearestSecond_mono. inversion H; subst. assumption.
    + intros p tl Hp. cbn [map] in Hp. injection Hp as <- _.
      cbn [toPoint time]. unfold elapsedSeconds, startTime.
      rewrite Z.sub_diag. reflexivity.
Qed.

Lemma toUpperCase_app (s t : string) :
  toUpperCase (s ++ t) = toUpperCase s ++ toUpperCase t.
Proof.
  induction s as [|c s IH]; cbn [append toUpperCase]; [reflexivity|].
  now rewrite IH, append_assoc.
Qed.

Lemma upperChar_idem (c : ascii) : toUpperCase (upperChar c) = upperChar c.
Proof. destruct c as [[] [] [] [] [] [] [] []]; reflexivity. Qed.

Lemma toUpperCase_idem (s : string) : toUpperCase (toUpperCase s) = toUpperCase s.
Proof.
  induction s as [|c s IH]; cbn [toUpperCase]; [reflexivity|].
  now rewrite toUpperCase_app, upperChar_idem, IH.
Qed.

Lemma levelOf_upper (s : string) :
  exists n, levelOf (toUpperCase s) = Num n /\ 1 <= n <= 3 /\
            (n = 3 <-> toUpperCase s = "HIGH").
Proof.
  unfold levelOf. rewrite upper_key_not_inherited.
  cbn [severityToLevel ownLevel].
  destruct (String.eqb_spec "LOW" (toUpperCase s)) as [<- | _].
  { exists 1. repeat split; try lia; discriminate. }
  destruct (String.eqb_spec "MED" (toUpperCase s)) as [<- | _].
  { exists 2. repeat split; try lia; discriminate. }
  destruct (String.eqb_spec "MEDIUM" (toUpperCase s)) as [<- | _].
  { exists 2. repeat split; try lia; discriminate. }
  destruct (String.eqb_spec "HIGH" (toUpperCase s)) as [<- | N].
  { exists 3. repeat split; lia. }
  exists 1. repeat split; try lia. intros E. congruence.
Qed.

(** X8.  Every point of the chart has a numeric level between 1 and 3, and the
    level is 3 exactly for the points marked as high severity: those whose
    severity reads HIGH in any letter case.  A missing or unknown severity
    gives level 1. *)
Theorem transformLogsToChartData_levels (logs : list ProctoringLog) :
  let chartData := transformLogsToChartData logs in
  forall p, In p chartData ->
    exists n, level p = Num n /\ 1 <= n <= 3 /\
      (n = 3 <-> In p (highSeverityPoints chartData)) /\
      (ownLevel severityToLevel (pointSeverity p) = None -> n = 1).
Proof.
  cbv zeta. intros p Hp. unfold highSeverityPoints.
  assert (G : exists l, p = toPoint (match sortLogs logs with
                                     | first :: _ => timeOf first
                                     | [] => 0
                                     end) l).
  { unfold transformLogsToChartData in Hp. destruct logs as [|l0 logs']; [contradiction|].
    destruct (sortLogs (l0 :: logs')) as [|first rest]; [contradiction|].
    apply in_map_iff in Hp. destruct Hp as (l & <- & _). now exists l. }
  destruct G as (l & ->). cbn [toPoint level pointSeverity].
  destruct (levelOf_upper (orEmpty (severity l))) as (n & E & B & H).
  exists n. split; [exact E|]. split; [exact B|]. split.
  - rewrite filter_In. cbn [toPoint pointSeverity]. rewrite String.eqb_eq. tauto.
  - intros N. unfold levelOf in E. rewrite N, upper_key_not_inherited in E. congruence.
Qed.

(** X9.  The tooltip of a point explains the event of its log: the rationale of
    the log's event type and of its severity in upper case (a missing event
    type or severity counting as the empty string), and a severity MEDIUM is
    labelled MED. *)
Theorem tooltip_of_log (startTime : Z) (log : ProctoringLog) :
  let data := toPoint startTime log in
  tooltipReason data
  = getIntegrityRationale (event_type log) (toUpperCase (orEmpty (severity log))) /\
  (exists s, tooltipReason data = Text s) /\
  (tooltipSeverity data = "MED" <->
   toUpperCase (orEmpty (severity log)) = "MED" \/
   toUpperCase (orEmpty (severity log)) = "MEDIUM").
Proof.
  cbv zeta. unfold tooltipReason, tooltipSeverity. cbn [toPoint eventType pointSeverity].
  assert (E : getIntegrityRationale (Some (toUpperCase (orEmpty (event_type log))))
                (toUpperCase (orEmpty (severity log)))
              = getIntegrityRationale (event_type log)
                  (toUpperCase (orEmpty (severity log)))).
  { unfold getIntegrityRationale. rewrite toUpperCase_idem.
    now destruct (event_type log). }
  split; [exact E|]. split.
  - apply getIntegrityRationale_text.
  - destruct (String.eqb_spec (toUpperCase (orEmpty (severity log))) "MEDIUM") as [-> | N].
    + split; [now right | reflexivity].
    + split; [now left | intros [H | H]; congruence].
Qed.

End Timeline.

(** Two timestamps and their epoch milliseconds. *)
Definition sampleTime (timestamp : string) : Z :=
  if String.eqb timestamp "2024-01-01T10:00:00.000Z" then 1704103200000
  else if String.eqb timestamp "2024-01-01T10:00:01.500Z" then 1704103201500
  else 0.

Definition sampleLogs : list ProctoringLog :=
  [ {| id := 1; event_type := Some "TAB_SWITCH"; severity := Some "high";
       timestamp := "2024-01-01T10:00:01.500Z" |};
    {| id := 2; event_type := Some "FACE_NOT_DETECTED"; severity := Some "LOW";
       timestamp := "2024-01-01T10:00:00.000Z" |} ].

Lemma transformLogsToChartData_times_witness :
  Forall (fun p => 0 <= time p <= 2700) (transformLogsToChartData sampleTime sampleLogs) /\
  Sorted Z.le (map time (transformLogsToChartData sampleTime sampleLogs)).
Proof.
  assert (H : Forall (fun l => 0 <= timeOf sampleTime l < 2 ^ 52) sampleLogs).
  { repeat constructor; vm_compute; congruence. }
  destruct (transformLogsToChartData_times sampleTime sampleLogs H)
    as (sortedLogs & startTime & _ & _ & _ & _ & _ & _ & _ & _ & B & S & _).
  split; [exact B | exact S].
Defined.

Lemma transformLogsToChartData_levels_witness :
  exists n,
    level {| time := 2; level := Num 3; event := "TAB SWITCH"; eventType := "TAB_SWITCH";
             pointSeverity := "HIGH" |} = Num n /\
    1 <= n <= 3.
Proof.
  destruct (transformLogsToChartData_levels sampleTime sampleLogs
              {| time := 2; level := Num 3; event := "TAB SWITCH"; eventType := "TAB_SWITCH";
                 pointSeverity := "HIGH" |})
    as (n & E & B & _).
  - vm_compute. right. left. reflexivity.
  - exists n. split; [exact E | exact B].
Defined.

End Chart.

(* ================================================================== *)
(** * Numbers as text                                                  *)
(* ================================================================== *)

Module Numbers.
Import Js Binary64 Rounding.

Local Open Scope Z_scope.

(** [Number.prototype.toString] on an integer of magnitude below [10^21]:
    its decimal digits, after a minus sign when it is negative. *)
Definition toString (z : Z) : string := NilZero.string_of_int (Z.to_int z).

Fixpoint repeatChar (n : nat) (c : ascii) : string :=
  match n with
  | O => EmptyString
  | S k => String c (repeatChar k c)
  end.

(** [s.padStart(targetLength, fill)] with a fill string of one character. *)
Definition padStart (targetLength : nat) (fill : ascii) (s : string) : string :=
  repeatChar (targetLength - String.length s) fill ++ s.

(** [Math.floor(n / d)] on integers. *)
Definition floorDiv (n d : Z) : Z := Qfloor (div (inject_Z n) (inject_Z d)).

(** The character of a decimal digit. *)
Definition digit (k : Z) : ascii := ascii_of_N (Z.to_N (48 + k)).

(** The two decimal digits of a number below 100. *)
Definition twoDigits (n : Z) : string :=
  String (digit (n / 10)) (String (digit (n mod 10)) EmptyString).

Lemma toString_inj (a b : Z) : toString a = toString b -> a = b.
Proof.
  unfold toString. intros H.
  assert (N : forall z, Z.to_int z <> Decimal.Pos Decimal.Nil /\
                        Z.to_int z <> Decimal.Neg Decimal.Nil).
  { intros z. split; intros E; pose proof (f_equal Z.of_int E) as E';
      rewrite DecimalZ.of_to in E'; cbn in E'; subst z; discriminate E. }
  pose proof (NilZero.isi (Z.to_int a) (proj1 (N a)) (proj2 (N a))) as Ea.
  pose proof (NilZero.isi (Z.to_int b) (proj1 (N b)) (proj2 (N b))) as Eb.
  rewrite H, Eb in Ea. injection Ea as E.
  apply (f_equal Z.of_int) in E. now rewrite !DecimalZ.of_to in E.
Qed.

Lemma range_forall (P : Z -> bool) (n : Z) :
  forallb P (range 0 n) = true -> forall k, 0 <= k < n -> P k = true.
Proof.
  intros H k Hk. rewrite forallb_forall in H. apply H.
  unfold range. apply in_map_iff. exists (Z.to_nat k). split; [lia|].
  apply in_seq. lia.
Qed.

Lemma padStart_twoDigits (n : Z) :
  0 <= n < 100 -> padStart 2 "0" (toString n) = twoDigits n.
Proof.
  intros H. apply String.eqb_eq.
  revert n H. apply range_forall. vm_compute. reflexivity.
Qed.

Lemma twoDigits_inj (a b : Z) :
  0 <= a < 100 -> 0 <= b < 100 -> twoDigits a = twoDigits b -> a = b.
Proof.
  intros Ha Hb E.
  assert (G : forallb (fun x => forallb (fun y =>
                implb (String.eqb (twoDigits x) (twoDigits y)) (x =? y))
                (range 0 100)) (range 0 100) = true) by (vm_compute; reflexivity).
  pose proof (range_forall _ _ G a Ha) as G1. cbv beta in G1.
  pose proof (range_forall _ _ G1 b Hb) as G2. cbv beta in G2.
  apply String.eqb_eq in E. rewrite E in G2. now apply Z.eqb_eq.
Qed.

Lemma append_inj (s1 s2 t1 t2 : string) :
  String.length t1 = String.length t2 -> s1 ++ t1 = s2 ++ t2 -> s1 = s2 /\ t1 = t2.
Proof.
  assert (L : forall s t, String.length (s ++ t) = (String.length s + String.length t)%nat).
  { induction s as [|c s IH]; intros t; cbn; [reflexivity | now rewrite IH]. }
  revert s2. induction s1 as [|c s1 IH]; intros [|c2 s2] Hl E; cbn [append] in E.
  - now split.
  - exfalso. apply (f_equal String.length) in E. cbn [String.length] in E.
    rewrite L in E. lia.
  - exfalso. apply (f_equal String.length) in E. cbn [String.length] in E.
    rewrite L in E. lia.
  - injection E as <- E. destruct (IH s2 Hl E) as [-> ->]. now split.
Qed.

Lemma floorDiv_exact (n d : Z) :
  0 <= n < 2 ^ 53 -> 0 < d -> floorDiv n d = n / d.
Proof. intros Hn Hd. unfold floorDiv. now apply floor_div. Qed.

End Numbers.

(* ================================================================== *)
(** * Axis ticks and durations (candidate report page)                 *)
(* ================================================================== *)

Module Axis.
Import Js Binary64 Rounding Numbers.

Local Open Scope Z_scope.

(** [const tickStep = span <= 60 ? 5 : span <= 180 ? 10 : ...] *)
Definition tickStepFor (span : Z) : Z :=
  if span <=? 60 then 5
  else if span <=? 180 then 10
  else if span <=? 300 then 30
  else if span <=? 900 then 60
  else if span <=? 1800 then 120
  else if span <=? 3600 then 300
  else 600.

(** The loop [for (let tick = Math.ceil(start); tick <= end; tick +=
    tickStep) ticks.push(Math.round(tick))] on integers, where [Math.ceil]
    and [Math.round] change nothing; [fuel] bounds the number of rounds. *)
Fixpoint ticksLoop (fuel : nat) (tick end_ tickStep : Z) : list Z :=
  match fuel with
  | O => []
  | S fuel' =>
      if tick <=? end_ then tick :: ticksLoop fuel' (tick + tickStep) end_ tickStep
      else []
  end.

(** [const resolveTimeTicks = (start: number, end: number) => ...] on the
    integer seconds the zoom of the chart passes to it.  The step is at least
    5, so [end - start + 1] rounds are enough for the loop. *)
Definition resolveTimeTicks (start end_ : Z) : list Z :=
  let span := Z.max 1 (end_ - start) in
  let tickStep := tickStepFor span in
  let ticks := ticksLoop (Z.to_nat (end_ - start + 1)) start end_ tickStep in
  match ticks with
  | [] => [start; end_]
  | _ => ticks
  end.

(** [const formatDuration = (seconds: number) => ...] *)
Definition formatDuration (seconds : Q) : string :=
  let total := Z.max 0 (round seconds) in
  let mins := floorDiv total 60 in
  let secs := Z.rem total 60 in
  toString mins ++ ":" ++ padStart 2 "0" (toString secs).

(** The [n] numbers [first], [first + step], [first + 2 * step], ... *)
Definition progression (first step : Z) (n : nat) : list Z :=
  map (fun i => first + Z.of_nat i * step) (seq 0 n).

Lemma tickStepFor_pos (span : Z) : 5 <= tickStepFor span <= 600.
Proof.
  unfold tickStepFor.
  repeat match goal with |- context [if ?b then _ else _] => destruct b end; lia.
Qed.

Lemma progression_S (first step : Z) (n : nat) :
  progression first step (S n) = first :: progression (first + step) step n.
Proof.
  unfold progression. cbn [seq map]. f_equal; [lia|].
  rewrite <- seq_shift, map_map. apply map_ext. intros i. lia.
Qed.

(** With enough fuel the loop stops because the tick has passed [end_]:
    it yields the ticks [tick], [tick + step], ... that are at most
    [end_], whatever the fuel. *)
Lemma ticksLoop_spec (end_ step : Z) (fuel : nat) :
  0 < step -> forall tick,
    (Z.to_nat (end_ - tick + 1) <= fuel)%nat ->
    ticksLoop fuel tick end_ step
    = progression tick step
        (if tick <=? end_ then Z.to_nat ((end_ - tick) / step + 1) else 0%nat).
Proof.
  intros Hs. induction fuel as [|fuel IH]; intros tick Hf.
  - destruct (Z.leb_spec tick end_); [lia | reflexivity].
  - cbn [ticksLoop]. destruct (Z.leb_spec tick end_) as [L | L]; [|reflexivity].
    rewrite IH by lia.
    assert (Q0 : 0 <= (end_ - tick) / step) by (apply Z.div_pos; lia).
    replace (Z.to_nat ((end_ - tick) / step + 1))
      with (S (Z.to_nat ((end_ - tick) / step))) by lia.
    rewrite progression_S. f_equal. f_equal.
    destruct (Z.leb_spec (tick + step) end_) as [L' | L'].
    + replace (end_ - tick) with ((end_ - (tick + step)) + 1 * step) by lia.
      rewrite Z.div_add by lia. lia.
    + rewrite Z.div_small by lia. reflexivity.
Qed.

Lemma progression_length (first step : Z) (n : nat) :
  List.length (progression first step n) = n.
Proof. unfold progression. now rewrite length_map, length_seq. Qed.

Lemma progression_In (first step : Z) (n : nat) (t : Z) :
  In t (progression first step n) <->
  exists i, (i < n)%nat /\ t = first + Z.of_nat i * step.
Proof.
  unfold progression. rewrite in_map_iff. split.
  - intros (i & <- & Hi). apply in_seq in Hi. exists i. split; [lia | reflexivity].
  - intros (i & Hi & ->). exists i. split; [reflexivity | apply in_seq; lia].
Qed.

Lemma resolveTimeTicks_progression (start end_ : Z) :
  start <= end_ ->
  resolveTimeTicks start end_
  = progression start (tickStepFor (Z.max 1 (end_ - start)))
      (Z.to_nat ((end_ - start) / tickStepFor (Z.max 1 (end_ - start)) + 1)).
Proof.
  intros L. pose proof (tickStepFor_pos (Z.max 1 (end_ - start))) as Hs.
  assert (Q0 : 0 <= (end_ - start) / tickStepFor (Z.max 1 (end_ - start)))
    by (apply Z.div_pos; lia).
  unfold resolveTimeTicks. rewrite ticksLoop_spec by lia.
  destruct (Z.leb_spec start end_); [|lia].
  replace (Z.to_nat ((end_ - start) / tickStepFor (Z.max 1 (end_ - start)) + 1))
    with (S (Z.to_nat ((end_ - start) / tickStepFor (Z.max 1 (end_ - start))))) by lia.
  now rewrite progression_S.
Qed.

(** A window of at most one hour has at most 19 ticks. *)
Lemma tick_count (span : Z) :
  0 <= span <= 3600 -> 0 <= span / tickStepFor (Z.max 1 span) <= 18.
Proof.
  intros H. pose proof (tickStepFor_pos (Z.max 1 span)) as Hs.
  split; [apply Z.div_pos; lia|].
  apply Z.div_le_upper_bound; [lia|].
  unfold tickStepFor in *.
  repeat match goal with
         | |- context [Z.leb ?a ?b] => destruct (Z.leb_spec a b)
         end; lia.
Qed.

(** The ticks of a window [start <= end] lie in the window. *)
Lemma resolveTimeTicks_inside (start end_ t : Z) :
  start <= end_ -> In t (resolveTimeTicks start end_) -> start <= t <= end_.
Proof.
  intros L Ht. rewrite resolveTimeTicks_progression in Ht by exact L.
  pose proof (tickStepFor_pos (Z.max 1 (end_ - start))) as Hs.
  pose proof (Z.div_mod (end_ - start) (tickStepFor (Z.max 1 (end_ - start)))
                ltac:(lia)) as D.
  pose proof (Z.mod_pos_bound (end_ - start) (tickStepFor (Z.max 1 (end_ - start)))
                ltac:(lia)) as B.
  assert (Q0 : 0 <= (end_ - start) / tickStepFor (Z.max 1 (end_ - start)))
    by (apply Z.div_pos; lia).
  set (step := tickStepFor (Z.max 1 (end_ - start))) in *.
  set (q := (end_ - start) / step) in *.
  apply progression_In in Ht. destruct Ht as (i & Hi & ->). nia.
Qed.

(** X10.  For a window [start <= end] the ticks are [start], [start + step],
    [start + 2 * step], ... up to the last one that is at most [end]: there is
    at least one tick, every tick lies in the window, the window extends less
    than one step beyond the last tick, and a window of at most one hour has
    at most 19 ticks.  For an empty window ([end < start]) the two bounds are
    returned.  The bounds are integers of magnitude at most [2^52], on which
    the additions of the loop are exact. *)
Theorem resolveTimeTicks_spec (start end_ : Z) :
  - 2 ^ 52 <= start <= 2 ^ 52 -> - 2 ^ 52 <= end_ <= 2 ^ 52 ->
  let step := tickStepFor (Z.max 1 (end_ - start)) in
  (start <= end_ ->
   let n := Z.to_nat ((end_ - start) / step + 1) in
   resolveTimeTicks start end_ = progression start step n /\
   (1 <= n)%nat /\
   (forall t, In t (resolveTimeTicks start end_) -> start <= t <= end_) /\
   end_ - step < start + (Z.of_nat n - 1) * step /\
   (end_ - start <= 3600 -> (n <= 19)%nat)) /\
  (end_ < start -> resolveTimeTicks start end_ = [start; end_]).
Proof.
  intros _ _. cbv zeta. pose proof (tickStepFor_pos (Z.max 1 (end_ - start))) as Hs.
  split.
  - intros L.
    assert (Q0 : 0 <= (end_ - start) / tickStepFor (Z.max 1 (end_ - start)))
      by (apply Z.div_pos; lia).
    pose proof (Z.div_mod (end_ - start) (tickStepFor (Z.max 1 (end_ - start)))
                  ltac:(lia)) as D.
    pose proof (Z.mod_pos_bound (end_ - start) (tickStepFor (Z.max 1 (end_ - start)))
                  ltac:(lia)) as B.
    split; [now apply resolveTimeTicks_progression|]. split; [lia|]. split; [|split].
    + intros t. now apply resolveTimeTicks_inside.
    + set (step := tickStepFor (Z.max 1 (end_ - start))) in *.
      set (q := (end_ - start) / step) in *. nia.
    + intros H. pose proof (tick_count (end_ - start) ltac:(lia)). lia.
  - intros L. unfold resolveTimeTicks.
    replace (Z.to_nat (end_ - start + 1)) with 0%nat by lia. reflexivity.
Qed.

Lemma resolveTimeTicks_spec_witness :
  resolveTimeTicks 120 300 = [120; 130; 140; 150; 160; 170; 180; 190; 200; 210;
                              220; 230; 240; 250; 260; 270; 280; 290; 300] /\
  resolveTimeTicks 300 120 = [300; 120].
Proof.
  pose proof (resolveTimeTicks_spec 120 300 ltac:(lia) ltac:(lia)) as [H _].
  pose proof (resolveTimeTicks_spec 300 120 ltac:(lia) ltac:(lia)) as [_ H'].
  split.
  - rewrite (proj1 (H ltac:(lia))). reflexivity.
  - apply H'. lia.
Defined.

Lemma rem_nonneg (a b : Z) : 0 <= a -> 0 < b -> Z.rem a b = a mod b.
Proof. intros. apply Z.rem_mod_nonneg; lia. Qed.

Lemma formatDuration_shape (seconds : Q) :
  round seconds < 2 ^ 53 ->
  formatDuration seconds
  = toString (Z.max 0 (round seconds) / 60) ++ ":" ++
    twoDigits (Z.max 0 (round seconds) mod 60).
Proof.
  intros H. unfold formatDuration.
  set (total := Z.max 0 (round seconds)).
  assert (T : 0 <= total < 2 ^ 53) by (unfold total; lia).
  rewrite floorDiv_exact by lia.
  rewrite rem_nonneg by lia.
  rewrite padStart_twoDigits; [reflexivity|].
  pose proof (Z.mod_pos_bound total 60 ltac:(lia)). lia.
Qed.

(** X11.  A duration is shown as its whole minutes, a colon, and its seconds on
    two digits, after rounding to the nearest second; a negative duration is
    shown as [0:00]; and two durations are shown alike only when they round
    to the same second.  The durations are assumed to be below [2^53]
    seconds. *)
Theorem formatDuration_spec (seconds : Q) :
  round seconds < 2 ^ 53 ->
  let total := Z.max 0 (round seconds) in
  formatDuration seconds = toString (total / 60) ++ ":" ++ twoDigits (total mod 60) /\
  (round seconds <= 0 -> formatDuration seconds = "0:00") /\
  (forall seconds',
     round seconds' < 2 ^ 53 ->
     formatDuration seconds = formatDuration seconds' ->
     total = Z.max 0 (round seconds')).
Proof.
  intros H. cbv zeta. split; [now apply formatDuration_shape|]. split.
  - intros N. rewrite formatDuration_shape by assumption.
    replace (Z.max 0 (round seconds)) with 0 by lia. reflexivity.
  - intros seconds' H' E.
    rewrite !formatDuration_shape in E by assumption.
    set (a := Z.max 0 (round seconds)) in *.
    set (b := Z.max 0 (round seconds')) in *.
    assert (Ha : 0 <= a) by (unfold a; lia).
    assert (Hb : 0 <= b) by (unfold b; lia).
    apply append_inj in E; [|reflexivity].
    destruct E as [E1 E2]. apply toString_inj in E1.
    injection E2 as E2 E3.
    pose proof (Z.mod_pos_bound a 60 ltac:(lia)) as Ba.
    pose proof (Z.mod_pos_bound b 60 ltac:(lia)) as Bb.
    assert (M : a mod 60 = b mod 60).
    { apply twoDigits_inj; [lia | lia |]. unfold twoDigits. now rewrite E2, E3. }
    rewrite (Z.div_mod a 60), (Z.div_mod b 60) by lia. now rewrite E1, M.
Qed.

Lemma formatDuration_spec_witness :
  formatDuration (1254 # 10) = "2:05" /\ formatDuration (- (3)) = "0:00".
Proof.
  split.
  - rewrite (proj1 (formatDuration_spec (1254 # 10) ltac:(vm_compute; reflexivity))).
    reflexivity.
  - apply (proj1 (proj2 (formatDuration_spec (- (3)) ltac:(vm_compute; reflexivity)))).
    vm_compute. discriminate.
Defined.

End Axis.

(* ================================================================== *)
(** * The zoom of the integrity timeline (candidate report page)       *)
(* ================================================================== *)

Module Zoom.
Import Chart Axis.

Local Open Scope Z_scope.

(** [zoomStart] and [zoomEnd] of the page. *)
Record State := {
  zoomStart : option Z;
  zoomEnd : option Z
}.

(** [useState<number | null>(null)], twice. *)
Definition initialState : State := {| zoomStart := None; zoomEnd := None |}.

(** The range the brush passes to [onChange]; the indices may be
    undefined. *)
Record BrushRange := {
  startIndex : option nat;
  endIndex : option nat
}.

(** [onChange] of the brush, over the chart data of the render. *)
Definition onBrushChange (chartData : list ChartDataPoint) (range : option BrushRange)
  (st : State) : State :=
  match range with
  | Some {| startIndex := Some s; endIndex := Some e |} =>
      match nth_error chartData s, nth_error chartData e with
      | Some startPoint, Some endPoint =>
          {| zoomStart := Some (Z.min (time startPoint) (time endPoint));
             zoomEnd := Some (Z.max (time startPoint) (time endPoint)) |}
      | _, _ => st
      end
  | _ => initialState
  end.

(** [onClick] of the button that resets the zoom. *)
Definition resetZoom (st : State) : State := initialState.

(** [const visibleStart = zoomStart ?? 0] *)
Definition visibleStart (st : State) : Z :=
  match zoomStart st with Some s => s | None => 0 end.

(** [const visibleEnd = zoomEnd ?? 2700] *)
Definition visibleEnd (st : State) : Z :=
  match zoomEnd st with Some e => e | None => 2700 end.

(** [const timeTicks = Array.from({ length: 16 }, (_, index) => index *
    180)] *)
Definition timeTicks : list Z := map (fun index => Z.of_nat index * 180) (seq 0 16).

(** [ticks={zoomStart !== null && zoomEnd !== null ? visibleTicks :
    timeTicks}] of the time axis, whose domain is [[visibleStart,
    visibleEnd]]. *)
Definition axisTicks (st : State) : list Z :=
  match zoomStart st, zoomEnd st with
  | Some _, Some _ => resolveTimeTicks (visibleStart st) (visibleEnd st)
  | _, _ => timeTicks
  end.

(** What changes the zoom: the brush, moved over the chart of the logs the
    page holds at that moment, and the reset button. *)
Inductive Input :=
| Brush (logs : list ProctoringLog) (range : option BrushRange)
| ResetZoom.

Section Timeline.

Variable getTime : string -> Z.

Definition step (st : State) (i : Input) : State :=
  match i with
  | Brush logs range => onBrushChange (transformLogsToChartData getTime logs) range st
  | ResetZoom => resetZoom st
  end.

Definition run (st : State) (inputs : list Input) : State := fold_left step inputs st.

(** The logs the brush is moved over have timestamps that parse, to epoch
    milliseconds between 0 and [2^52] (a timestamp that does not parse would
    give a chart point, and then a zoom bound, that is NaN). *)
Definition parsed (i : Input) : Prop :=
  match i with
  | Brush logs _ => Forall (fun l => 0 <= timeOf getTime l < 2 ^ 52) logs
  | ResetZoom => True
  end.

(** The zoom is unset, or a window inside the 45 minutes of the chart. *)
Definition inChart (st : State) : Prop :=
  match zoomStart st, zoomEnd st with
  | None, None => True
  | Some s, Some e => 0 <= s <= e /\ e <= 2700
  | _, _ => False
  end.

Lemma chart_times (logs : list ProctoringLog) (k : nat) (p : ChartDataPoint) :
  nth_error (transformLogsToChartData getTime logs) k = Some p -> 0 <= time p <= 2700.
Proof.
  intros H. apply nth_error_In in H. unfold transformLogsToChartData in H.
  destruct logs as [|l0 logs']; [contradiction|].
  destruct (sortLogs getTime (l0 :: logs')) as [|first rest]; [contradiction|].
  apply in_map_iff in H. destruct H as (l & <- & _).
  cbn [toPoint time]. unfold elapsedSeconds. lia.
Qed.

Lemma step_inChart (st : State) (i : Input) : inChart st -> inChart (step st i).
Proof.
  intros H. destruct i as [logs [[[s|] [e|]]|] |]; cbn [step onBrushChange resetZoom];
    try exact I.
  destruct (nth_error _ s) as [sp|] eqn:Es; [|exact H].
  destruct (nth_error _ e) as [ep|] eqn:Ee; [|exact H].
  pose proof (chart_times _ _ _ Es). pose proof (chart_times _ _ _ Ee).
  unfold inChart. cbn [zoomStart zoomEnd]. lia.
Qed.

Lemma run_inChart (inputs : list Input) :
  forall st, inChart st -> inChart (run st inputs).
Proof.
  induction inputs as [|i inputs IH]; intros st H; [exact H|].
  cbn [run fold_left]. apply IH. now apply step_inChart.
Qed.

Lemma timeTicks_In (t : Z) : In t timeTicks -> 0 <= t <= 2700.
Proof.
  unfold timeTicks. rewrite in_map_iff. intros (i & <- & Hi).
  apply in_seq in Hi. lia.
Qed.

(** X28.  However the brush is moved, over logs whose timestamps parse, and the
    zoom reset, the zoom bounds are both set or both unset; the window shown
    is [0, 2700] when they are unset and a window inside it otherwise; and
    the time axis carries between 1 and 19 ticks, all of them inside the
    window shown. *)
Theorem axis_ticks_in_window (inputs : list Input) :
  Forall parsed inputs ->
  let st := run initialState inputs in
  (zoomStart st = None <-> zoomEnd st = None) /\
  0 <= visibleStart st <= visibleEnd st /\ visibleEnd st <= 2700 /\
  (zoomStart st = None -> visibleStart st = 0 /\ visibleEnd st = 2700) /\
  (1 <= List.length (axisTicks st) <= 19)%nat /\
  (forall t, In t (axisTicks st) -> visibleStart st <= t <= visibleEnd st).
Proof.
  intros _. cbv zeta. pose proof (run_inChart inputs initialState I) as H.
  set (st := run initialState inputs) in *. unfold inChart in H.
  unfold axisTicks. unfold visibleStart, visibleEnd.
  destruct (zoomStart st) as [s|], (zoomEnd st) as [e|]; try contradiction.
  - destruct H as [H1 H2].
    split; [split; discriminate|]. split; [lia|]. split; [lia|].
    split; [discriminate|]. split.
    + rewrite resolveTimeTicks_progression by lia. rewrite progression_length.
      pose proof (tick_count (e - s) ltac:(lia)). lia.
    + intros t. apply resolveTimeTicks_inside. lia.
  - split; [tauto|]. split; [lia|]. split; [lia|]. split; [now split|]. split.
    + cbn. lia.
    + apply timeTicks_In.
Qed.

End Timeline.

Lemma axis_ticks_in_window_witness :
  let st := run sampleTime initialState
              [Brush sampleLogs (Some {| startIndex := Some 1%nat; endIndex := Some 0%nat |})] in
  0 <= visibleStart st <= visibleEnd st /\ visibleEnd st <= 2700.
Proof.
  cbv zeta.
  assert (H : Forall (parsed sampleTime)
                [Brush sampleLogs
                   (Some {| startIndex := Some 1%nat; endIndex := Some 0%nat |})]).
  { repeat constructor; vm_compute; congruence. }
  destruct (axis_ticks_in_window sampleTime _ H) as (_ & A & B & _).
  split; [exact A | exact B].
Defined.

End Zoom.

(* ================================================================== *)
(** * Behavioural answers (assessment page)                            *)
(* ================================================================== *)

Module Answers.
Import Js.

Local Open Scope Z_scope.

(** [{ label: string; value: string }] of a multiple-choice question. *)
Record Choice := { label : string; value : string }.

(** [MOCK_QUESTIONS[3].options] *)
Definition deadlineOptions : list Choice :=
  [ {| label := "A";
       value := "Work overtime and weekends to try to meet the original deadline, even if it means cutting corners on testing." |};
    {| label := "B";
       value := "Immediately inform your manager about the situation and propose a revised timeline with proper fix." |};
    {| label := "C";
       value := "Implement a quick workaround to meet the deadline, and plan to fix it properly in the next sprint." |};
    {| label := "D";
       value := "Delegate the bug fix to a colleague while you focus on other deliverables." |} ].

(** The state the behavioural answers live in: the multiple-choice answer
    of question 3 and the written answer of question 4. *)
Record State := {
  selectedOption : option string;
  mcqSubmitted : bool;
  textResponse : string;
  textSubmitted : bool
}.

Definition initialState : State :=
  {| selectedOption := None; mcqSubmitted := false;
     textResponse := EmptyString; textSubmitted := false |}.

(** [pat] starts [s]. *)
Fixpoint isPrefix (pat s : string) : bool :=
  match pat, s with
  | EmptyString, _ => true
  | String p pat', String c s' => Ascii.eqb p c && isPrefix pat' s'
  | String _ _, EmptyString => false
  end.

(** [s.includes(pat)] *)
Fixpoint includes (s pat : string) : bool :=
  isPrefix pat s ||
  match s with
  | EmptyString => false
  | String _ r => includes r pat
  end.

(** [handleMCQSelect] *)
Definition handleMCQSelect (v : string) (st : State) : State :=
  if mcqSubmitted st then st
  else {| selectedOption := Some v; mcqSubmitted := mcqSubmitted st;
          textResponse := textResponse st; textSubmitted := textSubmitted st |}.

(** [handleMCQSubmit]; an empty selection is falsy. *)
Definition handleMCQSubmit (st : State) : State :=
  match selectedOption st with
  | None | Some EmptyString => st
  | Some _ =>
      {| selectedOption := selectedOption st; mcqSubmitted := true;
         textResponse := textResponse st; textSubmitted := textSubmitted st |}
  end.

(** [onChange={(e) => !textSubmitted && setTextResponse(e.target.value)}]
    of the text area. *)
Definition handleTextChange (v : string) (st : State) : State :=
  if textSubmitted st then st
  else {| selectedOption := selectedOption st; mcqSubmitted := mcqSubmitted st;
          textResponse := v; textSubmitted := textSubmitted st |}.

(** [handleTextSubmit] *)
Definition handleTextSubmit (st : State) : State :=
  if (50 <=? String.length (textResponse st))%nat
  then {| selectedOption := selectedOption st; mcqSubmitted := mcqSubmitted st;
          textResponse := textResponse st; textSubmitted := true |}
  else st.

(** [calculateBehavioralScore] *)
Definition calculateBehavioralScore (st : State) : Z :=
  let score := 0 in
  let score :=
    if mcqSubmitted st &&
       match selectedOption st with
       | Some v => includes v "Immediately inform your manager"
       | None => false
       end
    then score + 50 else score in
  let score :=
    if textSubmitted st && (50 <? String.length (textResponse st))%nat
    then score + 50 else score in
  score.

(** The callback of [recognitionRef.current.onresult] while question 4 is
    the current question: [setTextResponse((prev) => prev + ' ' +
    transcript)], whether the answer has been submitted or not. *)
Definition handleSpeechResult (transcript : string) (st : State) : State :=
  {| selectedOption := selectedOption st; mcqSubmitted := mcqSubmitted st;
     textResponse := textResponse st ++ " " ++ transcript;
     textSubmitted := textSubmitted st |}.

(** What reaches the two behavioural answers: the clicks and key strokes of
    the candidate, and the results of a running speech recognition. *)
Inductive Input :=
| MCQSelect (v : string)
| MCQSubmit
| TextChange (v : string)
| TextSubmit
| SpeechResult (transcript : string).

Definition step (st : State) (i : Input) : State :=
  match i with
  | MCQSelect v => handleMCQSelect v st
  | MCQSubmit => handleMCQSubmit st
  | TextChange v => handleTextChange v st
  | TextSubmit => handleTextSubmit st
  | SpeechResult transcript => handleSpeechResult transcript st
  end.

Definition run (st : State) (inputs : list Input) : State := fold_left step inputs st.

(** What the speech results among [inputs] append to the written answer. *)
Fixpoint spoken (inputs : list Input) : string :=
  match inputs with
  | [] => EmptyString
  | SpeechResult transcript :: rest => " " ++ transcript ++ spoken rest
  | _ :: rest => spoken rest
  end.

(** The points of the two answers. *)
Definition mcqPoints (st : State) : Z :=
  if mcqSubmitted st &&
     match selectedOption st with
     | Some v => includes v "Immediately inform your manager"
     | None => false
     end
  then 50 else 0.

Definition textPoints (st : State) : Z :=
  if textSubmitted st && (50 <? String.length (textResponse st))%nat then 50 else 0.

(** X12.  The behavioural score is 0, 50 or 100: 50 points for a submitted
    multiple-choice answer that contains the key phrase, which among the
    options of question 3 is option B alone, and 50 points for a submitted
    text of more than 50 characters. *)
Theorem calculateBehavioralScore_spec (st : State) :
  calculateBehavioralScore st = mcqPoints st + textPoints st /\
  (calculateBehavioralScore st = 0 \/ calculateBehavioralScore st = 50 \/
   calculateBehavioralScore st = 100) /\
  (forall o, In o deadlineOptions ->
     (includes (value o) "Immediately inform your manager" = true <-> label o = "B")).
Proof.
  split; [|split].
  - unfold calculateBehavioralScore, mcqPoints, textPoints.
    destruct (mcqSubmitted st && _); destruct (textSubmitted st && _); reflexivity.
  - unfold calculateBehavioralScore.
    destruct (mcqSubmitted st && _); destruct (textSubmitted st && _); cbn; auto.
  - intros o H. cbn in H.
    destruct H as [<- | [<- | [<- | [<- | []]]]]; vm_compute; split; congruence.
Qed.

Lemma calculateBehavioralScore_spec_witness :
  includes "Immediately inform your manager about the situation and propose a revised timeline with proper fix."
    "Immediately inform your manager" = true.
Proof.
  apply (proj2 (proj2 (calculateBehavioralScore_spec initialState))
           {| label := "B";
              value := "Immediately inform your manager about the situation and propose a revised timeline with proper fix." |}).
  - cbn. right. left. reflexivity.
  - reflexivity.
Defined.

Lemma run_locked (inputs : list Input) :
  forall st,
    (mcqSubmitted st = true ->
     mcqSubmitted (run st inputs) = true /\
     selectedOption (run st inputs) = selectedOption st) /\
    (textSubmitted st = true ->
     textSubmitted (run st inputs) = true /\
     textResponse (run st inputs) = textResponse st ++ spoken inputs).
Proof.
  induction inputs as [|i inputs IH]; intros st.
  { cbn [run fold_left spoken]. rewrite append_nil_r. now split. }
  cbn [run fold_left]. fold (run (step st i) inputs).
  destruct (IH (step st i)) as [IH1 IH2]. split; intros H.
  - assert (S : mcqSubmitted (step st i) = true /\
                selectedOption (step st i) = selectedOption st).
    { destruct st as [so ms tr ts]. cbn in H. subst ms.
      destruct i; unfold step, handleMCQSelect, handleMCQSubmit, handleTextChange,
        handleTextSubmit, handleSpeechResult; cbn;
        repeat match goal with
               | |- context [match ?x with _ => _ end] => destruct x
               end; cbn; now split. }
    destruct S as [S1 S2]. destruct (IH1 S1) as [-> ->]. now split.
  - assert (S : textSubmitted (step st i) = true /\
                textResponse (step st i) ++ spoken inputs
                = textResponse st ++ spoken (i :: inputs)).
    { destruct st as [so ms tr ts]. cbn in H. subst ts.
      destruct i; unfold step, handleMCQSelect, handleMCQSubmit, handleTextChange,
        handleTextSubmit, handleSpeechResult; cbn [spoken];
        cbn [textSubmitted textResponse mcqSubmitted selectedOption];
        repeat match goal with
               | |- context [match ?x with _ => _ end] => destruct x
               end; cbn [textSubmitted textResponse];
        try (now split).
      split; [reflexivity|]. now rewrite !append_assoc. }
    destruct S as [S1 S2]. destruct (IH2 S1) as [-> ->]. now split.
Qed.

Lemma length_append (s t : string) :
  String.length (s ++ t) = (String.length s + String.length t)%nat.
Proof. induction s as [|c s IH]; cbn; [reflexivity | now rewrite IH]. Qed.

(** X13.  A written answer can be submitted from 50 characters on, but it earns
    its points only above 50 characters.  Once submitted it stays submitted,
    and clicks and key strokes no longer change it; only the results of a
    speech recognition that is still running are appended to it.  So an
    answer submitted with exactly 50 characters earns nothing, unless
    dictation adds to it after the submission: then it earns the 50
    points. *)
Theorem text_of_fifty_characters (st : State) (inputs : list Input) :
  textSubmitted st = false ->
  String.length (textResponse st) = 50%nat ->
  let st' := run (handleTextSubmit st) inputs in
  textSubmitted (handleTextSubmit st) = true /\
  textPoints (handleTextSubmit st) = 0 /\
  textSubmitted st' = true /\
  textResponse st' = textResponse st ++ spoken inputs /\
  textPoints st' = (if String.eqb (spoken inputs) EmptyString then 0 else 50).
Proof.
  intros Hs Hl. cbv zeta.
  assert (E : handleTextSubmit st
              = {| selectedOption := selectedOption st; mcqSubmitted := mcqSubmitted st;
                   textResponse := textResponse st; textSubmitted := true |}).
  { unfold handleTextSubmit. now rewrite Hl. }
  destruct (run_locked inputs (handleTextSubmit st)) as [_ L].
  rewrite E in *. cbn [textSubmitted textResponse] in L.
  destruct (L eq_refl) as [L1 L2].
  split; [reflexivity|]. split.
  { unfold textPoints. cbn [textSubmitted textResponse]. now rewrite Hl. }
  split; [exact L1|]. split; [exact L2|].
  unfold textPoints. rewrite L1, L2, length_append, Hl.
  destruct (spoken inputs) as [|c r]; reflexivity.
Qed.

Lemma text_of_fifty_characters_witness :
  let st := {| selectedOption := None; mcqSubmitted := false;
               textResponse := "I listened first and then summarised each concern.";
               textSubmitted := false |} in
  textPoints (run (handleTextSubmit st) [TextChange "a longer answer"; TextSubmit]) = 0 /\
  textPoints (run (handleTextSubmit st) [SpeechResult "again"]) = 50.
Proof.
  cbv zeta. split.
  - apply (text_of_fifty_characters
             {| selectedOption := None; mcqSubmitted := false;
                textResponse := "I listened first and then summarised each concern.";
                textSubmitted := false |}
             [TextChange "a longer answer"; TextSubmit]); reflexivity.
  - apply (text_of_fifty_characters
             {| selectedOption := None; mcqSubmitted := false;
                textResponse := "I listened first and then summarised each concern.";
                textSubmitted := false |}
             [SpeechResult "again"]); reflexivity.
Defined.

(** X14.  A submitted multiple-choice answer is locked: nothing that reaches the
    page afterwards changes the selection or its points. *)
Theorem mcq_answer_locked (st : State) (inputs : list Input) :
  mcqSubmitted st = true ->
  selectedOption (run st inputs) = selectedOption st /\
  mcqSubmitted (run st inputs) = true /\
  mcqPoints (run st inputs) = mcqPoints st.
Proof.
  intros H. destruct (run_locked inputs st) as [L _].
  destruct (L H) as [L1 L2]. repeat split; try assumption.
  unfold mcqPoints. now rewrite L1, L2, H.
Qed.

Lemma mcq_answer_locked_witness :
  let st := {| selectedOption := Some "Delegate the bug fix to a colleague while you focus on other deliverables.";
               mcqSubmitted := true; textResponse := EmptyString;
               textSubmitted := false |} in
  mcqPoints (run st [MCQSelect "Immediately inform your manager about the situation and propose a revised timeline with proper fix."; MCQSubmit]) = 0.
Proof.
  cbv zeta.
  rewrite (proj2 (proj2 (mcq_answer_locked
     {| selectedOption := Some "Delegate the bug fix to a colleague while you focus on other deliverables.";
        mcqSubmitted := true; textResponse := EmptyString; textSubmitted := false |}
     [MCQSelect "Immediately inform your manager about the situation and propose a revised timeline with proper fix."; MCQSubmit]
     eq_refl))).
  reflexivity.
Defined.

End Answers.

(* ================================================================== *)
(** * Questions, runs and saved answers (assessment page)              *)
(* ================================================================== *)

Module Questions.
Import Js Api Harness.

Local Open Scope Z_scope.

Inductive QuestionType := coding | psychometric | text | logic.

(** The keys of [MOCK_QUESTIONS] and the [type] of each question; the [id]
    of a question is its key. *)
Definition MOCK_QUESTIONS (questionId : Z) : option QuestionType :=
  match questionId with
  | 1 => Some coding
  | 2 => Some coding
  | 3 => Some psychometric
  | 4 => Some text
  | 5 => Some logic
  | _ => None
  end.

(** [(MOCK_QUESTIONS[questionId] as CodingQuestion).starterCode] *)
Definition starterCode (questionId : Z) : string :=
  match questionId with
  | 1 => "def solution(s):
    # Write your code here
    pass
"
  | 2 => "def solution(values, pos):
    # Build a linked list from values and use pos to create a cycle.
    # Return True if a cycle exists, otherwise False.
    pass
"
  | _ => EmptyString
  end.

(** [interface CodeHistoryEntry] *)
Record CodeHistoryEntry := { timestamp : Z; snapshot : string }.

(** An entry of [answers]: [{ code?: string; testResults?:
    CodeSubmitResponse }]. *)
Record Answer := {
  answerCode : option string;
  answerResults : option ExecutionReport
}.

(** [interface CodeSubmitRequest], without the test cases of the
    question. *)
Record CodeSubmitRequest := {
  request_code : string;
  question_id : Z;
  candidate_id : Z;
  code_history : list CodeHistoryEntry;
  request_breakdown : CharBreakdown;
  chat_response : option string
}.

(** The state of the component that the handlers below read and write,
    and the submissions handed to [assessmentApi.submit] so far (oldest
    first). *)
Record State := {
  candidateId : option Z;
  currentQuestionId : Z;
  code : string;
  testResults : option ExecutionReport;
  answers : Z -> option Answer;
  completedQuestions : Z -> bool;
  isSubmitting : bool;
  showChatbot : bool;
  chatResponse : string;
  chatSubmitted : bool;
  mcqSubmitted : bool;
  textSubmitted : bool;
  logicSubmitted : bool;
  codeHistory : list CodeHistoryEntry;
  charBreakdown : CharBreakdown;
  submitted : list CodeSubmitRequest
}.

Definition initialState : State :=
  {| candidateId := None;
     currentQuestionId := 1;
     code := starterCode 1;
     testResults := None;
     answers := fun _ => None;
     completedQuestions := fun _ => false;
     isSubmitting := false;
     showChatbot := false;
     chatResponse := EmptyString;
     chatSubmitted := false;
     mcqSubmitted := false;
     textSubmitted := false;
     logicSubmitted := false;
     codeHistory := [];
     charBreakdown := {| typed := 0; pasted := 0 |};
     submitted := [] |}.

(** [{ ...prev, [key]: value }] *)
Definition assign {A : Type} (prev : Z -> A) (key : Z) (v : A) : Z -> A :=
  fun k => if k =? key then v else prev k.

(** [{ ...prev[questionId], code }] *)
Definition withCode (prev : option Answer) (c : string) : Answer :=
  {| answerCode := Some c;
     answerResults := match prev with Some a => answerResults a | None => None end |}.

(** [{ ...prev[questionId], code, testResults: response }] *)
Definition withResults (prev : option Answer) (c : string) (r : ExecutionReport) : Answer :=
  {| answerCode := Some c; answerResults := Some r |}.

(** The state after [setCurrentQuestionId], [setCode], [setTestResults]
    and [setAnswers]. *)
Definition moveTo (st : State) (questionId : Z) (c : string)
  (r : option ExecutionReport) (a : Z -> option Answer) : State :=
  {| candidateId := candidateId st;
     currentQuestionId := questionId;
     code := c;
     testResults := r;
     answers := a;
     completedQuestions := completedQuestions st;
     isSubmitting := isSubmitting st;
     showChatbot := showChatbot st;
     chatResponse := chatResponse st;
     chatSubmitted := chatSubmitted st;
     mcqSubmitted := mcqSubmitted st;
     textSubmitted := textSubmitted st;
     logicSubmitted := logicSubmitted st;
     codeHistory := codeHistory st;
     charBreakdown := charBreakdown st;
     submitted := submitted st |}.

(** [handleQuestionSwitch(questionId)].  [None] is the [TypeError] of
    reading [.type] of a question that does not exist; the buttons of the
    page pass the identifiers 1 to 5. *)
Definition handleQuestionSwitch (questionId : Z) (st : State) : option State :=
  match MOCK_QUESTIONS (currentQuestionId st), MOCK_QUESTIONS questionId with
  | Some current, Some next =>
      let answers' :=
        match current with
        | coding =>
            assign (answers st) (currentQuestionId st)
              (Some (withCode (answers st (currentQuestionId st)) (code st)))
        | _ => answers st
        end in
      let savedAnswer := answers st questionId in
      match next with
      | coding =>
          let c := match savedAnswer with
                   | Some {| answerCode := Some c |} => c
                   | _ => starterCode questionId
                   end in
          let r := match savedAnswer with
                   | Some a => answerResults a
                   | None => None
                   end in
          Some (moveTo st questionId c r answers')
      | _ => Some (moveTo st questionId (code st) None answers')
      end
  | _, _ => None
  end.

(** [onChange={(value) => setCode(value || '')}] of the editor. *)
Definition handleCodeChange (v : option string) (st : State) : State :=
  moveTo st (currentQuestionId st)
    (match v with Some c => c | None => EmptyString end)
    (testResults st) (answers st).

(** The state after [setShowChatbot]. *)
Definition setShowChatbot (b : bool) (st : State) : State :=
  {| candidateId := candidateId st;
     currentQuestionId := currentQuestionId st;
     code := code st;
     testResults := testResults st;
     answers := answers st;
     completedQuestions := completedQuestions st;
     isSubmitting := isSubmitting st;
     showChatbot := b;
     chatResponse := chatResponse st;
     chatSubmitted := chatSubmitted st;
     mcqSubmitted := mcqSubmitted st;
     textSubmitted := textSubmitted st;
     logicSubmitted := logicSubmitted st;
     codeHistory := codeHistory st;
     charBreakdown := charBreakdown st;
     submitted := submitted st |}.

(** The callback of the interval of the code-history effect, which runs
    while a coding question is shown: [setCodeHistory((prev) => [...prev,
    { timestamp: Date.now(), code }])]. *)
Definition captureHistory (now : Z) (st : State) : State :=
  match MOCK_QUESTIONS (currentQuestionId st) with
  | Some coding =>
      {| candidateId := candidateId st;
         currentQuestionId := currentQuestionId st;
         code := code st;
         testResults := testResults st;
         answers := answers st;
         completedQuestions := completedQuestions st;
         isSubmitting := isSubmitting st;
         showChatbot := showChatbot st;
         chatResponse := chatResponse st;
         chatSubmitted := chatSubmitted st;
         mcqSubmitted := mcqSubmitted st;
         textSubmitted := textSubmitted st;
         logicSubmitted := logicSubmitted st;
         codeHistory := codeHistory st ++ [{| timestamp := now; snapshot := code st |}];
         charBreakdown := charBreakdown st;
         submitted := submitted st |}
  | _ => st
  end.

(** The state after [setChatResponse], [setChatSubmitted] and
    [setShowChatbot]. *)
Definition setChat (response : string) (isSubmitted shown : bool) (st : State) : State :=
  {| candidateId := candidateId st;
     currentQuestionId := currentQuestionId st;
     code := code st;
     testResults := testResults st;
     answers := answers st;
     completedQuestions := completedQuestions st;
     isSubmitting := isSubmitting st;
     showChatbot := shown;
     chatResponse := response;
     chatSubmitted := isSubmitted;
     mcqSubmitted := mcqSubmitted st;
     textSubmitted := textSubmitted st;
     logicSubmitted := logicSubmitted st;
     codeHistory := codeHistory st;
     charBreakdown := charBreakdown st;
     submitted := submitted st |}.

(** [handleChatSubmit], once the request that saves the answer has
    settled: an answer that is not blank is marked as submitted and the
    chatbot is closed. *)
Definition handleChatSubmit (st : State) : State :=
  match trim (chatResponse st) with
  | EmptyString => st
  | _ => setChat (chatResponse st) true false st
  end.

(** The candidate when [candidateId] is truthy: [!candidateId] holds for
    [null] and for 0. *)
Definition known (candidateId : option Z) : option Z :=
  match candidateId with
  | None | Some 0 => None
  | Some candidate => Some candidate
  end.

(** [fetchUser], once [authApi.me()] has answered: [if
    (user.candidate_id) setCandidateId(user.candidate_id)]. *)
Definition fetchUser (candidate_id : option Z) (st : State) : State :=
  match known candidate_id with
  | Some candidate =>
      {| candidateId := Some candidate;
         currentQuestionId := currentQuestionId st;
         code := code st;
         testResults := testResults st;
         answers := answers st;
         completedQuestions := completedQuestions st;
         isSubmitting := isSubmitting st;
         showChatbot := showChatbot st;
         chatResponse := chatResponse st;
         chatSubmitted := chatSubmitted st;
         mcqSubmitted := mcqSubmitted st;
         textSubmitted := textSubmitted st;
         logicSubmitted := logicSubmitted st;
         codeHistory := codeHistory st;
         charBreakdown := charBreakdown st;
         submitted := submitted st |}
  | None => st
  end.

(** The effect that sets the first question from the parameter of the
    URL, [questionId] being [parseInt(id, 10)] when it is a number. *)
Definition initialQuestion (questionId : Z) (st : State) : State :=
  match MOCK_QUESTIONS questionId with
  | Some coding => moveTo st questionId (starterCode questionId) (testResults st) (answers st)
  | Some _ => moveTo st questionId (code st) (testResults st) (answers st)
  | None => st
  end.

(** The two updates of [setCharBreakdown] in the content listener of the
    editor, for the characters it counted as pasted and as typed. *)
Definition countChars (pastedChars typedChars : Z) (st : State) : State :=
  {| candidateId := candidateId st;
     currentQuestionId := currentQuestionId st;
     code := code st;
     testResults := testResults st;
     answers := answers st;
     completedQuestions := completedQuestions st;
     isSubmitting := isSubmitting st;
     showChatbot := showChatbot st;
     chatResponse := chatResponse st;
     chatSubmitted := chatSubmitted st;
     mcqSubmitted := mcqSubmitted st;
     textSubmitted := textSubmitted st;
     logicSubmitted := logicSubmitted st;
     codeHistory := codeHistory st;
     charBreakdown := {| typed := if 0 <? typedChars then typed (charBreakdown st) + typedChars
                                   else typed (charBreakdown st);
                          pasted := if 0 <? pastedChars then pasted (charBreakdown st) + pastedChars
                                    else pasted (charBreakdown st) |};
     submitted := submitted st |}.

(** What [handleRunTests] keeps of the render it was created in for the
    time after [await assessmentApi.submit(...)]. *)
Record Pending := { pendingQuestionId : Z; pendingCode : string }.

(** The request of [handleRunTests]. *)
Definition requestOf (candidate now : Z) (st : State) : CodeSubmitRequest :=
  {| request_code := code st;
     question_id := currentQuestionId st;
     candidate_id := candidate;
     code_history := codeHistory st ++ [{| timestamp := now; snapshot := code st |}];
     request_breakdown := charBreakdown st;
     chat_response := if chatSubmitted st then Some (chatResponse st) else None |}.

(** [handleRunTests] up to the [await]: the guards, the chatbot intercept
    of question 2, then [setIsSubmitting(true)], [setTestResults(null)] and
    the request. *)
Definition handleRunTests (now : Z) (st : State) : State * option Pending :=
  match known (candidateId st), MOCK_QUESTIONS (currentQuestionId st) with
  | Some candidate, Some coding =>
      if (currentQuestionId st =? 2) && negb (chatSubmitted st) && negb (showChatbot st)
      then (setShowChatbot true st, None)
      else
        ({| candidateId := candidateId st;
            currentQuestionId := currentQuestionId st;
            code := code st;
            testResults := None;
            answers := answers st;
            completedQuestions := completedQuestions st;
            isSubmitting := true;
            showChatbot := showChatbot st;
            chatResponse := chatResponse st;
            chatSubmitted := chatSubmitted st;
            mcqSubmitted := mcqSubmitted st;
            textSubmitted := textSubmitted st;
            logicSubmitted := logicSubmitted st;
            codeHistory := codeHistory st;
            charBreakdown := charBreakdown st;
            submitted := submitted st ++ [requestOf candidate now st] |},
         Some {| pendingQuestionId := currentQuestionId st; pendingCode := code st |})
  | _, _ => (st, None)
  end.

(** [handleRunTests] after the [await]: [response] is the answer of the
    server, [None] when the request failed. *)
Definition settleRunTests (p : Pending) (response : option ExecutionReport) (st : State)
  : State :=
  let r := match response with Some r => r | None => errorResult end in
  {| candidateId := candidateId st;
     currentQuestionId := currentQuestionId st;
     code := code st;
     testResults := Some r;
     answers :=
       assign (answers st) (pendingQuestionId p)
         (Some (withResults (answers st (pendingQuestionId p)) (pendingCode p) r));
     completedQuestions :=
       match response with
       | Some r' =>
           if is_passed r' then assign (completedQuestions st) (pendingQuestionId p) true
           else completedQuestions st
       | None => completedQuestions st
       end;
     isSubmitting := false;
     showChatbot := showChatbot st;
     chatResponse := chatResponse st;
     chatSubmitted := chatSubmitted st;
     mcqSubmitted := mcqSubmitted st;
     textSubmitted := textSubmitted st;
     logicSubmitted := logicSubmitted st;
     codeHistory := codeHistory st;
     charBreakdown := charBreakdown st;
     submitted := submitted st |}.

Inductive QuestionStatus := completed | pending.

(** [getQuestionStatus(qId)] *)
Definition getQuestionStatus (qId : Z) (st : State) : QuestionStatus :=
  let storedResults :=
    if qId =? currentQuestionId st then testResults st
    else match answers st qId with Some a => answerResults a | None => None end in
  if ((qId =? 1) || (qId =? 2)) &&
     (completedQuestions st qId ||
      match storedResults with Some r => is_passed r | None => false end)
  then completed
  else if (qId =? 3) && mcqSubmitted st then completed
  else if (qId =? 4) && textSubmitted st then completed
  else if (qId =? 5) && logicSubmitted st then completed
  else pending.

(** What happens on the page between two renders, as far as the state
    above is concerned. *)
Inductive Input :=
| Switch (questionId : Z)
| CodeChange (v : option string)
| RunTests (now : Z)
| Settle (p : Pending) (response : option ExecutionReport)
| HistoryTick (now : Z)
| ChatTimer
| CloseChatbot
| ChatChange (v : string)
| ChatSubmit
| UserLoaded (profileCandidate : option Z)
| UrlQuestion (questionId : Z)
| CharsCounted (pastedChars typedChars : Z).

(** One input.  The buttons of the page switch to the questions 1 to 5;
    for a question that does not exist the handler throws, and the state is
    taken as it was (the updates the source has queued before the error are
    not followed up). *)
Definition step (st : State) (i : Input) : State :=
  match i with
  | Switch q => match handleQuestionSwitch q st with Some st' => st' | None => st end
  | CodeChange v => handleCodeChange v st
  | RunTests now => fst (handleRunTests now st)
  | Settle p r => settleRunTests p r st
  | HistoryTick now => captureHistory now st
  | ChatTimer => setShowChatbot true st
  | CloseChatbot => setShowChatbot false st
  | ChatChange v => setChat v (chatSubmitted st) (showChatbot st) st
  | ChatSubmit => handleChatSubmit st
  | UserLoaded profileCandidate => fetchUser profileCandidate st
  | UrlQuestion questionId => initialQuestion questionId st
  | CharsCounted pastedChars typedChars => countChars pastedChars typedChars st
  end.

Definition run (st : State) (inputs : list Input) : State := fold_left step inputs st.

(** The input neither shows the question [a] nor brings the answer of a
    run of [a]; a switch goes to one of the questions of the page. *)
Definition quietFor (a : Z) (i : Input) : bool :=
  match i with
  | Switch q =>
      negb (q =? a) && match MOCK_QUESTIONS q with Some _ => true | None => false end
  | UrlQuestion q => negb (q =? a)
  | Settle p _ => negb (pendingQuestionId p =? a)
  | _ => true
  end.

(** While another question is shown, an input that is quiet for [a] leaves
    the saved answer of [a] alone. *)
Lemma step_quiet (a : Z) (st : State) (i : Input) :
  quietFor a i = true ->
  MOCK_QUESTIONS (currentQuestionId st) <> None -> currentQuestionId st <> a ->
  MOCK_QUESTIONS (currentQuestionId (step st i)) <> None /\
  currentQuestionId (step st i) <> a /\
  answers (step st i) a = answers st a.
Proof.
  intros Q V N. destruct i; cbn [step quietFor] in *.
  - apply andb_true_iff in Q. destruct Q as [Q1 Q2].
    apply negb_true_iff, Z.eqb_neq in Q1.
    unfold handleQuestionSwitch.
    destruct (MOCK_QUESTIONS (currentQuestionId st)) as [tc|] eqn:Ec; [|congruence].
    destruct (MOCK_QUESTIONS questionId) as [tq|] eqn:Eq; [|discriminate].
    assert (A : assign (answers st) (currentQuestionId st)
                  (Some (withCode (answers st (currentQuestionId st)) (code st))) a
                = answers st a).
    { unfold assign. destruct (Z.eqb_spec a (currentQuestionId st)); congruence. }
    destruct tc, tq; cbn [moveTo currentQuestionId answers]; rewrite ?Eq, ?A;
      (split; [discriminate | split; [exact Q1 | reflexivity]]).
  - cbn [handleCodeChange moveTo currentQuestionId answers]. now repeat split.
  - assert (K : currentQuestionId (fst (handleRunTests now st)) = currentQuestionId st /\
                answers (fst (handleRunTests now st)) = answers st).
    { unfold handleRunTests.
      destruct (known (candidateId st)); [|now split].
      destruct (MOCK_QUESTIONS (currentQuestionId st)) as [[]|]; try (now split).
      destruct (_ && _); now split. }
    destruct K as [K1 K2]. rewrite K1, K2. now repeat split.
  - apply negb_true_iff, Z.eqb_neq in Q.
    cbn [settleRunTests currentQuestionId answers].
    split; [exact V|]. split; [exact N|].
    unfold assign. destruct (Z.eqb_spec a (pendingQuestionId p)); congruence.
  - unfold captureHistory.
    destruct (MOCK_QUESTIONS (currentQuestionId st)) as [[]|] eqn:E;
      cbn [currentQuestionId answers]; rewrite ?E; now repeat split.
  - now repeat split.
  - now repeat split.
  - now repeat split.
  - unfold handleChatSubmit. destruct (trim (chatResponse st)); now repeat split.
  - unfold fetchUser. destruct (known profileCandidate); now repeat split.
  - apply negb_true_iff, Z.eqb_neq in Q. unfold initialQuestion.
    destruct (MOCK_QUESTIONS questionId) as [[]|] eqn:E;
      cbn [moveTo currentQuestionId answers]; rewrite ?E;
      try (split; [discriminate | split; [exact Q | reflexivity]]).
    now repeat split.
  - now repeat split.
Qed.

Lemma run_quiet (a : Z) (inputs : list Input) :
  forall st,
    forallb (quietFor a) inputs = true ->
    MOCK_QUESTIONS (currentQuestionId st) <> None -> currentQuestionId st <> a ->
    MOCK_QUESTIONS (currentQuestionId (run st inputs)) <> None /\
    currentQuestionId (run st inputs) <> a /\
    answers (run st inputs) a = answers st a.
Proof.
  induction inputs as [|i inputs IH]; intros st Q V N; [now repeat split|].
  cbn [forallb] in Q. apply andb_true_iff in Q. destruct Q as [Qi Q].
  cbn [run fold_left]. fold (run (step st i) inputs).
  destruct (step_quiet a st i Qi V N) as (V1 & N1 & A1).
  destruct (IH (step st i) Q V1 N1) as (V2 & N2 & A2).
  split; [exact V2|]. split; [exact N2|]. now rewrite A2.
Qed.

(** The switch to a coding question restores what is saved under it. *)
Lemma switch_back (a : Z) (st : State) :
  MOCK_QUESTIONS (currentQuestionId st) <> None -> currentQuestionId st <> a ->
  MOCK_QUESTIONS a = Some coding ->
  exists st',
    handleQuestionSwitch a st = Some st' /\
    currentQuestionId st' = a /\
    code st' = match answers st a with
               | Some {| answerCode := Some c |} => c
               | _ => starterCode a
               end /\
    testResults st' = match answers st a with
                      | Some s => answerResults s
                      | None => None
                      end.
Proof.
  intros V N Ta. unfold handleQuestionSwitch. rewrite Ta.
  destruct (MOCK_QUESTIONS (currentQuestionId st)) as [tc|]; [|congruence].
  eexists. split; [reflexivity|].
  cbn [moveTo currentQuestionId code testResults]. now repeat split.
Qed.

(** X15.  Leaving a coding question and coming back restores its code, whatever
    happens in between on the other questions (code changes, runs, answers
    of runs of other questions, switches among the other questions), as
    long as no answer of a run of the question itself arrives meanwhile: the
    switch away saves the code under the question and the switch back reads
    it, with the test results that were saved with the question before.  If
    the answer of a pending run of the question arrives after the switch
    away (and no other one after it), the switch back shows the code that
    was submitted and that answer instead. *)
Theorem switch_round_trip (a b : Z) (st : State) (between : list Input) :
  currentQuestionId st = a -> MOCK_QUESTIONS a = Some coding ->
  MOCK_QUESTIONS b <> None -> a <> b ->
  forallb (quietFor a) between = true ->
  exists st1,
    handleQuestionSwitch b st = Some st1 /\
    (exists st3,
       handleQuestionSwitch a (run st1 between) = Some st3 /\
       currentQuestionId st3 = a /\
       code st3 = code st /\
       testResults st3
       = match answers st a with Some s => answerResults s | None => None end) /\
    (forall before p response,
       forallb (quietFor a) before = true -> pendingQuestionId p = a ->
       exists st3,
         handleQuestionSwitch a
           (run (settleRunTests p response (run st1 before)) between) = Some st3 /\
         currentQuestionId st3 = a /\
         code st3 = pendingCode p /\
         testResults st3
         = Some (match response with Some r => r | None => errorResult end)).
Proof.
  intros Ha Ta Tb Hab Q.
  destruct (MOCK_QUESTIONS b) as [tb|] eqn:Eb; [|congruence].
  assert (E1 : exists st1,
             handleQuestionSwitch b st = Some st1 /\ currentQuestionId st1 = b /\
             answers st1 a = Some (withCode (answers st a) (code st))).
  { unfold handleQuestionSwitch. rewrite Ha, Ta, Eb.
    destruct tb; eexists; (split; [reflexivity|]);
      cbn [moveTo currentQuestionId answers]; (split; [reflexivity|]);
      unfold assign; now rewrite Z.eqb_refl. }
  destruct E1 as (st1 & E1 & C1 & A1). exists st1. split; [exact E1|]. split.
  - destruct (run_quiet a between st1 Q) as (V & N & A);
      [rewrite C1, Eb; discriminate | congruence |].
    destruct (switch_back a (run st1 between) V N Ta) as (st3 & E3 & C3 & K3 & R3).
    exists st3. rewrite A, A1 in K3, R3.
    cbn [withCode answerCode answerResults] in K3, R3. now repeat split.
  - intros before p response Qb Hp.
    destruct (run_quiet a before st1 Qb) as (V0 & N0 & _);
      [rewrite C1, Eb; discriminate | congruence |].
    destruct (run_quiet a between (settleRunTests p response (run st1 before)) Q)
      as (V & N & A); [exact V0 | exact N0 |].
    destruct (switch_back a _ V N Ta) as (st3 & E3 & C3 & K3 & R3).
    exists st3. rewrite A in K3, R3.
    cbn [settleRunTests answers] in K3, R3. unfold assign in K3, R3.
    rewrite Hp, Z.eqb_refl in K3, R3.
    cbn [withResults answerCode answerResults] in K3, R3. now repeat split.
Qed.

Lemma switch_round_trip_witness :
  exists st1 st3,
    handleQuestionSwitch 3 (handleCodeChange (Some "return s[::-1]") initialState)
    = Some st1 /\
    handleQuestionSwitch 1
      (run st1 [Switch 2; CodeChange (Some "pass"); RunTests 1000; Switch 4]) = Some st3 /\
    code st3 = "return s[::-1]".
Proof.
  destruct (switch_round_trip 1 3 (handleCodeChange (Some "return s[::-1]") initialState)
              [Switch 2; CodeChange (Some "pass"); RunTests 1000; Switch 4]
              eq_refl eq_refl ltac:(discriminate) ltac:(discriminate) eq_refl)
    as (st1 & E1 & (st3 & E3 & _ & C & _) & _).
  exists st1, st3. split; [exact E1|]. split; [exact E3 | exact C].
Defined.

(** X16.  A click on the button of the coding question that is already shown
    does not keep the editor as it is: the code on screen is saved, and the
    editor goes back to the code saved before (the starter code when nothing
    was saved). *)
Theorem switch_to_current (a : Z) (st : State) :
  currentQuestionId st = a -> MOCK_QUESTIONS a = Some coding ->
  exists st1,
    handleQuestionSwitch a st = Some st1 /\
    code st1 = match answers st a with
               | Some {| answerCode := Some c |} => c
               | _ => starterCode a
               end /\
    (exists s, answers st1 a = Some s /\ answerCode s = Some (code st)).
Proof.
  intros Ha Ta. unfold handleQuestionSwitch. rewrite Ha, Ta.
  eexists. split; [reflexivity|]. cbn [moveTo code answers]. split; [reflexivity|].
  unfold assign. rewrite Z.eqb_refl. eexists. split; reflexivity.
Qed.

Lemma switch_to_current_witness :
  exists st1,
    handleQuestionSwitch 1 (handleCodeChange (Some "return s[::-1]") initialState)
    = Some st1 /\
    code st1 = starterCode 1.
Proof.
  destruct (switch_to_current 1 (handleCodeChange (Some "return s[::-1]") initialState)
              eq_refl eq_refl) as (st1 & E & C & _).
  exists st1. split; [exact E | exact C].
Defined.

Lemma step_completed (q : Z) (st : State) (i : Input) :
  completedQuestions st q = true -> completedQuestions (step st i) q = true.
Proof.
  intros H. destruct i; cbn [step].
  - unfold handleQuestionSwitch.
    destruct (MOCK_QUESTIONS (currentQuestionId st)) as [[]|];
      destruct (MOCK_QUESTIONS questionId) as [[]|]; exact H.
  - exact H.
  - unfold handleRunTests.
    destruct (known (candidateId st)); [|exact H].
    destruct (MOCK_QUESTIONS (currentQuestionId st)) as [[]|]; try exact H.
    destruct (_ && _); exact H.
  - cbn [settleRunTests completedQuestions].
    destruct response as [r|]; [|exact H].
    destruct (is_passed r); [|exact H].
    unfold assign. destruct (q =? pendingQuestionId p); [reflexivity | exact H].
  - unfold captureHistory.
    destruct (MOCK_QUESTIONS (currentQuestionId st)) as [[]|]; exact H.
  - exact H.
  - exact H.
  - exact H.
  - unfold handleChatSubmit. destruct (trim (chatResponse st)); exact H.
  - unfold fetchUser. destruct (known profileCandidate); exact H.
  - unfold initialQuestion. destruct (MOCK_QUESTIONS questionId) as [[]|]; exact H.
  - exact H.
Qed.

(** X17.  A coding question that has passed once stays completed: after the
    answer of the server to a passing run of question 1 or 2, the question is
    shown as completed whatever happens next (other runs, failed or not,
    changes of the code, switches between the questions). *)
Theorem passed_stays_completed (p : Pending) (r : ExecutionReport) (st : State)
  (inputs : list Input) :
  pendingQuestionId p = 1 \/ pendingQuestionId p = 2 ->
  is_passed r = true ->
  getQuestionStatus (pendingQuestionId p) (run (settleRunTests p (Some r) st) inputs)
  = completed.
Proof.
  intros Hq Hr.
  assert (C : completedQuestions (settleRunTests p (Some r) st) (pendingQuestionId p) = true).
  { cbn [settleRunTests completedQuestions]. rewrite Hr. unfold assign.
    now rewrite Z.eqb_refl. }
  assert (G : forall s, completedQuestions s (pendingQuestionId p) = true ->
                        completedQuestions (run s inputs) (pendingQuestionId p) = true).
  { induction inputs as [|i inputs IH]; intros s Hs; [exact Hs|].
    cbn [run fold_left]. apply IH. now apply step_completed. }
  unfold getQuestionStatus. rewrite (G _ C).
  destruct Hq as [-> | ->]; reflexivity.
Qed.

Lemma passed_stays_completed_witness :
  getQuestionStatus 1
    (run (settleRunTests {| pendingQuestionId := 1; pendingCode := "return s[::-1]" |}
            (Some {| tests_passed := 5; tests_total := 5; execution_time_ms := 12;
                     results := []; is_passed := true; mock_mode := false |})
            initialState)
       [ CodeChange (Some "pass");
         Settle {| pendingQuestionId := 1; pendingCode := "pass" |} None;
         Switch 2 ])
  = completed.
Proof.
  apply (passed_stays_completed
           {| pendingQuestionId := 1; pendingCode := "return s[::-1]" |});
    [now left | reflexivity].
Defined.

Lemma step_history (st : State) (i : Input) :
  exists more, codeHistory (step st i) = (codeHistory st ++ more)%list.
Proof.
  destruct i; cbn [step].
  - unfold handleQuestionSwitch.
    destruct (MOCK_QUESTIONS (currentQuestionId st)) as [[]|];
      destruct (MOCK_QUESTIONS questionId) as [[]|];
      exists []; now rewrite app_nil_r.
  - exists []. now rewrite app_nil_r.
  - unfold handleRunTests.
    destruct (known (candidateId st)); [|exists []; now rewrite app_nil_r].
    destruct (MOCK_QUESTIONS (currentQuestionId st)) as [[]|];
      try (exists []; now rewrite app_nil_r).
    destruct (_ && _); exists []; now rewrite app_nil_r.
  - exists []. now rewrite app_nil_r.
  - unfold captureHistory.
    destruct (MOCK_QUESTIONS (currentQuestionId st)) as [[]|];
      try (exists []; now rewrite app_nil_r).
    eexists. reflexivity.
  - exists []. now rewrite app_nil_r.
  - exists []. now rewrite app_nil_r.
  - exists []. now rewrite app_nil_r.
  - unfold handleChatSubmit. destruct (trim (chatResponse st));
      exists []; now rewrite app_nil_r.
  - unfold fetchUser. destruct (known profileCandidate); exists []; now rewrite app_nil_r.
  - unfold initialQuestion. destruct (MOCK_QUESTIONS questionId) as [[]|];
      exists []; now rewrite app_nil_r.
  - exists []. now rewrite app_nil_r.
Qed.

(** X18.  The code history is never cleared: whatever happens on the page, the
    snapshots taken so far stay at the front of the history, also across a
    change of question, so the history sent with a run holds the snapshots
    of every coding question shown since the page was opened. *)
Theorem codeHistory_only_grows (st : State) (inputs : list Input) (now : Z) :
  exists more,
    codeHistory (run st inputs) = (codeHistory st ++ more)%list /\
    forall candidate,
      code_history (requestOf candidate now (run st inputs))
      = (codeHistory st ++ more ++
         [{| timestamp := now; snapshot := code (run st inputs) |}])%list.
Proof.
  assert (G : exists more, codeHistory (run st inputs) = (codeHistory st ++ more)%list).
  { revert st. induction inputs as [|i inputs IH]; intros st.
    - exists []. now rewrite app_nil_r.
    - cbn [run fold_left]. destruct (IH (step st i)) as (m2 & E2).
      destruct (step_history st i) as (m1 & E1).
      exists (m1 ++ m2)%list. unfold run in E2. rewrite E2, E1. now rewrite app_assoc. }
  destruct G as (more & E). exists more. split; [exact E|].
  intros candidate. cbn [requestOf code_history]. rewrite E. now rewrite app_assoc.
Qed.

(** X19.  A run of the tests sends a request only for a known candidate (not
    null, not 0) on a coding question, and on question 2 only when the chat has been answered
    or the chatbot is on screen: otherwise the click opens the chatbot and
    nothing is sent.  The request carries the code on screen, the history
    with one last snapshot of that code, and the chat answer only if it was
    submitted. *)
Theorem run_tests_guards (now : Z) (st : State) :
  let (st', p) := handleRunTests now st in
  (p = None -> submitted st' = submitted st) /\
  (currentQuestionId st = 2 -> chatSubmitted st = false -> showChatbot st = false ->
   known (candidateId st) <> None -> p = None /\ showChatbot st' = true) /\
  (forall pending, p = Some pending ->
     exists candidate request,
       candidateId st = Some candidate /\
       MOCK_QUESTIONS (currentQuestionId st) = Some coding /\
       submitted st' = (submitted st ++ [request])%list /\
       request_code request = code st /\
       question_id request = currentQuestionId st /\
       pendingQuestionId pending = currentQuestionId st /\
       (exists t, code_history request
                  = (codeHistory st ++ [{| timestamp := t; snapshot := code st |}])%list) /\
       (chat_response request <> None -> chatSubmitted st = true) /\
       (question_id request = 2 -> chatSubmitted st = true \/ showChatbot st = true)).
Proof.
  unfold handleRunTests.
  destruct (known (candidateId st)) as [candidate|] eqn:Ec.
  2:{ split; [reflexivity|]. split; [congruence | discriminate]. }
  assert (Ec' : candidateId st = Some candidate).
  { unfold known in Ec. destruct (candidateId st) as [[|c|c]|]; congruence. }
  destruct (MOCK_QUESTIONS (currentQuestionId st)) as [[]|] eqn:Eq;
    try (split; [reflexivity|]; split; [| discriminate];
         intros Q; rewrite Q in Eq; discriminate).
  destruct ((currentQuestionId st =? 2) && negb (chatSubmitted st) && negb (showChatbot st))
    eqn:G.
  - split; [reflexivity|]. split; [| discriminate]. intros; now split.
  - split; [discriminate|]. split.
    + intros Q C S. rewrite Q, C, S in G. discriminate.
    + intros pending E. injection E as <-.
      exists candidate, (requestOf candidate now st).
      cbn [submitted requestOf request_code question_id code_history chat_response
           pendingQuestionId].
      split; [exact Ec'|]. split; [reflexivity|]. split; [reflexivity|].
      split; [reflexivity|]. split; [reflexivity|]. split; [reflexivity|].
      split; [now exists now|]. split.
      * destruct (chatSubmitted st); [reflexivity | congruence].
      * intros Q. rewrite Q in G. cbn in G.
        destruct (chatSubmitted st); [now left|].
        destruct (showChatbot st); [now right | discriminate].
Qed.

Lemma run_tests_guards_witness :
  let st := setShowChatbot false
              (match handleQuestionSwitch 2
                       {| candidateId := Some 7;
                          currentQuestionId := 1;
                          code := starterCode 1;
                          testResults := None;
                          answers := fun _ => None;
                          completedQuestions := fun _ => false;
                          isSubmitting := false;
                          showChatbot := false;
                          chatResponse := EmptyString;
                          chatSubmitted := false;
                          mcqSubmitted := false;
                          textSubmitted := false;
                          logicSubmitted := false;
                          codeHistory := [];
                          charBreakdown := {| typed := 0; pasted := 0 |};
                          submitted := [] |}
               with Some s => s | None => initialState end) in
  snd (handleRunTests 1000 st) = None /\
  showChatbot (fst (handleRunTests 1000 st)) = true.
Proof.
  cbv zeta.
  match goal with
  | |- snd (handleRunTests ?n ?s) = _ /\ _ =>
      pose proof (run_tests_guards n s) as H;
      destruct (handleRunTests n s) as [st' p];
      destruct H as (_ & H & _);
      apply H; [reflexivity | reflexivity | reflexivity | discriminate]
  end.
Defined.

End Questions.

(* ================================================================== *)
(** * Code playback (candidate report page)                            *)
(* ================================================================== *)

Module Playback.
Import Js Binary64 Rounding Questions.

Local Open Scope Z_scope.

(** The fields of [CodeSubmission] that [CodePlayback] reads; the entries
    of the history are those the assessment page has sent. *)
Record Submission := {
  code_history : option (list CodeHistoryEntry);
  submitted_code : option string
}.

(** [value || ''] on a string that may be missing. *)
Definition orEmpty (value : option string) : string :=
  match value with Some s => s | None => EmptyString end.

(** [const idx = Math.floor((sliderValue / 100) * (codeHistory.length -
    1))] *)
Definition sliderIndex (sliderValue length : Z) : Z :=
  Qfloor (mul (div (inject_Z sliderValue) 100) (inject_Z (length - 1))).

(** [displayCode] of [CodePlayback], for the position [sliderValue] of the
    slider (an integer from 0 to 100; 100 when the component is first
    shown). *)
Definition displayCode (submission : Submission) (sliderValue : Z) : string :=
  let codeHistory := match code_history submission with Some h => h | None => [] end in
  match codeHistory with
  | [] => orEmpty (submitted_code submission)
  | _ =>
      let length := Z.of_nat (List.length codeHistory) in
      let idx := sliderIndex sliderValue length in
      match nth_error codeHistory (Z.to_nat (Z.max 0 (Z.min idx (length - 1)))) with
      | Some entry => snapshot entry
      | None => EmptyString
      end
  end.

(** The position of the slider when the component is first shown:
    [useState(100)]. *)
Definition initialSlider : Z := 100.

Lemma sliderIndex_end (length : Z) :
  1 <= length < 2 ^ 53 -> sliderIndex 100 length = length - 1.
Proof.
  intros H. unfold sliderIndex, mul.
  set (one := div (inject_Z 100) 100).
  assert (E : (one == 1)%Q) by (vm_compute; reflexivity).
  assert (F : (fl (one * inject_Z (length - 1)) == inject_Z (length - 1))%Q).
  { transitivity (one * inject_Z (length - 1))%Q.
    - apply (fl_exact _ (length - 1) 0); [lia | lia |].
      rewrite E. change (inject_Z (2 ^ 0)) with 1%Q. ring.
    - rewrite E. ring. }
  rewrite F. apply Qfloor_Z.
Qed.

Lemma sliderIndex_start (length : Z) : sliderIndex 0 length = 0.
Proof.
  unfold sliderIndex, mul.
  set (zero := div (inject_Z 0) 100).
  assert (E : (zero == 0)%Q) by (vm_compute; reflexivity).
  assert (F : (fl (zero * inject_Z (length - 1)) == 0)%Q).
  { transitivity (zero * inject_Z (length - 1))%Q.
    - apply (fl_exact _ 0 0); [lia | lia |]. rewrite E. ring.
    - rewrite E. ring. }
  rewrite F. reflexivity.
Qed.

Lemma nth_error_last {A : Type} (l : list A) (x : A) :
  nth_error (l ++ [x]) (List.length l) = Some x.
Proof. rewrite nth_error_app2 by lia. now rewrite Nat.sub_diag. Qed.

Lemma last_cons {A : Type} (r : list A) :
  forall x d, last (x :: r) d = last r x.
Proof.
  induction r as [|y r IH]; intros x d; [reflexivity|].
  change (last (x :: y :: r) d) with (last (y :: r) d).
  now rewrite (IH y d), (IH y x).
Qed.

Lemma nth_error_length {A : Type} (rest : list A) :
  forall first, nth_error (first :: rest) (List.length rest) = Some (last rest first).
Proof.
  induction rest as [|x rest IH]; intros first; [reflexivity|].
  cbn [List.length nth_error]. rewrite IH. now rewrite last_cons.
Qed.

(** X20.  Playback of a recorded history always shows one of its snapshots,
    wherever the slider stands between 0 and 100; at 0 it shows the first snapshot, and at 100,
    where it stands when the report is opened, the last one.  For a history
    sent by a run of the tests the last snapshot is the code that was
    submitted.  Without a history the submitted code is shown. *)
Theorem displayCode_spec (submission : Submission) (sliderValue : Z) :
  0 <= sliderValue <= 100 ->
  (forall first rest,
     code_history submission = Some (first :: rest) ->
     Z.of_nat (List.length (first :: rest)) < 2 ^ 53 ->
     (exists entry, In entry (first :: rest) /\
                    displayCode submission sliderValue = snapshot entry) /\
     displayCode submission 0 = snapshot first /\
     displayCode submission initialSlider = snapshot (last rest first)) /\
  (forall candidate now st,
     code_history submission = Some (Questions.code_history (requestOf candidate now st)) ->
     Z.of_nat (List.length (codeHistory st)) < 2 ^ 52 ->
     displayCode submission initialSlider = code st) /\
  (code_history submission = None \/ code_history submission = Some [] ->
   displayCode submission sliderValue = orEmpty (submitted_code submission)).
Proof.
  intros _. split; [|split].
  - intros first rest E B. unfold displayCode. rewrite E.
    set (h := first :: rest) in *.
    assert (L : 1 <= Z.of_nat (List.length h)) by (unfold h; cbn [List.length]; lia).
    split; [|split].
    + set (k := Z.to_nat _).
      assert (K : (k < List.length h)%nat) by (unfold k; lia).
      destruct (nth_error h k) as [entry|] eqn:N.
      * exists entry. split; [exact (nth_error_In _ _ N) | reflexivity].
      * apply nth_error_None in N. lia.
    + rewrite sliderIndex_start.
      replace (Z.to_nat (Z.max 0 (Z.min 0 (Z.of_nat (List.length h) - 1)))) with 0%nat by lia.
      reflexivity.
    + unfold initialSlider. rewrite sliderIndex_end by lia.
      replace (Z.to_nat (Z.max 0 (Z.min (Z.of_nat (List.length h) - 1)
                                        (Z.of_nat (List.length h) - 1))))
        with (List.length rest) by (unfold h; cbn [List.length]; lia).
      unfold h. now rewrite nth_error_length.
  - intros candidate now st E B. unfold displayCode. rewrite E.
    cbn [requestOf Questions.code_history].
    destruct (codeHistory st ++ [{| timestamp := now; snapshot := code st |}])%list
      as [|e0 l0] eqn:H.
    { destruct (codeHistory st); discriminate H. }
    rewrite <- H. unfold initialSlider.
    rewrite sliderIndex_end by (rewrite length_app; cbn [List.length]; lia).
    rewrite length_app. cbn [List.length].
    replace (Z.to_nat _) with (List.length (codeHistory st)) by lia.
    now rewrite nth_error_last.
  - intros [E | E]; unfold displayCode; rewrite E; reflexivity.
Qed.

Lemma displayCode_spec_witness :
  let history := [ {| timestamp := 5000; snapshot := "pass" |};
                   {| timestamp := 10000; snapshot := "return s" |};
                   {| timestamp := 12345; snapshot := "return s[::-1]" |} ] in
  let submission := {| code_history := Some history; submitted_code := None |} in
  displayCode submission 0 = "pass" /\
  displayCode submission initialSlider = "return s[::-1]".
Proof.
  cbv zeta.
  match goal with
  | |- displayCode ?s _ = _ /\ _ =>
      destruct (proj1 (displayCode_spec s 50 ltac:(lia)) _ _ eq_refl
                  ltac:(vm_compute; reflexivity))
        as (_ & H0 & H100)
  end.
  split; [exact H0 | exact H100].
Defined.

End Playback.

(* ================================================================== *)
(** * The countdown and the end of the test (assessment page)          *)
(* ================================================================== *)

Module Countdown.
Import Js Numbers Answers.

Local Open Scope Z_scope.

(** [const formatTime = (seconds: number): string => ...] on an integer
    number of seconds. *)
Definition formatTime (seconds : Z) : string :=
  let mins := floorDiv seconds 60 in
  let secs := Z.rem seconds 60 in
  padStart 2 "0" (toString mins) ++ ":" ++ padStart 2 "0" (toString secs).

(** What [handleEndTest] does to the outside: the request
    [assessmentApi.complete(candidateId, behavioralScore)] and
    [navigate(path)]. *)
Inductive Effect :=
| Complete (candidate_id behavioral_score : Z)
| Navigate (path : string).

(** The values of a render that the [handleEndTest] created in it closes
    over: the candidate, and the answers read by
    [calculateBehavioralScore]. *)
Record Render := {
  candidateId : option Z;
  behaviour : Answers.State
}.

(** [handleEndTest] of a render.  A missing candidate (null, or 0) only
    leaves the page; otherwise the completion request is sent and the page is
    left whether the request succeeds or fails. *)
Definition handleEndTest (r : Render) : list Effect :=
  match candidateId r with
  | None | Some 0 => [Navigate "/candidate/dashboard"]
  | Some candidate =>
      [ Complete candidate (calculateBehavioralScore (behaviour r));
        Navigate "/candidate/dashboard" ]
  end.

(** The first render of the component: [useState<number | null>(null)]
    for the candidate and no answers yet. *)
Definition firstRender : Render :=
  {| candidateId := None; behaviour := Answers.initialState |}.

(** The countdown: the seconds left, whether the interval is still set,
    and what the expiry has done to the outside. *)
Record Timer := {
  timeRemaining : Z;
  running : bool;
  effects : list Effect
}.

(** [useState<number>(45 * 60)] and the interval set by the effect. *)
Definition initialTimer : Timer :=
  {| timeRemaining := 45 * 60; running := true; effects := [] |}.

(** The callback of the interval, [setTimeRemaining((prev) => ...)], in the
    effect of the render [captured]; once [clearInterval(timer)] has run the
    callback is not called any more. *)
Definition tick (captured : Render) (t : Timer) : Timer :=
  if running t then
    if timeRemaining t <=? 0
    then {| timeRemaining := 0; running := false;
            effects := effects t ++ handleEndTest captured |}
    else {| timeRemaining := timeRemaining t - 1; running := true;
            effects := effects t |}
  else t.

(** The timer after [n] seconds.  The effect that sets the interval has
    no dependencies, so it runs once, after the first render, and its
    callback keeps the [handleEndTest] of that render. *)
Fixpoint countdown (n : nat) : Timer :=
  match n with
  | O => initialTimer
  | S k => tick firstRender (countdown k)
  end.

Lemma formatTime_shape (seconds : Z) :
  0 <= seconds < 6000 ->
  formatTime seconds = twoDigits (seconds / 60) ++ ":" ++ twoDigits (seconds mod 60).
Proof.
  intros H. unfold formatTime.
  rewrite floorDiv_exact by lia.
  rewrite Z.rem_mod_nonneg by lia.
  assert (0 <= seconds / 60 < 100).
  { split; [apply Z.div_pos; lia | apply Z.div_lt_upper_bound; lia]. }
  pose proof (Z.mod_pos_bound seconds 60 ltac:(lia)).
  now rewrite !padStart_twoDigits by lia.
Qed.

(** X21.  The clock shows a time below 100 minutes as two digits of minutes, a
    colon and two digits of seconds, five characters in all, and different
    times are shown differently. *)
Theorem formatTime_spec (seconds : Z) :
  0 <= seconds < 6000 ->
  formatTime seconds = twoDigits (seconds / 60) ++ ":" ++ twoDigits (seconds mod 60) /\
  String.length (formatTime seconds) = 5%nat /\
  (forall seconds', 0 <= seconds' < 6000 ->
     formatTime seconds = formatTime seconds' -> seconds = seconds').
Proof.
  intros H. split; [now apply formatTime_shape|]. split.
  - rewrite formatTime_shape by assumption. reflexivity.
  - intros s' H' E. rewrite !formatTime_shape in E by assumption.
    injection E as E1 E2 E3 E4.
    assert (Q : seconds / 60 = s' / 60).
    { apply twoDigits_inj.
      - split; [apply Z.div_pos; lia | apply Z.div_lt_upper_bound; lia].
      - split; [apply Z.div_pos; lia | apply Z.div_lt_upper_bound; lia].
      - unfold twoDigits. now rewrite E1, E2. }
    assert (M : seconds mod 60 = s' mod 60).
    { apply twoDigits_inj.
      - pose proof (Z.mod_pos_bound seconds 60 ltac:(lia)). lia.
      - pose proof (Z.mod_pos_bound s' 60 ltac:(lia)). lia.
      - unfold twoDigits. now rewrite E3, E4. }
    rewrite (Z.div_mod seconds 60), (Z.div_mod s' 60) by lia. now rewrite Q, M.
Qed.

Lemma formatTime_spec_witness :
  formatTime 2700 = "45:00" /\ formatTime 65 = "01:05".
Proof.
  split.
  - rewrite (proj1 (formatTime_spec 2700 ltac:(lia))). reflexivity.
  - rewrite (proj1 (formatTime_spec 65 ltac:(lia))). reflexivity.
Defined.

Lemma countdown_state (n : nat) :
  countdown n
  = {| timeRemaining := Z.max 0 (2700 - Z.of_nat n);
       running := (Z.of_nat n <=? 2700);
       effects := if Z.of_nat n <=? 2700 then [] else handleEndTest firstRender |}.
Proof.
  induction n as [|n IH].
  - reflexivity.
  - cbn [countdown]. rewrite IH. unfold tick. cbn [running timeRemaining effects].
    destruct (Z.leb_spec (Z.of_nat n) 2700) as [L | L].
    + destruct (Z.leb_spec (Z.max 0 (2700 - Z.of_nat n)) 0) as [Z0 | Z0].
      * destruct (Z.leb_spec (Z.of_nat (S n)) 2700); [lia|].
        f_equal; lia.
      * destruct (Z.leb_spec (Z.of_nat (S n)) 2700); [|lia].
        f_equal; lia.
    + destruct (Z.leb_spec (Z.of_nat (S n)) 2700); [lia|].
      f_equal; lia.
Qed.

(** X22.  The countdown starts at 45:00 and loses one second per tick down to
    00:00; the tick after that (the 2701st) ends the test and stops the
    interval.  The [handleEndTest] it calls is the one of the first render,
    in which no candidate is known yet: the expiry leaves the page for the
    dashboard and never sends the completion request, whereas the
    [handleEndTest] of a render that knows the candidate sends it first. *)
Theorem countdown_expiry (n : nat) :
  timeRemaining (countdown n) = Z.max 0 (2700 - Z.of_nat n) /\
  String.length (formatTime (timeRemaining (countdown n))) = 5%nat /\
  effects (countdown n)
  = (if Z.of_nat n <=? 2700 then [] else [Navigate "/candidate/dashboard"]) /\
  (forall e, In e (effects (countdown n)) -> forall c s, e <> Complete c s) /\
  (forall candidate answers, candidate <> 0 ->
     handleEndTest {| candidateId := Some candidate; behaviour := answers |}
     = [ Complete candidate (calculateBehavioralScore answers);
         Navigate "/candidate/dashboard" ]).
Proof.
  rewrite countdown_state. cbn [timeRemaining effects].
  split; [reflexivity|]. split; [|split; [|split]].
  - rewrite formatTime_shape by lia. reflexivity.
  - reflexivity.
  - intros e He c s. destruct (Z.of_nat n <=? 2700); [contradiction|].
    cbn in He. destruct He as [<- | []]. discriminate.
  - intros candidate answers Hc. unfold handleEndTest. cbn [candidateId behaviour].
    destruct candidate; [congruence | reflexivity | reflexivity].
Qed.

Lemma countdown_expiry_witness :
  handleEndTest {| candidateId := Some 7; behaviour := Answers.initialState |}
  = [ Complete 7 0; Navigate "/candidate/dashboard" ].
Proof.
  apply (proj2 (proj2 (proj2 (proj2 (countdown_expiry 0)))) 7 Answers.initialState).
  discriminate.
Defined.

End Countdown.

(* ================================================================== *)
(** * Paste forensics and the face streaks (assessment page)           *)
(* ================================================================== *)

Module Forensics.
Import Api Telemetry.

Local Open Scope Z_scope.

#[local] Arguments pasteDetectionUntilRef {Metrics Frame} _.
#[local] Arguments typedChars {Metrics Frame} _.
#[local] Arguments pastedChars {Metrics Frame} _.
#[local] Arguments noFaceStreakRef {Metrics Frame} _.
#[local] Arguments multiFaceStreakRef {Metrics Frame} _.
#[local] Arguments lastTelemetryRef {Metrics Frame} _.
#[local] Arguments log {Metrics Frame} _.
#[local] Arguments captured {Metrics Frame} _.
#[local] Arguments clock {Metrics Frame} _.
#[local] Arguments input {Metrics Frame} _.
#[local] Arguments initialState {Metrics Frame}.
#[local] Arguments FaceTick {Metrics Frame} _ _.
#[local] Arguments MotionTick {Metrics Frame} _.
#[local] Arguments TrackEnded {Metrics Frame}.
#[local] Arguments CameraFailed {Metrics Frame}.
#[local] Arguments CameraCleanup {Metrics Frame}.
#[local] Arguments PasteSignal {Metrics Frame}.
#[local] Arguments ContentChanged {Metrics Frame} _.
#[local] Arguments VisibilityChange {Metrics Frame} _.
#[local] Arguments logTelemetryEvent {Metrics Frame} _ _ _ _ _.
#[local] Arguments reportMotion {Metrics Frame} _ _ _.
#[local] Arguments reportNoFace {Metrics Frame} _ _ _.
#[local] Arguments reportMultiFace {Metrics Frame} _ _ _.
#[local] Arguments reportPaste {Metrics Frame} _ _ _ _.
#[local] Arguments trackEnded {Metrics Frame} _ _ _.
#[local] Arguments cameraFailed {Metrics Frame} _ _ _.
#[local] Arguments cameraCleanup {Metrics Frame} _.
#[local] Arguments markPasteSignal {Metrics Frame} _ _.
#[local] Arguments contentChanged {Metrics Frame} _ _ _ _.
#[local] Arguments handleVisibilityChange {Metrics Frame} _ _ _ _.

Section Signals.

Variable Metrics : Type.
Variable Frame : Type.
Variable largeShift : Metrics -> Metrics -> bool.
Variable largeDiff : Frame -> Frame -> bool.

Local Abbreviation State := (Telemetry.State Metrics Frame).
Local Abbreviation Delivery := (Telemetry.Delivery Metrics Frame).
Local Abbreviation step := (Telemetry.step Metrics Frame largeShift largeDiff).
Local Abbreviation run := (Telemetry.run Metrics Frame largeShift largeDiff).
Local Abbreviation faceTick := (Telemetry.faceTick Metrics Frame largeShift).
Local Abbreviation countFaces := (Telemetry.countFaces Metrics Frame largeShift).
Local Abbreviation motionTick := (Telemetry.motionTick Metrics Frame largeDiff).

(** The clock reading of the latest paste signal among the deliveries
    [before], which are listed latest first. *)
Fixpoint lastPaste (before : list Delivery) : option Z :=
  match before with
  | [] => None
  | d :: rest =>
      match input d with
      | PasteSignal => Some (clock d)
      | _ => lastPaste rest
      end
  end.

(** The change at [now] falls into the paste window: the latest paste
    signal is at most 800 milliseconds old. *)
Definition inPasteWindow (latest : option Z) (now : Z) : bool :=
  match latest with
  | Some p => now <=? p + 800
  | None => false
  end.

(** The characters inserted by a delivery. *)
Definition inserted (d : Delivery) : Z :=
  match input d with
  | ContentChanged changes => sumLengths changes
  | _ => 0
  end.

(** The characters of [ds] that fall into (outside) the paste window,
    [before] being the deliveries before [ds], latest first. *)
Fixpoint pastedSum (before ds : list Delivery) : Z :=
  match ds with
  | [] => 0
  | d :: rest =>
      (if inPasteWindow (lastPaste before) (clock d) then inserted d else 0)
      + pastedSum (d :: before) rest
  end.

Fixpoint typedSum (before ds : list Delivery) : Z :=
  match ds with
  | [] => 0
  | d :: rest =>
      (if inPasteWindow (lastPaste before) (clock d) then 0 else inserted d)
      + typedSum (d :: before) rest
  end.

(** A delivery with a positive clock reading whose changes have lengths
    that are not negative. *)
Definition wellTimed (d : Delivery) : Prop :=
  0 < clock d /\
  match input d with
  | ContentChanged changes => Forall (fun n => 0 <= n) changes
  | _ => True
  end.

(** The face ticks without a face at the end of [before] (latest first):
    those after the latest tick that saw a face. *)
Fixpoint noFaceTicks (before : list Delivery) : Z :=
  match before with
  | [] => 0
  | d :: rest =>
      match input d with
      | FaceTick O _ => 1 + noFaceTicks rest
      | FaceTick _ _ => 0
      | _ => noFaceTicks rest
      end
  end.

(** What the character counts depend on. *)
Definition chars (st : State) : Z * Z * Z :=
  (pasteDetectionUntilRef st, typedChars st, pastedChars st).

Lemma chars_log (c : option Z) (ty : string) (sev : Severity) (now : Z) (st : State) :
  chars (logTelemetryEvent c ty sev now st) = chars st.
Proof. unfold logTelemetryEvent. now destruct c. Qed.

Lemma chars_reportMotion (c : option Z) (now : Z) (st : State) :
  chars (reportMotion c now st) = chars st.
Proof.
  unfold reportMotion. destruct (_ && _)%bool; [|reflexivity]. now rewrite chars_log.
Qed.

Lemma chars_reportNoFace (c : option Z) (now : Z) (st : State) :
  chars (reportNoFace c now st) = chars st.
Proof.
  unfold reportNoFace. destruct (_ && _)%bool; [|reflexivity]. now rewrite chars_log.
Qed.

Lemma chars_reportMultiFace (c : option Z) (now : Z) (st : State) :
  chars (reportMultiFace c now st) = chars st.
Proof.
  unfold reportMultiFace. destruct (_ && _)%bool; [|reflexivity]. now rewrite chars_log.
Qed.

Lemma chars_countFaces (c : option Z) (count : nat) (box : option Metrics) (now : Z)
  (st : State) :
  chars (countFaces c count box now st) = chars st.
Proof.
  unfold Telemetry.countFaces. destruct count as [|[|count]]; try reflexivity.
  destruct box as [metrics|]; [|reflexivity].
  cbn [Telemetry.lastFaceMetricsRef setStreaks].
  destruct (Telemetry.lastFaceMetricsRef Metrics Frame st) as [prev|]; [|reflexivity].
  match goal with
  | |- chars (setCamera _ _ (reportMotion ?a ?b ?s) _ _) = _ =>
      change (chars (reportMotion a b s) = chars st); now rewrite chars_reportMotion
  end.
Qed.

Lemma chars_step_other (st : State) (d : Delivery) :
  match input d with
  | PasteSignal | ContentChanged _ => True
  | _ => chars (step st d) = chars st
  end.
Proof.
  destruct d as [cid now [count box | frame | | | | | changes | hidden]];
    cbn [input]; unfold Telemetry.step; cbn [input captured clock]; try exact I.
  - unfold Telemetry.faceTick.
    now rewrite chars_reportMultiFace, chars_reportNoFace, chars_countFaces.
  - unfold Telemetry.motionTick.
    destruct (Telemetry.lastFrameDataRef Metrics Frame st) as [prev|]; [|reflexivity].
    match goal with
    | |- chars (setCamera _ _ (reportMotion ?a ?b ?s) _ _) = _ =>
        change (chars (reportMotion a b s) = chars st); now rewrite chars_reportMotion
    end.
  - unfold trackEnded. destruct (15000 <? _); [|reflexivity]. now rewrite chars_log.
  - unfold cameraFailed. now rewrite chars_log.
  - reflexivity.
  - unfold handleVisibilityChange. destruct hidden, cid; try reflexivity.
Qed.

Lemma sumLengths_nonneg (changes : list Z) :
  Forall (fun n => 0 <= n) changes -> 0 <= sumLengths changes.
Proof. induction 1; cbn [sumLengths]; lia. Qed.

Lemma chars_contentChanged (c : option Z) (changes : list Z) (now : Z) (st : State) :
  Forall (fun n => 0 <= n) changes ->
  chars (contentChanged c changes now st)
  = (pasteDetectionUntilRef st,
     (if now <=? pasteDetectionUntilRef st then typedChars st
      else typedChars st + sumLengths changes),
     (if now <=? pasteDetectionUntilRef st then pastedChars st + sumLengths changes
      else pastedChars st)).
Proof.
  intros H. apply sumLengths_nonneg in H.
  unfold contentChanged. cbv zeta.
  set (until := pasteDetectionUntilRef st).
  assert (P : ((if until <? now then false else Telemetry.isPastingRef Metrics Frame st)
               || (now <=? until))%bool = (now <=? until)).
  { destruct (Z.ltb_spec until now), (Z.leb_spec now until);
      try lia; try reflexivity; now rewrite orb_true_r. }
  rewrite P.
  match goal with
  | |- chars (setPaste _ _ (reportPaste ?a ?b ?n ?s) _ _ _ _) = _ =>
      pose proof (eq_refl : chars s = chars s) as E0;
      assert (E : chars (reportPaste a b n s) = chars s)
        by (unfold reportPaste; destruct (_ && _)%bool; [now rewrite chars_log | reflexivity]);
      set (s2 := reportPaste a b n s) in *
  end.
  unfold chars in E |- *. cbn [setPaste pasteDetectionUntilRef typedChars pastedChars] in E |- *.
  injection E as E1 E2 E3. rewrite E1, E2, E3. fold until.
  destruct (Z.leb_spec now until).
  - destruct (Z.ltb_spec 0 (sumLengths changes)); cbn [Z.ltb];
      f_equal; try f_equal; lia.
  - destruct (Z.ltb_spec 0 (sumLengths changes)); cbn [Z.ltb];
      f_equal; try f_equal; lia.
Qed.

Lemma run_chars (ds : list Delivery) :
  Forall wellTimed ds ->
  forall before st,
    pasteDetectionUntilRef st
    = match lastPaste before with Some p => p + 800 | None => 0 end ->
    typedChars (run st ds) = typedChars st + typedSum before ds /\
    pastedChars (run st ds) = pastedChars st + pastedSum before ds.
Proof.
  induction 1 as [|d ds [Hc Hd] _ IH]; intros before st I.
  - cbn. lia.
  - cbn [Telemetry.run fold_left typedSum pastedSum].
    change (fold_left step ds (step st d)) with (run (step st d) ds).
    assert (W : inPasteWindow (lastPaste before) (clock d)
                = (clock d <=? pasteDetectionUntilRef st)).
    { rewrite I. unfold inPasteWindow. destruct (lastPaste before); [reflexivity|].
      symmetry. apply Z.leb_gt. lia. }
    assert (C : chars (step st d)
                = (match input d with
                   | PasteSignal => clock d + 800
                   | _ => pasteDetectionUntilRef st
                   end,
                   typedChars st
                   + (if inPasteWindow (lastPaste before) (clock d) then 0 else inserted d),
                   pastedChars st
                   + (if inPasteWindow (lastPaste before) (clock d) then inserted d else 0))).
    { pose proof (chars_step_other st d) as O. unfold inserted.
      destruct (input d) as [count box | frame | | | | | changes | hidden] eqn:Ei;
        try (rewrite O; unfold chars; destruct (inPasteWindow _ _);
             f_equal; try f_equal; lia).
      - unfold Telemetry.step. rewrite Ei. unfold markPasteSignal, chars.
        cbn [setPaste pasteDetectionUntilRef typedChars pastedChars].
        destruct (inPasteWindow _ _); f_equal; try f_equal; lia.
      - unfold Telemetry.step. rewrite Ei. rewrite chars_contentChanged by exact Hd.
        rewrite W. destruct (clock d <=? pasteDetectionUntilRef st);
          f_equal; try f_equal; lia. }
    unfold chars in C. injection C as C1 C2 C3.
    destruct (IH (d :: before) (step st d)) as [T P].
    + cbn [lastPaste]. rewrite C1.
      destruct (input d); try exact I; reflexivity.
    + rewrite T, P, C2, C3. lia.
Qed.

(** X23.  The character counts after a run of the page are decided by the paste
    window alone: the characters of a change are counted as pasted when the
    latest paste signal (a paste event of the editor or the paste shortcut)
    is at most 800 milliseconds old, and as typed otherwise, so every
    inserted character is counted exactly once.  The clock readings are
    assumed to be positive and the lengths not negative. *)
Theorem charBreakdown_of_run (ds : list Delivery) :
  Forall wellTimed ds ->
  typedChars (run initialState ds) = typedSum [] ds /\
  pastedChars (run initialState ds) = pastedSum [] ds /\
  typedChars (run initialState ds) + pastedChars (run initialState ds)
  = fold_right (fun d acc => inserted d + acc) 0 ds.
Proof.
  intros H. destruct (run_chars ds H [] initialState eq_refl) as [T P].
  cbn [initialState typedChars pastedChars] in T, P.
  split; [lia|]. split; [lia|].
  rewrite T, P. clear. generalize (@nil Delivery) as before.
  induction ds as [|d ds IH]; intros before; cbn [typedSum pastedSum fold_right]; [lia|].
  specialize (IH (d :: before)).
  destruct (inPasteWindow _ _); lia.
Qed.


(** What a request of a given type tells about the delivery [d] that
    produced it, in the state [st] with [before] delivered before (latest
    first). *)
Definition Provenance (before : list Delivery) (st : State) (d : Delivery)
  (e : LogEntry) : Prop :=
  at_ms e = clock d /\ captured d <> None /\
  (event_type e = "FACE_NOT_DETECTED" ->
   (exists box, input d = FaceTick 0 box) /\ 1 <= noFaceTicks before) /\
  (event_type e = "MULTIPLE_FACES" ->
   exists count box, input d = FaceTick (S (S count)) box) /\
  (event_type e = "SUSPICIOUS_BEHAVIOR" ->
   (exists box, input d = FaceTick 1 box) \/ (exists frame, input d = MotionTick frame)) /\
  (event_type e = "COPY_PASTE_DETECTED" ->
   exists changes, input d = ContentChanged changes /\ 0 < sumLengths changes /\
                   clock d <= pasteDetectionUntilRef st) /\
  (event_type e = "WEBCAM_DISABLED" -> input d = TrackEnded \/ input d = CameraFailed) /\
  (event_type e = "TAB_SWITCH" -> input d = VisibilityChange true) /\
  In (event_type e)
     ["FACE_NOT_DETECTED"; "MULTIPLE_FACES"; "SUSPICIOUS_BEHAVIOR";
      "COPY_PASTE_DETECTED"; "WEBCAM_DISABLED"; "TAB_SWITCH"].

(** The streak counters of the face-detection mode. *)
Definition streaks (st : State) : Z * Z := (noFaceStreakRef st, multiFaceStreakRef st).

Lemma log_log (c : option Z) (ty : string) (sev : Severity) (now : Z) (st : State) :
  log (logTelemetryEvent c ty sev now st) = (log st ++ sent c ty sev now)%list /\
  streaks (logTelemetryEvent c ty sev now st) = streaks st.
Proof.
  unfold logTelemetryEvent. destruct c; cbn [sent]; [now split|].
  now rewrite app_nil_r.
Qed.

Lemma noFace_log (c : option Z) (ty : string) (sev : Severity) (now : Z) (st : State) :
  noFaceStreakRef (logTelemetryEvent c ty sev now st) = noFaceStreakRef st.
Proof. unfold logTelemetryEvent. now destruct c. Qed.

Lemma multiFace_log (c : option Z) (ty : string) (sev : Severity) (now : Z) (st : State) :
  multiFaceStreakRef (logTelemetryEvent c ty sev now st) = multiFaceStreakRef st.
Proof. unfold logTelemetryEvent. now destruct c. Qed.

Lemma sent_inv (c : option Z) (ty : string) (sev : Severity) (now : Z) (e : LogEntry) :
  In e (sent c ty sev now) -> c <> None /\ event_type e = ty /\ at_ms e = now.
Proof.
  destruct c; cbn [sent In]; [|contradiction].
  intros [<- | []]. repeat split. discriminate.
Qed.

Lemma log_reportMotion (c : option Z) (now : Z) (st : State) :
  exists new,
    log (reportMotion c now st) = (log st ++ new)%list /\
    (forall e, In e new ->
       c <> None /\ event_type e = "SUSPICIOUS_BEHAVIOR" /\ at_ms e = now) /\
    streaks (reportMotion c now st) = streaks st.
Proof.
  unfold reportMotion. destruct (_ && _)%bool.
  - match goal with
    | |- context [logTelemetryEvent ?a ?b ?v ?n ?s] =>
        destruct (log_log a b v n s) as [L S]
    end.
    eexists. split; [exact L|]. split; [apply sent_inv | exact S].
  - exists []. rewrite app_nil_r. repeat split; contradiction.
Qed.

Lemma log_countFaces (c : option Z) (count : nat) (box : option Metrics) (now : Z)
  (st : State) :
  exists new,
    log (countFaces c count box now st) = (log st ++ new)%list /\
    (forall e, In e new ->
       c <> None /\ event_type e = "SUSPICIOUS_BEHAVIOR" /\ at_ms e = now /\
       count = 1%nat) /\
    streaks (countFaces c count box now st)
    = match count with
      | O => (noFaceStreakRef st + 1, 0)
      | S O => (0, 0)
      | _ => (0, multiFaceStreakRef st + 1)
      end.
Proof.
  unfold Telemetry.countFaces. destruct count as [|[|count]].
  - exists []. rewrite app_nil_r. repeat split; contradiction.
  - destruct box as [metrics|].
    2:{ exists []. rewrite app_nil_r. repeat split; contradiction. }
    destruct (Telemetry.lastFaceMetricsRef Metrics Frame
                (setStreaks Metrics Frame st 0 0 (Telemetry.motionStreakRef Metrics Frame st)))
      as [prev|].
    2:{ exists []. rewrite app_nil_r. repeat split; contradiction. }
    match goal with
    | |- context [reportMotion ?a ?b ?s] =>
        destruct (log_reportMotion a b s) as (new & L & P & S)
    end.
    exists new. split; [exact L|]. split.
    + intros e He. destruct (P e He) as (P1 & P2 & P3). now repeat split.
    + exact S.
  - exists []. rewrite app_nil_r. repeat split; contradiction.
Qed.

Lemma log_reportNoFace (c : option Z) (now : Z) (st : State) :
  exists new,
    log (reportNoFace c now st) = (log st ++ new)%list /\
    (forall e, In e new ->
       c <> None /\ event_type e = "FACE_NOT_DETECTED" /\ at_ms e = now /\
       2 <= noFaceStreakRef st) /\
    noFaceStreakRef (reportNoFace c now st) <= noFaceStreakRef st /\
    multiFaceStreakRef (reportNoFace c now st) = multiFaceStreakRef st.
Proof.
  unfold reportNoFace.
  destruct (Z.leb_spec NO_FACE_THRESHOLD (noFaceStreakRef st)) as [T | T];
    cbn [andb].
  - destruct (15000 <? _).
    + cbv zeta.
      match goal with
      | |- context [logTelemetryEvent ?a ?b ?v ?n ?s] =>
          set (s0 := s); destruct (log_log a b v n s0) as [L S]
      end.
      pose proof (noFace_log c "FACE_NOT_DETECTED" MEDIUM now s0) as S1.
      pose proof (multiFace_log c "FACE_NOT_DETECTED" MEDIUM now s0) as S2.
      eexists. split; [exact L|]. split; [|split].
      * intros e He. destruct (sent_inv _ _ _ _ _ He) as (H1 & H2 & H3).
        unfold NO_FACE_THRESHOLD in T. now repeat split.
      * rewrite S1. unfold s0. cbn [setStreaks noFaceStreakRef].
        unfold NO_FACE_THRESHOLD in T. lia.
      * rewrite S2. reflexivity.
    + exists []. rewrite app_nil_r. repeat split; try contradiction. lia.
  - exists []. rewrite app_nil_r. repeat split; try contradiction. lia.
Qed.

Lemma log_reportMultiFace (c : option Z) (now : Z) (st : State) :
  exists new,
    log (reportMultiFace c now st) = (log st ++ new)%list /\
    (forall e, In e new ->
       c <> None /\ event_type e = "MULTIPLE_FACES" /\ at_ms e = now /\
       1 <= multiFaceStreakRef st) /\
    noFaceStreakRef (reportMultiFace c now st) = noFaceStreakRef st.
Proof.
  unfold reportMultiFace.
  destruct (Z.leb_spec MULTI_FACE_THRESHOLD (multiFaceStreakRef st)) as [T | T];
    cbn [andb].
  - destruct (15000 <? _).
    + cbv zeta.
      match goal with
      | |- context [logTelemetryEvent ?a ?b ?v ?n ?s] =>
          set (s0 := s); destruct (log_log a b v n s0) as [L S]
      end.
      pose proof (noFace_log c "MULTIPLE_FACES" HIGH now s0) as S1.
      eexists. split; [exact L|]. split.
      * intros e He. destruct (sent_inv _ _ _ _ _ He) as (H1 & H2 & H3).
        unfold MULTI_FACE_THRESHOLD in T. now repeat split.
      * rewrite S1. reflexivity.
    + exists []. rewrite app_nil_r. repeat split; contradiction.
  - exists []. rewrite app_nil_r. repeat split; contradiction.
Qed.

Lemma motionTick_log (c : option Z) (frame : Frame) (now : Z) (st : State) :
  exists new,
    log (motionTick c frame now st) = (log st ++ new)%list /\
    (forall e, In e new ->
       c <> None /\ event_type e = "SUSPICIOUS_BEHAVIOR" /\ at_ms e = now) /\
    noFaceStreakRef (motionTick c frame now st) = noFaceStreakRef st.
Proof.
  unfold Telemetry.motionTick.
  destruct (Telemetry.lastFrameDataRef Metrics Frame st) as [prev|].
  - match goal with
    | |- context [reportMotion ?a ?b ?s] =>
        destruct (log_reportMotion a b s) as (new & L & P & S)
    end.
    exists new. split; [exact L|]. split; [exact P|].
    apply (f_equal fst) in S. exact S.
  - exists []. rewrite app_nil_r. repeat split; contradiction.
Qed.

Lemma contentChanged_log (c : option Z) (changes : list Z) (now : Z) (st : State) :
  exists new,
    log (contentChanged c changes now st) = (log st ++ new)%list /\
    (forall e, In e new ->
       c <> None /\ event_type e = "COPY_PASTE_DETECTED" /\ at_ms e = now /\
       0 < sumLengths changes /\ now <= pasteDetectionUntilRef st) /\
    noFaceStreakRef (contentChanged c changes now st) = noFaceStreakRef st.
Proof.
  unfold contentChanged. cbv zeta.
  set (until := pasteDetectionUntilRef st).
  assert (P : ((if until <? now then false else Telemetry.isPastingRef Metrics Frame st)
               || (now <=? until))%bool = (now <=? until)).
  { destruct (Z.ltb_spec until now), (Z.leb_spec now until);
      try lia; try reflexivity; now rewrite orb_true_r. }
  rewrite P. unfold reportPaste.
  cbn [setPaste lastTelemetryRef log noFaceStreakRef].
  destruct (Z.ltb_spec 0 (if now <=? until then sumLengths changes else 0)) as [Q | Q];
    cbn [andb].
  - destruct (15000 <? _).
    + match goal with
      | |- context [logTelemetryEvent ?a ?b ?v ?n ?s] =>
          destruct (log_log a b v n s) as [L S]
      end.
      match goal with
      | |- context [logTelemetryEvent ?a ?b ?v ?n ?s] =>
          pose proof (noFace_log a b v n s) as S1
      end.
      eexists. split; [exact L|]. split; [|exact S1].
      intros e He. destruct (sent_inv _ _ _ _ _ He) as (H1 & H2 & H3).
      destruct (Z.leb_spec now until); [|lia]. now repeat split.
    + exists []. rewrite app_nil_r. repeat split; contradiction.
  - exists []. rewrite app_nil_r. repeat split; contradiction.
Qed.

(** One delivery: the requests it adds, with their provenance, and the
    streak of ticks without a face after it. *)
Lemma step_provenance (before : list Delivery) (st : State) (d : Delivery) :
  noFaceStreakRef st <= noFaceTicks before ->
  (exists new,
     log (step st d) = (log st ++ new)%list /\
     forall e, In e new -> Provenance before st d e) /\
  noFaceStreakRef (step st d) <= noFaceTicks (d :: before).
Proof.
  intros I.
  destruct d as [cid now [count box | frame | | | | | changes | hidden]];
    unfold Telemetry.step; cbn [input captured clock noFaceTicks].
  - unfold Telemetry.faceTick.
    destruct (log_countFaces cid count box now st) as (n1 & L1 & P1 & S1).
    destruct (log_reportNoFace cid now (countFaces cid count box now st))
      as (n2 & L2 & P2 & S2 & M2).
    destruct (log_reportMultiFace cid now
                (reportNoFace cid now (countFaces cid count box now st)))
      as (n3 & L3 & P3 & S3).
    assert (Sa : noFaceStreakRef (countFaces cid count box now st)
                 = match count with O => noFaceStreakRef st + 1 | _ => 0 end).
    { apply (f_equal fst) in S1. unfold streaks in S1. cbn [fst] in S1.
      rewrite S1. now destruct count as [|[|count]]. }
    assert (Sb : multiFaceStreakRef (countFaces cid count box now st)
                 = match count with
                   | O | S O => 0
                   | _ => multiFaceStreakRef st + 1
                   end).
    { apply (f_equal snd) in S1. unfold streaks in S1. cbn [snd] in S1.
      rewrite S1. now destruct count as [|[|count]]. }
    clear S1.
    split.
    + exists (n1 ++ n2 ++ n3)%list. split.
      { rewrite L3, L2, L1. now rewrite !app_assoc. }
      intros e He. unfold Provenance. cbn [clock captured input].
      apply in_app_or in He. destruct He as [He | He];
        [|apply in_app_or in He; destruct He as [He | He]].
      * destruct (P1 e He) as (H1 & H2 & H3 & ->).
        rewrite H2. repeat split; try assumption; try discriminate.
        -- intros _. left. now exists box.
        -- cbn. tauto.
      * destruct (P2 e He) as (H1 & H2 & H3 & H4).
        rewrite H2. repeat split; try assumption; try discriminate.
        -- rewrite Sa in H4. destruct count as [|count]; [now exists box | lia].
        -- rewrite Sa in H4. destruct count as [|count]; lia.
        -- cbn. tauto.
      * destruct (P3 e He) as (H1 & H2 & H3 & H4).
        rewrite H2. repeat split; try assumption; try discriminate.
        -- intros _. rewrite M2, Sb in H4.
           destruct count as [|[|count]]; try lia. now exists count, box.
        -- cbn. tauto.
    + rewrite S3. rewrite Sa in S2. destruct count as [|[|count]]; lia.
  - destruct (motionTick_log cid frame now st) as (new & L & P & S).
    split; [|rewrite S; exact I].
    exists new. split; [exact L|].
    intros e He. destruct (P e He) as (H1 & H2 & H3). unfold Provenance.
    cbn [clock captured input]. rewrite H2.
    repeat split; try assumption; try discriminate.
    + intros _. right. now exists frame.
    + cbn. tauto.
  - split.
    + unfold trackEnded. destruct (15000 <? _).
      * match goal with
        | |- context [logTelemetryEvent ?a ?b ?v ?n ?s] =>
            destruct (log_log a b v n s) as [L S]
        end.
        eexists. split; [exact L|].
        intros e He. destruct (sent_inv _ _ _ _ _ He) as (H1 & H2 & H3).
        unfold Provenance. cbn [clock captured input]. rewrite H2.
        repeat split; try assumption; try discriminate.
        -- intros _. now left.
        -- cbn. tauto.
      * exists []. rewrite app_nil_r. split; [reflexivity | contradiction].
    + unfold trackEnded. destruct (15000 <? _); [|exact I].
      rewrite noFace_log. exact I.
  - unfold cameraFailed.
    destruct (log_log cid "WEBCAM_DISABLED" HIGH now st) as [L S].
    split; [|rewrite noFace_log; exact I].
    eexists. split; [exact L|].
    intros e He. destruct (sent_inv _ _ _ _ _ He) as (H1 & H2 & H3).
    unfold Provenance. cbn [clock captured input]. rewrite H2.
    repeat split; try assumption; try discriminate.
    + intros _. now right.
    + cbn. tauto.
  - split; [|exact I].
    exists []. rewrite app_nil_r. split; [reflexivity | contradiction].
  - split; [|exact I].
    exists []. rewrite app_nil_r. split; [reflexivity | contradiction].
  - destruct (contentChanged_log cid changes now st) as (new & L & P & S).
    split; [|rewrite S; exact I].
    exists new. split; [exact L|].
    intros e He. destruct (P e He) as (H1 & H2 & H3 & H4 & H5). unfold Provenance.
    cbn [clock captured input]. rewrite H2.
    repeat split; try assumption; try discriminate.
    + intros _. now exists changes.
    + cbn. tauto.
  - unfold handleVisibilityChange. destruct hidden, cid as [c|]; cbn [noFaceTicks].
    + match goal with
      | |- context [logTelemetryEvent ?a ?b ?v ?n ?s] =>
          destruct (log_log a b v n s) as [L S]
      end.
      split.
      * eexists. split; [exact L|].
        intros e He. destruct (sent_inv _ _ _ _ _ He) as (H1 & H2 & H3).
        unfold Provenance. cbn [clock captured input]. rewrite H2.
        repeat split; try assumption; try discriminate. cbn. tauto.
      * cbn [setTabs noFaceStreakRef]. rewrite noFace_log. exact I.
    + split; [|exact I].
      exists []. rewrite app_nil_r. split; [reflexivity | contradiction].
    + split; [|exact I].
      exists []. rewrite app_nil_r. split; [reflexivity | contradiction].
    + split; [|exact I].
      exists []. rewrite app_nil_r. split; [reflexivity | contradiction].
Qed.

Lemma run_noFace (ds : list Delivery) :
  forall before st,
    noFaceStreakRef st <= noFaceTicks before ->
    noFaceStreakRef (run st ds) <= noFaceTicks (rev ds ++ before).
Proof.
  induction ds as [|d ds IH]; intros before st I; [exact I|].
  cbn [Telemetry.run fold_left rev].
  change (fold_left step ds (step st d)) with (run (step st d) ds).
  rewrite <- app_assoc. cbn [app]. apply IH.
  now apply step_provenance.
Qed.

(** X24.  Every request of a run is sent by a handler that knows the candidate,
    carries the clock reading of its delivery, and has one of six types, each
    of which tells what was delivered: a missing face is reported only at a
    face tick without a face that follows another such tick (one frame
    without a face is never reported); several faces only at a tick with two
    or more faces; motion only at a tick with exactly one face or at a tick
    of the motion fallback; a paste only at a change of positive length
    inside the paste window; a disabled camera only when the track ends or
    the camera fails to start; a tab switch only when the page is hidden. *)
Theorem signal_provenance (ds : list Delivery) (d : Delivery) :
  let st := run initialState ds in
  exists new,
    log (step st d) = (log st ++ new)%list /\
    forall e, In e new -> Provenance (rev ds) st d e.
Proof.
  cbv zeta.
  pose proof (run_noFace ds [] initialState ltac:(cbn; lia)) as I.
  rewrite app_nil_r in I.
  exact (proj1 (step_provenance (rev ds) (run initialState ds) d I)).
Qed.

End Signals.

Lemma charBreakdown_of_run_witness :
  let ds := [ {| captured := Some 7; clock := 1000; input := PasteSignal |};
              {| captured := Some 7; clock := 1300; input := ContentChanged [120] |};
              {| captured := Some 7; clock := 5000; input := ContentChanged [1] |} ] in
  typedChars (Telemetry.run unit unit (fun _ _ => false) (fun _ _ => false)
                initialState ds) = 1 /\
  pastedChars (Telemetry.run unit unit (fun _ _ => false) (fun _ _ => false)
                 initialState ds) = 120.
Proof.
  cbv zeta.
  match goal with
  | |- typedChars (Telemetry.run _ _ ?f ?g _ ?ds) = _ /\ _ =>
      assert (H : Forall (@wellTimed unit unit) ds)
        by (repeat constructor; cbn; lia);
      destruct (charBreakdown_of_run unit unit f g ds H) as (T & P & _)
  end.
  rewrite T, P. split; reflexivity.
Defined.

End Forensics.

(* ================================================================== *)
(** * The session token and the route guard                            *)
(* ================================================================== *)

Module Session.
Import Js.

Local Open Scope Z_scope.

(** [const TOKEN_KEY = 'aerohire_token'] *)
Definition TOKEN_KEY : string := "aerohire_token".

(** [localStorage]: the stored items, at most one per key. *)
Definition Storage : Type := list (string * string).

(** What the token helpers and the interceptors read and write of the
    browser: [localStorage] and [window.location.pathname]. *)
Record Browser := {
  localStorage : Storage;
  pathname : string
}.

(** [localStorage.getItem(key)] *)
Fixpoint getItem (key : string) (s : Storage) : option string :=
  match s with
  | [] => None
  | (k, v) :: rest => if String.eqb k key then Some v else getItem key rest
  end.

(** [localStorage.removeItem(key)] *)
Fixpoint removeItem (key : string) (s : Storage) : Storage :=
  match s with
  | [] => []
  | (k, v) :: rest =>
      if String.eqb k key then removeItem key rest else (k, v) :: removeItem key rest
  end.

(** [localStorage.setItem(key, value)] *)
Definition setItem (key value : string) (s : Storage) : Storage :=
  (key, value) :: removeItem key s.

(** [setToken(token)] *)
Definition setToken (token : string) (b : Browser) : Browser :=
  {| localStorage := setItem TOKEN_KEY token (localStorage b); pathname := pathname b |}.

(** [getToken()] *)
Definition getToken (b : Browser) : option string := getItem TOKEN_KEY (localStorage b).

(** [removeToken()] *)
Definition removeToken (b : Browser) : Browser :=
  {| localStorage := removeItem TOKEN_KEY (localStorage b); pathname := pathname b |}.

(** [isAuthenticated()]: [!!getToken()]; the empty string is falsy. *)
Definition isAuthenticated (b : Browser) : bool :=
  match getToken b with
  | None | Some EmptyString => false
  | Some _ => true
  end.

(** The headers of a request, by name. *)
Definition Headers : Type := list (string * string).

(** The request interceptor: [config.headers.Authorization = `Bearer
    ${token}`] when a token is stored and the request has headers. *)
Definition requestInterceptor (b : Browser) (headers : option Headers) : option Headers :=
  match getToken b, headers with
  | Some (String c t), Some h =>
      Some (("Authorization", "Bearer " ++ String c t) :: removeItem "Authorization" h)
  | _, _ => headers
  end.

(** The error branch of the response interceptor, for the status of the
    response ([None] when the error has no response); the error is rejected
    again in every case. *)
Definition responseInterceptor (status : option Z) (b : Browser) : Browser :=
  match status with
  | Some 401 =>
      {| localStorage := removeItem TOKEN_KEY (localStorage b);
         pathname := if String.eqb (pathname b) "/login" then pathname b else "/login" |}
  | _ => b
  end.

(** [authApi.login] once the server has answered with [access_token]. *)
Definition login (access_token : string) (b : Browser) : Browser :=
  match access_token with
  | EmptyString => b
  | _ => setToken access_token b
  end.

(** [authApi.logout()] *)
Definition logout (b : Browser) : Browser :=
  {| localStorage := removeItem TOKEN_KEY (localStorage b); pathname := "/login" |}.

(** [interface UserResponse], the field the guard reads. *)
Record UserResponse := { role : string }.

(** The state of [RequireAuth]. *)
Record Guard := {
  isLoading : bool;
  user : option UserResponse;
  authError : bool
}.

(** [verifyAuth] of [RequireAuth], run once after the first render in the
    browser [b]; [me] is the answer of [authApi.me()], [None] when the
    request fails. *)
Definition verifyAuth (b : Browser) (me : option UserResponse) : Guard :=
  if isAuthenticated b
  then match me with
       | Some userData => {| isLoading := false; user := Some userData; authError := false |}
       | None => {| isLoading := false; user := None; authError := true |}
       end
  else {| isLoading := false; user := None; authError := true |}.

(** What [RequireAuth] renders. *)
Inductive Rendered :=
| Spinner
| NavigateTo (path : string)
| Children.

(** The render of [RequireAuth] in the browser [b]. *)
Definition RequireAuth (allowedRoles : option (list string)) (g : Guard) (b : Browser)
  : Rendered :=
  if isLoading g then Spinner
  else if authError g || negb (isAuthenticated b) then NavigateTo "/login"
  else
    match allowedRoles, user g with
    | Some roles, Some u =>
        if negb (existsb (String.eqb (role u)) roles)
        then if String.eqb (role u) "candidate" then NavigateTo "/candidate/dashboard"
             else if String.eqb (role u) "recruiter" then NavigateTo "/recruiter/dashboard"
             else NavigateTo "/login"
        else Children
    | _, _ => Children
    end.

Lemma getItem_removeItem (key k : string) (s : Storage) :
  getItem k (removeItem key s) = if String.eqb key k then None else getItem k s.
Proof.
  induction s as [|[k0 v0] s IH]; cbn [removeItem getItem].
  - now destruct (String.eqb key k).
  - destruct (String.eqb_spec k0 key) as [-> | N].
    + rewrite IH. now destruct (String.eqb key k).
    + cbn [getItem]. rewrite IH.
      destruct (String.eqb_spec k0 k) as [-> | N'].
      * destruct (String.eqb_spec key k) as [-> | _]; [congruence | reflexivity].
      * reflexivity.
Qed.

Lemma getItem_setItem (key value k : string) (s : Storage) :
  getItem k (setItem key value s) = if String.eqb key k then Some value else getItem k s.
Proof.
  unfold setItem. cbn [getItem]. rewrite getItem_removeItem.
  now destruct (String.eqb key k).
Qed.

Lemma getToken_setToken (token : string) (b : Browser) :
  getToken (setToken token b) = Some token.
Proof.
  unfold getToken, setToken. cbn [localStorage].
  now rewrite getItem_setItem, String.eqb_refl.
Qed.

Lemma getToken_removed (b : Browser) (p : string) :
  getToken {| localStorage := removeItem TOKEN_KEY (localStorage b); pathname := p |} = None.
Proof.
  unfold getToken. cbn [localStorage].
  now rewrite getItem_removeItem, String.eqb_refl.
Qed.

Lemma requestInterceptor_unauthenticated (b : Browser) (headers : option Headers) :
  isAuthenticated b = false -> requestInterceptor b headers = headers.
Proof.
  unfold isAuthenticated, requestInterceptor.
  destruct (getToken b) as [[|c t]|]; [reflexivity | discriminate | reflexivity].
Qed.

(** X25.  The token helpers are a store with one slot: a token that was set is
    the token read back, a removed token is gone, a set token counts as
    authenticated exactly when it is not the empty string, and no other item
    of the local storage is touched. *)
Theorem token_round_trip (token : string) (b : Browser) :
  getToken (setToken token b) = Some token /\
  getToken (removeToken b) = None /\
  (isAuthenticated (setToken token b) = true <-> token <> EmptyString) /\
  isAuthenticated (removeToken b) = false /\
  getToken (removeToken (setToken token b)) = None /\
  (forall k, k <> TOKEN_KEY ->
     getItem k (localStorage (setToken token b)) = getItem k (localStorage b) /\
     getItem k (localStorage (removeToken b)) = getItem k (localStorage b)).
Proof.
  split; [apply getToken_setToken|].
  split; [apply getToken_removed|].
  split; [|split; [|split]].
  - unfold isAuthenticated. rewrite getToken_setToken.
    destruct token; split; congruence.
  - unfold isAuthenticated, removeToken. now rewrite getToken_removed.
  - apply getToken_removed.
  - intros k N. unfold setToken, removeToken. cbn [localStorage].
    rewrite getItem_setItem, getItem_removeItem.
    destruct (String.eqb_spec TOKEN_KEY k); [congruence | now split].
Qed.

Lemma token_round_trip_witness :
  isAuthenticated (setToken "abc" {| localStorage := []; pathname := "/login" |}) = true.
Proof.
  apply (proj1 (proj2 (proj2 (token_round_trip "abc"
                                {| localStorage := []; pathname := "/login" |})))).
  discriminate.
Defined.

(** X26.  With a non-empty token stored, a request with headers leaves the
    interceptor with [Authorization: Bearer <token>] and its other headers
    as they were; without one it leaves unchanged.  A login that returned a
    token makes the next request carry that token.  A response with status
    401, and a logout, remove the token, put the browser on the login page
    and make later requests leave unchanged; a failure with another status,
    or without a response, changes nothing. *)
Theorem session_lifecycle (b : Browser) (headers : Headers) :
  (forall token, getToken b = Some token -> token <> EmptyString ->
     exists h, requestInterceptor b (Some headers) = Some h /\
       getItem "Authorization" h = Some ("Bearer " ++ token) /\
       forall k, k <> "Authorization" -> getItem k h = getItem k headers) /\
  (isAuthenticated b = false -> requestInterceptor b (Some headers) = Some headers) /\
  requestInterceptor b None = None /\
  (forall token, token <> EmptyString ->
     exists h, requestInterceptor (login token b) (Some headers) = Some h /\
       getItem "Authorization" h = Some ("Bearer " ++ token)) /\
  login EmptyString b = b /\
  (forall b', b' = responseInterceptor (Some 401) b \/ b' = logout b ->
     isAuthenticated b' = false /\ pathname b' = "/login" /\
     requestInterceptor b' (Some headers) = Some headers /\
     forall k, k <> TOKEN_KEY -> getItem k (localStorage b') = getItem k (localStorage b)) /\
  (forall status, status <> Some 401 -> responseInterceptor status b = b).
Proof.
  assert (A : forall b0 token, getToken b0 = Some token -> token <> EmptyString ->
     exists h, requestInterceptor b0 (Some headers) = Some h /\
       getItem "Authorization" h = Some ("Bearer " ++ token) /\
       forall k, k <> "Authorization" -> getItem k h = getItem k headers).
  { intros b0 token G N. unfold requestInterceptor. rewrite G.
    destruct token as [|c t]; [congruence|].
    eexists. split; [reflexivity|]. split.
    - cbn [getItem]. now rewrite String.eqb_refl.
    - intros k Nk. cbn [getItem]. rewrite getItem_removeItem.
      destruct (String.eqb_spec "Authorization" k); [congruence | reflexivity]. }
  split; [apply A|].
  split; [apply requestInterceptor_unauthenticated|].
  split; [unfold requestInterceptor; now destruct (getToken b) as [[|? ?]|]|].
  split; [|split; [reflexivity|split]].
  - intros token N.
    destruct (A (login token b) token) as (h & E & G & _); [|exact N|now exists h].
    destruct token as [|c t]; [congruence|]. apply getToken_setToken.
  - assert (P : forall p, let b' := {| localStorage := removeItem TOKEN_KEY (localStorage b);
                                       pathname := p |} in
              isAuthenticated b' = false /\
              requestInterceptor b' (Some headers) = Some headers /\
              forall k, k <> TOKEN_KEY ->
                getItem k (localStorage b') = getItem k (localStorage b)).
    { intros p b'. assert (F : isAuthenticated b' = false).
      { unfold isAuthenticated, b'. now rewrite getToken_removed. }
      split; [exact F|]. split; [now apply requestInterceptor_unauthenticated|].
      intros k N. unfold b'. cbn [localStorage]. rewrite getItem_removeItem.
      destruct (String.eqb_spec TOKEN_KEY k); [congruence | reflexivity]. }
    intros b' [-> | ->].
    + unfold responseInterceptor.
      match goal with |- context [Build_Browser _ ?p] => destruct (P p) as (P1 & P2 & P3) end.
      split; [exact P1|]. split; [|split; [exact P2 | exact P3]].
      cbn [pathname]. destruct (String.eqb_spec (pathname b) "/login"); [assumption | reflexivity].
    + unfold logout. destruct (P "/login") as (P1 & P2 & P3).
      split; [exact P1|]. split; [reflexivity|]. split; [exact P2 | exact P3].
  - intros status N. unfold responseInterceptor.
    destruct status as [[|p|p]|]; try reflexivity.
    repeat (destruct p as [p|p|]; try reflexivity). congruence.
Qed.

Lemma session_lifecycle_witness :
  exists h,
    requestInterceptor {| localStorage := [(TOKEN_KEY, "abc")]; pathname := "/candidate/dashboard" |}
      (Some [("Content-Type", "application/json")]) = Some h /\
    getItem "Authorization" h = Some "Bearer abc".
Proof.
  destruct (proj1 (session_lifecycle
                     {| localStorage := [(TOKEN_KEY, "abc")]; pathname := "/candidate/dashboard" |}
                     [("Content-Type", "application/json")]) "abc")
    as (h & E & G & _); [reflexivity | discriminate |].
  exists h. split; [exact E | exact G].
Defined.

(** X27.  The route guard shows the spinner until the check has ended.  It
    renders the protected children only if a token was stored when the check
    ran and is still stored at the render, the profile request succeeded,
    and the role of the profile is one of the allowed roles when roles are
    given.  A signed-in candidate or recruiter whose role is not allowed is
    sent to the dashboard of their own role. *)
Theorem RequireAuth_guard (allowedRoles : option (list string)) (b b' : Browser)
    (me : option UserResponse) :
  RequireAuth allowedRoles {| isLoading := true; user := None; authError := false |} b'
  = Spinner /\
  RequireAuth allowedRoles (verifyAuth b me) b' <> Spinner /\
  (RequireAuth allowedRoles (verifyAuth b me) b' = Children ->
   isAuthenticated b = true /\ isAuthenticated b' = true /\
   exists u, me = Some u /\
     forall roles, allowedRoles = Some roles -> In (role u) roles) /\
  (forall u roles, isAuthenticated b = true -> isAuthenticated b' = true ->
     me = Some u -> allowedRoles = Some roles -> ~ In (role u) roles ->
     (role u = "candidate" ->
      RequireAuth allowedRoles (verifyAuth b me) b' = NavigateTo "/candidate/dashboard") /\
     (role u = "recruiter" ->
      RequireAuth allowedRoles (verifyAuth b me) b' = NavigateTo "/recruiter/dashboard") /\
     (role u <> "candidate" -> role u <> "recruiter" ->
      RequireAuth allowedRoles (verifyAuth b me) b' = NavigateTo "/login")).
Proof.
  assert (X : forall r roles, existsb (String.eqb r) roles = true <-> In r roles).
  { intros r roles. rewrite existsb_exists. split.
    - intros (x & I & E). apply String.eqb_eq in E. now subst.
    - intros I. exists r. split; [exact I | apply String.eqb_refl]. }
  split; [reflexivity|]. split; [|split].
  - unfold RequireAuth, verifyAuth.
    destruct (isAuthenticated b), me as [u|]; cbn; try discriminate.
    destruct (isAuthenticated b'); cbn; try discriminate.
    destruct allowedRoles as [roles|]; try discriminate.
    destruct (existsb _ roles); cbn; try discriminate.
    destruct (String.eqb (role u) "candidate"); try discriminate.
    destruct (String.eqb (role u) "recruiter"); discriminate.
  - unfold RequireAuth, verifyAuth.
    destruct (isAuthenticated b), me as [u|]; cbn; try discriminate.
    destruct (isAuthenticated b'); cbn; try discriminate.
    intros H. split; [reflexivity|]. split; [reflexivity|].
    exists u. split; [reflexivity|]. intros roles ->.
    apply X. destruct (existsb _ roles); [reflexivity|]. cbn in H.
    destruct (String.eqb (role u) "candidate"); try discriminate.
    destruct (String.eqb (role u) "recruiter"); discriminate.
  - intros u roles A A' -> -> N.
    unfold RequireAuth, verifyAuth. rewrite A. cbn. rewrite A'. cbn.
    destruct (existsb (String.eqb (role u)) roles) eqn:E.
    { exfalso. apply N. now apply X. }
    cbn. split; [|split].
    + intros ->. reflexivity.
    + intros ->. reflexivity.
    + intros N1 N2.
      destruct (String.eqb_spec (role u) "candidate"); [congruence|].
      destruct (String.eqb_spec (role u) "recruiter"); [congruence|]. reflexivity.
Qed.

Lemma RequireAuth_guard_witness :
  RequireAuth (Some ["recruiter"])
    (verifyAuth {| localStorage := [(TOKEN_KEY, "abc")]; pathname := "/recruiter/dashboard" |}
                (Some {| role := "candidate" |}))
    {| localStorage := [(TOKEN_KEY, "abc")]; pathname := "/recruiter/dashboard" |}
  = NavigateTo "/candidate/dashboard".
Proof.
  apply (proj1 (proj2 (proj2 (proj2 (RequireAuth_guard (Some ["recruiter"])
           {| localStorage := [(TOKEN_KEY, "abc")]; pathname := "/recruiter/dashboard" |}
           {| localStorage := [(TOKEN_KEY, "abc")]; pathname := "/recruiter/dashboard" |}
           (Some {| role := "candidate" |})))) {| role := "candidate" |} ["recruiter"]
           eq_refl eq_refl eq_refl eq_refl
           ltac:(cbn; intros [H | []]; discriminate H)));
    reflexivity.
Defined.

End Session.
